(** * Bang & Olufsen integration: a shallow embedding of the media player,
      the config flow and the event platform, with the properties of the
      Beolink relay, volume stepping, artwork selection, state mapping and
      JID handling. *)

From Stdlib Require Import String Ascii List ZArith Lia Bool QArith DecimalString.
Import ListNotations.
Local Open Scope string_scope.
Local Open Scope Z_scope.

(** ** Python values the code relies on *)

Module Py.

(** Exception classes: the ones the code names, any other class, and a
    proper subclass of a class (an [except] clause catches it with its base,
    while [type(error)] tells it apart). *)
Inductive exn : Type :=
| KeyError
| ValueError
| TypeError
| AttributeError
| IndexError
| OverflowError
| AssertionError
| ApiException
| ClientConnectorError
| TimeoutError
| OtherError (name : string)
| Subclass (base : exn) (name : string).

(** [type(a) is type(b)]. *)
Fixpoint exn_eqb (a b : exn) : bool :=
  match a, b with
  | KeyError, KeyError | ValueError, ValueError | TypeError, TypeError
  | AttributeError, AttributeError | IndexError, IndexError
  | OverflowError, OverflowError | AssertionError, AssertionError
  | ApiException, ApiException | ClientConnectorError, ClientConnectorError
  | TimeoutError, TimeoutError => true
  | OtherError x, OtherError y => String.eqb x y
  | Subclass a' x, Subclass b' y => exn_eqb a' b' && String.eqb x y
  | _, _ => false
  end.

(** [isinstance(e, cls)], the test an [except cls] clause makes. *)
Fixpoint isinstance (e cls : exn) : bool :=
  exn_eqb e cls ||
  match e with
  | Subclass base _ => isinstance base cls
  | _ => false
  end.

(** The result of evaluating an expression: a value or a raised exception. *)
Inductive outcome (A : Type) : Type :=
| Ok (a : A)
| Raise (e : exn).
Arguments Ok {A} a.
Arguments Raise {A} e.

Definition obind {A B} (o : outcome A) (k : A -> outcome B) : outcome B :=
  match o with
  | Ok a => k a
  | Raise e => Raise e
  end.

(** [x in tuple] for a tuple of strings. *)
Definition str_in (x : string) (l : list string) : bool :=
  existsb (String.eqb x) l.

(** [x in tuple] where the element may be [None]. *)
Definition opt_str_eqb (a b : option string) : bool :=
  match a, b with
  | Some x, Some y => String.eqb x y
  | None, None => true
  | _, _ => false
  end.

Definition opt_str_in (x : option string) (l : list (option string)) : bool :=
  existsb (opt_str_eqb x) l.

(** [l.index(x)]: position of the first occurrence, [ValueError] when absent. *)
Fixpoint index_of {A} (eqb : A -> A -> bool) (x : A) (l : list A) : outcome nat :=
  match l with
  | [] => Raise ValueError
  | y :: l' => if eqb y x then Ok O
               else obind (index_of eqb x l') (fun i => Ok (S i))
  end.

(** [l[i]] for a non-negative index. *)
Definition getitem {A} (l : list A) (i : nat) : outcome A :=
  match nth_error l i with
  | Some a => Ok a
  | None => Raise IndexError
  end.

(** [s.split(sep)] for a one-character separator, as every call site has. *)
Fixpoint split (sep : ascii) (s : string) : list string :=
  match s with
  | EmptyString => [EmptyString]
  | String c s' =>
      if Ascii.eqb c sep then EmptyString :: split sep s'
      else match split sep s' with
           | [] => [String c EmptyString]
           | w :: ws => String c w :: ws
           end
  end.

(** [needle in s] for strings. *)
Fixpoint contains (needle s : string) : bool :=
  String.prefix needle s ||
  match s with
  | EmptyString => false
  | String _ s' => contains needle s'
  end.

(** [s.endswith(suffix)]. *)
Definition endswith (s suffix : string) : bool :=
  let n := String.length s in
  let m := String.length suffix in
  (m <=? n)%nat && String.eqb (String.substring (n - m) m s) suffix.

(** [s.replace(old, new)] for a non-empty [old]: occurrences are replaced
    from the left and do not overlap. *)
Fixpoint replace_from (old new : string) (skip : nat) (s : string) : string :=
  match s with
  | EmptyString => EmptyString
  | String c s' =>
      match skip with
      | S k => replace_from old new k s'
      | O => if String.prefix old s
             then new ++ replace_from old new (String.length old - 1) s'
             else String c (replace_from old new O s')
      end
  end.

Definition replace (s old new : string) : string := replace_from old new O s.

(** [s[:-n]]. *)
Definition drop_last (n : nat) (s : string) : string :=
  String.substring 0 (String.length s - n) s.

(** White space stripped by [int(str)] (ASCII part). *)
Definition is_space (c : ascii) : bool :=
  match nat_of_ascii c with
  | 9%nat | 10%nat | 11%nat | 12%nat | 13%nat | 28%nat | 29%nat | 30%nat
  | 31%nat | 32%nat => true
  | _ => false
  end.

Definition digit_of (c : ascii) : option Z :=
  let n := nat_of_ascii c in
  if ((48 <=? n) && (n <=? 57))%nat then Some (Z.of_nat n - 48) else None.

Definition is_digit (c : ascii) : bool :=
  match digit_of c with Some _ => true | None => false end.

Fixpoint lstrip (s : string) : string :=
  match s with
  | String c s' => if is_space c then lstrip s' else s
  | EmptyString => EmptyString
  end.

Fixpoint rstrip (s : string) : string :=
  match s with
  | EmptyString => EmptyString
  | String c s' =>
      match rstrip s' with
      | EmptyString => if is_space c then EmptyString else String c EmptyString
      | r => String c r
      end
  end.

(** Decimal digits with single underscores allowed between digits.
    [prev] tells whether the previous character was a digit. *)
Fixpoint digits_value (acc : Z) (prev : bool) (s : string) : option Z :=
  match s with
  | EmptyString => if prev then Some acc else None
  | String c s' =>
      match digit_of c with
      | Some d => digits_value (10 * acc + d) true s'
      | None =>
          if (Ascii.eqb c "_" && prev)%bool
          then match s' with
               | String c' _ => if is_digit c' then digits_value acc false s' else None
               | EmptyString => None
               end
          else None
      end
  end.

(** [int(s)] in base ten; [None] stands for [ValueError]. *)
Definition int_of_str (s : string) : option Z :=
  match lstrip (rstrip s) with
  | String "-" r => option_map Z.opp (digits_value 0 false r)
  | String "+" r => digits_value 0 false r
  | r => digits_value 0 false r
  end.

End Py.
Export Py.

(** ** Python floats

    The interpreter's floating point is not part of the integration; the
    model is parametric in it.  [None] of [float_of_str] is [ValueError];
    [int_of_float] raises [OverflowError] on infinities and [ValueError] on
    NaN. *)

Class PyFloat : Type := {
  pyfloat : Type;
  float_of_str : string -> option pyfloat;
  float_of_int : Z -> outcome pyfloat;
  float_truth : pyfloat -> bool;
  float_repr : pyfloat -> string;
  float_mul_int : pyfloat -> Z -> pyfloat;
  int_of_float : pyfloat -> outcome Z
}.

Module Value.
Section Values.
Context {F : PyFloat}.

(** The builtin types used as converters by the command tables. *)
Inductive pytype : Type := TFloat | TBool | TStr.

(** Dynamically typed values: service parameters, dispatcher arguments and
    the members of the command tuples. *)
Inductive pyval : Type :=
| PNone
| PBool (b : bool)
| PInt (z : Z)
| PFloat (f : pyfloat)
| PStr (s : string)
| PType (t : pytype).

Definition is_none (v : pyval) : bool :=
  match v with PNone => true | _ => false end.

(** [float(v)]. *)
Definition py_float (v : pyval) : outcome pyfloat :=
  match v with
  | PNone => Raise TypeError
  | PBool b => float_of_int (if b then 1 else 0)
  | PInt z => float_of_int z
  | PFloat f => Ok f
  | PStr s => match float_of_str s with
              | Some f => Ok f
              | None => Raise ValueError
              end
  | PType _ => Raise TypeError
  end.

(** [bool(v)]. *)
Definition py_bool (v : pyval) : bool :=
  match v with
  | PNone => false
  | PBool b => b
  | PInt z => negb (z =? 0)
  | PFloat f => float_truth f
  | PStr s => negb (String.eqb s "")
  | PType _ => true
  end.

Definition str_of_Z (z : Z) : string :=
  NilZero.string_of_int (Z.to_int z).

(** [str(v)]. *)
Definition py_str (v : pyval) : string :=
  match v with
  | PNone => "None"
  | PBool true => "True"
  | PBool false => "False"
  | PInt z => str_of_Z z
  | PFloat f => float_repr f
  | PStr s => s
  | PType TFloat => "<class 'float'>"
  | PType TBool => "<class 'bool'>"
  | PType TStr => "<class 'str'>"
  end.

(** Calling a value: only types are callable here. *)
Definition py_call (callee arg : pyval) : outcome pyval :=
  match callee with
  | PType TFloat => obind (py_float arg) (fun f => Ok (PFloat f))
  | PType TBool => Ok (PBool (py_bool arg))
  | PType TStr => Ok (PStr (py_str arg))
  | _ => Raise TypeError
  end.

(** [command in command_list]: a string equals only an equal string. *)
Definition str_eq_val (s : string) (v : pyval) : bool :=
  match v with
  | PStr t => String.eqb s t
  | _ => false
  end.

Definition str_in_tuple (s : string) (t : list pyval) : bool :=
  existsb (str_eq_val s) t.

(** [t[-1]] and [t[:-1]] of a non-empty tuple. *)
Definition last_item (t : list pyval) : pyval := List.last t PNone.
Definition but_last (t : list pyval) : list pyval := List.removelast t.

End Values.
End Value.
Export Value.

(** ** const.py *)

Module Const.

(** [ArtSizeEnum[name].value]. *)
Definition ArtSizeEnum (name : string) : option Z :=
  if String.eqb name "small" then Some 1
  else if String.eqb name "medium" then Some 2
  else if String.eqb name "large" then Some 3
  else None.

(** Values of [SourceEnum] members. *)
Module SourceEnum.
Definition uriStreamer := "Audio Streamer".
Definition bluetooth := "Bluetooth".
Definition airPlay := "AirPlay".
Definition chromeCast := "Chromecast built-in".
Definition spotify := "Spotify Connect".
Definition generator := "Tone Generator".
Definition lineIn := "Line-In".
Definition spdif := "Optical".
Definition netRadio := "B&O Radio".
Definition local := "Local".
Definition dlna := "DLNA".
Definition qplay := "QPlay".
Definition wpl := "Wireless Powerlink".
Definition pl := "Powerlink".
Definition tv := "TV".
Definition deezer := "Deezer".
Definition beolink := "Networklink".
Definition tidalConnect := "Tidal Connect".
End SourceEnum.

(** The host's [MediaPlayerState]. *)
Inductive MediaPlayerState : Type :=
| OFF | ON | IDLE | PLAYING | PAUSED | STANDBY | BUFFERING.

(** [StateEnum[name]]: the member's value; [None] is [KeyError]. *)
Definition StateEnum (name : string) : option MediaPlayerState :=
  if String.eqb name "started" then Some PLAYING
  else if String.eqb name "buffering" then Some PLAYING
  else if String.eqb name "idle" then Some IDLE
  else if String.eqb name "paused" then Some PAUSED
  else if String.eqb name "stopped" then Some PAUSED
  else if String.eqb name "ended" then Some PAUSED
  else if String.eqb name "error" then Some IDLE
  else if String.eqb name "unknown" then Some IDLE
  else if String.eqb name "networkStandby" then Some IDLE
  else None.

(** [BangOlufsenMediaType] and the host's [MediaType] values in use. *)
Module BangOlufsenMediaType.
Definition FAVOURITE := "favourite".
Definition DEEZER := "deezer".
Definition RADIO := "radio".
Definition TTS := "provider".
End BangOlufsenMediaType.

Module MediaType.
Definition MUSIC := "music".
Definition URL := "url".
Definition CHANNEL := "channel".
End MediaType.

Module ModelEnum.
Definition beolab_28 := "BeoLab 28".
Definition beosound_2 := "Beosound 2 3rd Gen".
Definition beosound_a5 := "Beosound A5".
Definition beosound_a9 := "Beosound A9 5th Gen".
Definition beosound_balance := "Beosound Balance".
Definition beosound_emerge := "Beosound Emerge".
Definition beosound_level := "Beosound Level".
Definition beosound_theatre := "Beosound Theatre".
End ModelEnum.

(** [SupportEnum.PROXIMITY_SENSOR.value]. *)
Definition PROXIMITY_SENSOR : list string :=
  [ModelEnum.beolab_28; ModelEnum.beosound_2; ModelEnum.beosound_balance;
   ModelEnum.beosound_level; ModelEnum.beosound_theatre].

Definition HOME_CONTROL : list string := [ModelEnum.beosound_theatre].

Definition DEFAULT_DEFAULT_VOLUME : Z := 40.
Definition DEFAULT_MAX_VOLUME : Z := 100.
Definition DEFAULT_VOLUME_STEP : Z := 5.
Definition DEFAULT_MODEL : string := ModelEnum.beosound_balance.

Definition COMPATIBLE_MODELS : list string :=
  [ModelEnum.beolab_28; ModelEnum.beosound_2; ModelEnum.beosound_a5;
   ModelEnum.beosound_a9; ModelEnum.beosound_balance;
   ModelEnum.beosound_emerge; ModelEnum.beosound_level;
   ModelEnum.beosound_theatre].

Definition ATTR_TYPE_NUMBER := "tn".
Definition ATTR_SERIAL_NUMBER := "sn".
Definition ATTR_ITEM_NUMBER := "in".
Definition ATTR_FRIENDLY_NAME := "fn".

Definition BANGOLUFSEN_ON := "on".

Definition VALID_MEDIA_TYPES : list string :=
  [BangOlufsenMediaType.FAVOURITE; BangOlufsenMediaType.DEEZER;
   BangOlufsenMediaType.RADIO; BangOlufsenMediaType.TTS;
   MediaType.MUSIC; MediaType.URL; MediaType.CHANNEL].

Definition PLAYING_STATES : list string := ["started"; "buffering"; BANGOLUFSEN_ON].
Definition NOT_PLAYING : list string :=
  ["idle"; "paused"; "stopped"; "ended"; "unknown"; "error"].

Definition HIDDEN_SOURCE_IDS : list (option string) :=
  map Some ["airPlay"; "bluetooth"; "chromeCast"; "generator"; "local"; "dlna";
            "qplay"; "wpl"; "pl"; "beolink"; "classicsAdapter"; "usbIn"].

(** The vendor's [Source] model. *)
Record Source : Type := mkSource {
  source_id : option string;
  source_is_enabled : option bool;
  source_is_playable : option bool;
  source_name : option string;
  source_type : option string
}.

Definition empty_Source : Source := mkSource None None None None None.

Definition fallback (id : string) (playable : bool) (name : string) : Source :=
  mkSource (Some id) (Some true) (Some playable) (Some name) (Some id).

(** [FALLBACK_SOURCES.items]. *)
Definition FALLBACK_SOURCES : list Source :=
  [fallback "uriStreamer" false "Audio Streamer";
   fallback "bluetooth" false "Bluetooth";
   fallback "spotify" false "Spotify Connect";
   fallback "lineIn" true "Line-In";
   fallback "spdif" true "Optical";
   fallback "netRadio" true "B&O Radio";
   fallback "deezer" true "Deezer";
   fallback "tidalConnect" true "Tidal Connect"].

Definition CONNECTION_STATUS := "CONNECTION_STATUS".
Definition BEOLINK_LEADER_COMMAND := "BEOLINK_LEADER_COMMAND".
Definition BEOLINK_LISTENER_COMMAND := "BEOLINK_LISTENER_COMMAND".
Definition BEOLINK_VOLUME := "BEOLINK_VOLUME".

Section Commands.
Context {F : PyFloat}.

(** The command tuples end with the parameter type (or [None]). *)
Definition FLOAT_PARAMETERS : list pyval :=
  [PStr "set_volume_level"; PStr "media_seek"; PType TFloat].
Definition BOOL_PARAMETERS : list pyval := [PStr "mute_volume"; PType TBool].
Definition STR_PARAMETERS : list pyval := [PStr "select_source"; PType TStr].
Definition NONE_PARAMETERS : list pyval :=
  [PStr "volume_up"; PStr "volume_down"; PStr "media_play_pause";
   PStr "media_pause"; PStr "media_play"; PStr "media_stop";
   PStr "media_next_track"; PStr "media_previous_track"; PStr "toggle";
   PNone].

Definition ACCEPTED_COMMANDS : list pyval :=
  but_last FLOAT_PARAMETERS ++ but_last BOOL_PARAMETERS
  ++ but_last STR_PARAMETERS ++ but_last NONE_PARAMETERS.

Definition ACCEPTED_COMMANDS_LISTS : list (list pyval) :=
  [FLOAT_PARAMETERS; BOOL_PARAMETERS; STR_PARAMETERS; NONE_PARAMETERS].

End Commands.

End Const.

(** ** The vendor client's models (the fields the integration reads) *)

Module Models.
Import Const.

Record Art : Type := mkArt {
  art_has_local_image : option bool;
  art_key : option string;
  art_mime : option string;
  art_size : option string;
  art_url : option string
}.

(** [Art()]. *)
Definition empty_Art : Art := mkArt None None None None None.

Record BeolinkLeader : Type := mkBeolinkLeader {
  leader_friendly_name : string;
  leader_jid : string
}.

Record BeolinkListener : Type := mkBeolinkListener {
  listener_jid : string
}.

Record BeolinkPeer : Type := mkBeolinkPeer {
  peer_friendly_name : string;
  peer_jid : string
}.

Record PlaybackContentMetadata : Type := mkPlaybackContentMetadata {
  metadata_title : option string;
  metadata_art : option (list Art);
  metadata_remote_leader : option BeolinkLeader
}.

Definition empty_PlaybackContentMetadata : PlaybackContentMetadata :=
  mkPlaybackContentMetadata None None None.

Record PlaybackProgress : Type := mkPlaybackProgress {
  progress : option Z;
  total_duration : option Z
}.

Record VolumeState : Type := mkVolumeState {
  volume_level : Z;
  volume_muted : bool
}.

Record PlayQueueSettings : Type := mkPlayQueueSettings {
  queue_repeat : option string;
  queue_shuffle : option bool
}.

Record SoftwareUpdateStatus : Type := mkSoftwareUpdateStatus {
  software_version : string
}.

Record BeolinkSelf : Type := mkBeolinkSelf {
  self_friendly_name : string;
  self_jid : string
}.

Record ProductState : Type := mkProductState {
  product_volume : VolumeState;
  product_metadata : option PlaybackContentMetadata;
  product_progress : PlaybackProgress;
  product_source : Source;
  product_state : string
}.

Record PairedRemote : Type := mkPairedRemote {
  remote_name : string;
  remote_address : string;
  remote_serial_number : option string;
  remote_app_version : option string
}.

Record BluetoothDevice : Type := mkBluetoothDevice {
  bluetooth_name : string;
  bluetooth_address : string;
  bluetooth_connected : bool
}.

(** A Python dict with string keys and values, in insertion order. *)
Definition dict : Type := list (string * string).

Fixpoint dict_set (k v : string) (d : dict) : dict :=
  match d with
  | [] => [(k, v)]
  | (k', v') :: d' =>
      if String.eqb k' k then (k, v) :: d' else (k', v') :: dict_set k v d'
  end.

End Models.
Export Models.

(** ** Beolink JIDs

    The serial number is read off a JID by the same expression in the user
    step of the config flow and in [_get_entity_id_from_jid]. *)

Module Jid.

(** [jid.split(".")[2].split("@")[0]]. *)
Definition serial_number_of_jid (jid : string) : outcome string :=
  obind (getitem (split "." jid) 2)
        (fun part => getitem (split "@" part) 0).

(** The JID the zeroconf step builds from the discovered properties. *)
Definition beolink_jid_of (type_number item_number serial_number : string)
    : string :=
  type_number ++ "." ++ item_number ++ "." ++ serial_number
  ++ "@products.bang-olufsen.com".

End Jid.
Export Jid.

(** ** media_player.py *)

Module MediaPlayer.
Import Const.

(** The data of the config entry the entity is built from. *)
Record EntryData : Type := mkEntryData {
  _host : string;
  _name : string;
  _unique_id : string;
  _beolink_jid : string;
  _max_volume : Z;
  _volume_step : Z;
  _default_volume : Z;
  _model : string
}.

(** The value under ["beolink"] of the extra state attribute. *)
Record BeolinkAttribute : Type := mkBeolinkAttribute {
  attr_self : string * string;
  attr_peers : option dict;
  attr_leader : option (string * string);
  attr_listeners : option dict
}.

(** The value under ["bluetooth"] of the extra state attribute. *)
Record BluetoothAttribute : Type := mkBluetoothAttribute {
  attr_remote : option dict;
  attr_device : option (string * string)
}.

(** The attributes of [BangOlufsenMediaPlayer]. *)
Record MediaPlayer : Type := mkMediaPlayer {
  entry : EntryData;
  _playback_metadata : PlaybackContentMetadata;
  _playback_progress : PlaybackProgress;
  _playback_source : Source;
  _playback_state : string;
  _source_change : Source;
  _volume : VolumeState;
  _friendly_name : string;
  _state : string;
  _media_image : Art;
  _last_update : Z;
  _source_list : list (option string);
  _source_list_friendly : list (option string);
  _beolink_listeners : list BeolinkListener;
  _remote_leader : option BeolinkLeader;
  _queue_settings : PlayQueueSettings;
  _software_status : SoftwareUpdateStatus;
  _beolink_attribute : option BeolinkAttribute;
  _bluetooth_attribute : option BluetoothAttribute;
  _attr_source_list : list (option string);
  _attr_group_members : list (option string)
}.

(** [BangOlufsenMediaPlayer.__init__]. *)
Definition init_MediaPlayer (d : EntryData) : MediaPlayer :=
  mkMediaPlayer d empty_PlaybackContentMetadata (mkPlaybackProgress None (Some 0))
    empty_Source "" empty_Source (mkVolumeState 0 false) "" "idle" empty_Art 0
    [] [] [] None (mkPlayQueueSettings None None) (mkSoftwareUpdateStatus "")
    None None [] [].

Definition set_playback_metadata v (e : MediaPlayer) : MediaPlayer :=
  mkMediaPlayer (entry e) v (_playback_progress e) (_playback_source e)
    (_playback_state e) (_source_change e) (_volume e) (_friendly_name e)
    (_state e) (_media_image e) (_last_update e) (_source_list e)
    (_source_list_friendly e) (_beolink_listeners e) (_remote_leader e)
    (_queue_settings e) (_software_status e) (_beolink_attribute e)
    (_bluetooth_attribute e) (_attr_source_list e) (_attr_group_members e).

Definition set_playback_progress v (e : MediaPlayer) : MediaPlayer :=
  mkMediaPlayer (entry e) (_playback_metadata e) v (_playback_source e)
    (_playback_state e) (_source_change e) (_volume e) (_friendly_name e)
    (_state e) (_media_image e) (_last_update e) (_source_list e)
    (_source_list_friendly e) (_beolink_listeners e) (_remote_leader e)
    (_queue_settings e) (_software_status e) (_beolink_attribute e)
    (_bluetooth_attribute e) (_attr_source_list e) (_attr_group_members e).

Definition set_playback_state v (e : MediaPlayer) : MediaPlayer :=
  mkMediaPlayer (entry e) (_playback_metadata e) (_playback_progress e)
    (_playback_source e) v (_source_change e) (_volume e) (_friendly_name e)
    (_state e) (_media_image e) (_last_update e) (_source_list e)
    (_source_list_friendly e) (_beolink_listeners e) (_remote_leader e)
    (_queue_settings e) (_software_status e) (_beolink_attribute e)
    (_bluetooth_attribute e) (_attr_source_list e) (_attr_group_members e).

Definition set_source_change v (e : MediaPlayer) : MediaPlayer :=
  mkMediaPlayer (entry e) (_playback_metadata e) (_playback_progress e)
    (_playback_source e) (_playback_state e) v (_volume e) (_friendly_name e)
    (_state e) (_media_image e) (_last_update e) (_source_list e)
    (_source_list_friendly e) (_beolink_listeners e) (_remote_leader e)
    (_queue_settings e) (_software_status e) (_beolink_attribute e)
    (_bluetooth_attribute e) (_attr_source_list e) (_attr_group_members e).

Definition set_volume v (e : MediaPlayer) : MediaPlayer :=
  mkMediaPlayer (entry e) (_playback_metadata e) (_playback_progress e)
    (_playback_source e) (_playback_state e) (_source_change e) v
    (_friendly_name e) (_state e) (_media_image e) (_last_update e)
    (_source_list e) (_source_list_friendly e) (_beolink_listeners e)
    (_remote_leader e) (_queue_settings e) (_software_status e)
    (_beolink_attribute e) (_bluetooth_attribute e) (_attr_source_list e)
    (_attr_group_members e).

Definition set_friendly_name v (e : MediaPlayer) : MediaPlayer :=
  mkMediaPlayer (entry e) (_playback_metadata e) (_playback_progress e)
    (_playback_source e) (_playback_state e) (_source_change e) (_volume e) v
    (_state e) (_media_image e) (_last_update e) (_source_list e)
    (_source_list_friendly e) (_beolink_listeners e) (_remote_leader e)
    (_queue_settings e) (_software_status e) (_beolink_attribute e)
    (_bluetooth_attribute e) (_attr_source_list e) (_attr_group_members e).

Definition set_state v (e : MediaPlayer) : MediaPlayer :=
  mkMediaPlayer (entry e) (_playback_metadata e) (_playback_progress e)
    (_playback_source e) (_playback_state e) (_source_change e) (_volume e)
    (_friendly_name e) v (_media_image e) (_last_update e) (_source_list e)
    (_source_list_friendly e) (_beolink_listeners e) (_remote_leader e)
    (_queue_settings e) (_software_status e) (_beolink_attribute e)
    (_bluetooth_attribute e) (_attr_source_list e) (_attr_group_members e).

Definition set_media_image v (e : MediaPlayer) : MediaPlayer :=
  mkMediaPlayer (entry e) (_playback_metadata e) (_playback_progress e)
    (_playback_source e) (_playback_state e) (_source_change e) (_volume e)
    (_friendly_name e) (_state e) v (_last_update e) (_source_list e)
    (_source_list_friendly e) (_beolink_listeners e) (_remote_leader e)
    (_queue_settings e) (_software_status e) (_beolink_attribute e)
    (_bluetooth_attribute e) (_attr_source_list e) (_attr_group_members e).

Definition set_last_update v (e : MediaPlayer) : MediaPlayer :=
  mkMediaPlayer (entry e) (_playback_metadata e) (_playback_progress e)
    (_playback_source e) (_playback_state e) (_source_change e) (_volume e)
    (_friendly_name e) (_state e) (_media_image e) v (_source_list e)
    (_source_list_friendly e) (_beolink_listeners e) (_remote_leader e)
    (_queue_settings e) (_software_status e) (_beolink_attribute e)
    (_bluetooth_attribute e) (_attr_source_list e) (_attr_group_members e).

Definition set_source_list v (e : MediaPlayer) : MediaPlayer :=
  mkMediaPlayer (entry e) (_playback_metadata e) (_playback_progress e)
    (_playback_source e) (_playback_state e) (_source_change e) (_volume e)
    (_friendly_name e) (_state e) (_media_image e) (_last_update e) v
    (_source_list_friendly e) (_beolink_listeners e) (_remote_leader e)
    (_queue_settings e) (_software_status e) (_beolink_attribute e)
    (_bluetooth_attribute e) (_attr_source_list e) (_attr_group_members e).

Definition set_source_list_friendly v (e : MediaPlayer) : MediaPlayer :=
  mkMediaPlayer (entry e) (_playback_metadata e) (_playback_progress e)
    (_playback_source e) (_playback_state e) (_source_change e) (_volume e)
    (_friendly_name e) (_state e) (_media_image e) (_last_update e)
    (_source_list e) v (_beolink_listeners e) (_remote_leader e)
    (_queue_settings e) (_software_status e) (_beolink_attribute e)
    (_bluetooth_attribute e) (_attr_source_list e) (_attr_group_members e).

Definition set_beolink_listeners v (e : MediaPlayer) : MediaPlayer :=
  mkMediaPlayer (entry e) (_playback_metadata e) (_playback_progress e)
    (_playback_source e) (_playback_state e) (_source_change e) (_volume e)
    (_friendly_name e) (_state e) (_media_image e) (_last_update e)
    (_source_list e) (_source_list_friendly e) v (_remote_leader e)
    (_queue_settings e) (_software_status e) (_beolink_attribute e)
    (_bluetooth_attribute e) (_attr_source_list e) (_attr_group_members e).

Definition set_remote_leader v (e : MediaPlayer) : MediaPlayer :=
  mkMediaPlayer (entry e) (_playback_metadata e) (_playback_progress e)
    (_playback_source e) (_playback_state e) (_source_change e) (_volume e)
    (_friendly_name e) (_state e) (_media_image e) (_last_update e)
    (_source_list e) (_source_list_friendly e) (_beolink_listeners e) v
    (_queue_settings e) (_software_status e) (_beolink_attribute e)
    (_bluetooth_attribute e) (_attr_source_list e) (_attr_group_members e).

Definition set_queue_settings v (e : MediaPlayer) : MediaPlayer :=
  mkMediaPlayer (entry e) (_playback_metadata e) (_playback_progress e)
    (_playback_source e) (_playback_state e) (_source_change e) (_volume e)
    (_friendly_name e) (_state e) (_media_image e) (_last_update e)
    (_source_list e) (_source_list_friendly e) (_beolink_listeners e)
    (_remote_leader e) v (_software_status e) (_beolink_attribute e)
    (_bluetooth_attribute e) (_attr_source_list e) (_attr_group_members e).

Definition set_software_status v (e : MediaPlayer) : MediaPlayer :=
  mkMediaPlayer (entry e) (_playback_metadata e) (_playback_progress e)
    (_playback_source e) (_playback_state e) (_source_change e) (_volume e)
    (_friendly_name e) (_state e) (_media_image e) (_last_update e)
    (_source_list e) (_source_list_friendly e) (_beolink_listeners e)
    (_remote_leader e) (_queue_settings e) v (_beolink_attribute e)
    (_bluetooth_attribute e) (_attr_source_list e) (_attr_group_members e).

Definition set_beolink_attribute v (e : MediaPlayer) : MediaPlayer :=
  mkMediaPlayer (entry e) (_playback_metadata e) (_playback_progress e)
    (_playback_source e) (_playback_state e) (_source_change e) (_volume e)
    (_friendly_name e) (_state e) (_media_image e) (_last_update e)
    (_source_list e) (_source_list_friendly e) (_beolink_listeners e)
    (_remote_leader e) (_queue_settings e) (_software_status e) v
    (_bluetooth_attribute e) (_attr_source_list e) (_attr_group_members e).

Definition set_bluetooth_attribute v (e : MediaPlayer) : MediaPlayer :=
  mkMediaPlayer (entry e) (_playback_metadata e) (_playback_progress e)
    (_playback_source e) (_playback_state e) (_source_change e) (_volume e)
    (_friendly_name e) (_state e) (_media_image e) (_last_update e)
    (_source_list e) (_source_list_friendly e) (_beolink_listeners e)
    (_remote_leader e) (_queue_settings e) (_software_status e)
    (_beolink_attribute e) v (_attr_source_list e) (_attr_group_members e).

Definition set_attr_source_list v (e : MediaPlayer) : MediaPlayer :=
  mkMediaPlayer (entry e) (_playback_metadata e) (_playback_progress e)
    (_playback_source e) (_playback_state e) (_source_change e) (_volume e)
    (_friendly_name e) (_state e) (_media_image e) (_last_update e)
    (_source_list e) (_source_list_friendly e) (_beolink_listeners e)
    (_remote_leader e) (_queue_settings e) (_software_status e)
    (_beolink_attribute e) (_bluetooth_attribute e) v (_attr_group_members e).

Definition set_attr_group_members v (e : MediaPlayer) : MediaPlayer :=
  mkMediaPlayer (entry e) (_playback_metadata e) (_playback_progress e)
    (_playback_source e) (_playback_state e) (_source_change e) (_volume e)
    (_friendly_name e) (_state e) (_media_image e) (_last_update e)
    (_source_list e) (_source_list_friendly e) (_beolink_listeners e)
    (_remote_leader e) (_queue_settings e) (_software_status e)
    (_beolink_attribute e) (_bluetooth_attribute e) (_attr_source_list e) v.

Section Entity.
Context {F : PyFloat}.

Record PlayQueueItem : Type := mkPlayQueueItem {
  item_provider : string;
  item_start_now_from_position : pyval;
  item_type : string;
  item_uri : string
}.

(** Requests sent through the vendor client. *)
Inductive request : Type :=
| get_softwareupdate_status
| get_beolink_self
| get_available_sources (target_remote : bool)
| set_volume_settings (default maximum : Z)
| get_product_state
| get_settings_queue
| get_beolink_peers
| get_beolink_listeners
| get_bluetooth_remotes
| get_bluetooth_devices_status
| set_current_volume_level (level : Z)
| set_volume_mute (muted : bool)
| post_playback_command (command : string)
| seek_to_position (position_ms : Z)
| set_active_source (source_id : option string)
| post_uri_source (location : string)
| activate_preset (id : string)
| start_deezer_flow (user_id : pyval)
| add_to_queue (play_queue_item : PlayQueueItem).

Inductive log_level : Type := LogInfo | LogWarning | LogError.

(** What a method does to the outside: requests to the device, signals on
    the host's dispatcher, log records and calls into the host. *)
Inductive event : Type :=
| Request (r : request)
| DispatcherSend (signal : string) (args : list pyval)
| Logged (level : log_level) (message : string)
| StateWritten
| DeviceUpdated (device_id sw_version : string)
| Slept (seconds : Z)
| ListenerStarted.

(** The entity and what it has done so far (oldest event first). *)
Record world : Type := mkWorld {
  ent : MediaPlayer;
  trace : list event
}.

(** Methods: they read and assign [self], act on the outside and may raise.
    Assignments made before an exception stay. *)
Definition M (A : Type) : Type := world -> outcome A * world.

Definition ret {A} (a : A) : M A := fun w => (Ok a, w).

Definition bind {A B} (c : M A) (k : A -> M B) : M B :=
  fun w => match c w with
           | (Ok a, w') => k a w'
           | (Raise e, w') => (Raise e, w')
           end.

Definition raise {A} (e : exn) : M A := fun w => (Raise e, w).

Definition lift {A} (o : outcome A) : M A := fun w => (o, w).

Definition emit (ev : event) : M unit :=
  fun w => (Ok tt, mkWorld (ent w) (trace w ++ [ev])).

Definition self : M MediaPlayer := fun w => (Ok (ent w), w).

Definition assign (f : MediaPlayer -> MediaPlayer) : M unit :=
  fun w => (Ok tt, mkWorld (f (ent w)) (trace w)).

(** [try: body except <classes>: handler]. *)
Definition try_except {A} (body : M A) (catches : exn -> bool)
    (handler : exn -> M A) : M A :=
  fun w => match body w with
           | (Raise e, w') => if catches e then handler e w' else (Raise e, w')
           | r => r
           end.

Fixpoint for_each {A} (l : list A) (body : A -> M unit) : M unit :=
  match l with
  | [] => ret tt
  | a :: l' => bind (body a) (fun _ => for_each l' body)
  end.

Declare Scope method_scope.
Delimit Scope method_scope with method.
Notation "x <- c ;; k" := (bind c (fun x => k))
  (at level 61, c at next level, right associativity) : method_scope.
Notation "c ;; k" := (bind c (fun _ => k))
  (at level 61, right associativity) : method_scope.
Local Open Scope method_scope.

Definition log (level : log_level) (message : string) : M unit :=
  emit (Logged level message).

Definition async_dispatcher_send (signal : string) (args : list pyval) : M unit :=
  emit (DispatcherSend signal args).

Definition async_write_ha_state : M unit := emit StateWritten.

(** A request made with [async_req=True] whose result is never fetched. *)
Definition send_request (r : request) : M unit := emit (Request r).

(** The device behind the client: what [.get()] yields for each request. *)
Record Device : Type := mkDevice {
  softwareupdate_status : outcome SoftwareUpdateStatus;
  beolink_self : outcome BeolinkSelf;
  available_sources : outcome (list Source);
  product : outcome ProductState;
  settings_queue : outcome PlayQueueSettings;
  beolink_peers : outcome (list BeolinkPeer);
  beolink_listeners : outcome (list BeolinkListener);
  bluetooth_remotes : outcome (list PairedRemote);
  bluetooth_devices_status : outcome (list BluetoothDevice)
}.

(** A request followed by [.get()]. *)
Definition request_get {A} (r : request) (response : outcome A) : M A :=
  send_request r ;; lift response.

Record DeviceEntry : Type := mkDeviceEntry {
  device_id : string;
  device_sw_version : option string
}.

(** The host: registries, clock, media sources and the inherited
    [MediaPlayerEntity.async_toggle]. *)
Record Hass : Type := mkHass {
  device_registry_get : string -> option DeviceEntry;
  entity_registry_get_entity_id : string -> option string;
  utcnow : Z;
  is_media_source_id : string -> bool;
  async_resolve_media : string -> outcome string;
  async_process_play_media_url : string -> string;
  async_toggle : M unit
}.

Variable hass : Hass.
Variable client : Device.

Definition _get_entity_id_from_jid (jid : string) : M (option string) :=
  unique_id <- lift (serial_number_of_jid jid) ;;
  ret (entity_registry_get_entity_id hass unique_id).

(** The number the loop of [_update_artwork] appends for [image];
    [Ok None] when nothing is appended. *)
Definition image_resolution (first image : Art) : outcome (option Z) :=
  match art_key first with
  | Some _ =>
      match art_key image with
      | None => Raise AttributeError
      | Some key =>
          obind (getitem (split "x" key) 0)
                (fun width => match int_of_str width with
                              | Some n => Ok (Some n)
                              | None => Raise ValueError
                              end)
      end
  | None =>
      match art_size first with
      | Some _ =>
          match art_size image with
          | None => Raise KeyError
          | Some size => match ArtSizeEnum size with
                         | Some n => Ok (Some n)
                         | None => Raise KeyError
                         end
          end
      | None => Ok None
      end
  end.

Fixpoint collect_images (first : Art) (art : list Art) (images : list Z)
    : outcome (list Z) :=
  match art with
  | [] => Ok images
  | image :: rest =>
      obind (image_resolution first image)
            (fun r => collect_images first rest
                        (match r with
                         | Some n => images ++ [n]
                         | None => images
                         end))
  end.

(** [max(images)]. *)
Definition list_max (images : list Z) : outcome Z :=
  match images with
  | [] => Raise ValueError
  | n :: rest => Ok (fold_left Z.max rest n)
  end.

Definition _update_artwork : M unit :=
  e <- self ;;
  let metadata := _playback_metadata e in
  match metadata_art metadata with
  | Some ((first :: _) as art) =>
      images <- lift (collect_images first art []) ;;
      largest <- lift (list_max images) ;;
      i <- lift (index_of Z.eqb largest images) ;;
      image <- lift (getitem art i) ;;
      assign (set_media_image image)
  | _ => assign (set_media_image empty_Art)
  end.

(** The [source] property. *)
Definition source (e : MediaPlayer) : option string :=
  let title := metadata_title (_playback_metadata e) in
  if opt_str_eqb title (Some SourceEnum.lineIn) then Some SourceEnum.lineIn
  else if opt_str_eqb title (Some SourceEnum.bluetooth)
  then Some SourceEnum.bluetooth
  else if opt_str_in (source_id (_source_change e))
            [Some SourceEnum.bluetooth; Some SourceEnum.lineIn;
             Some SourceEnum.spdif]
  then Some SourceEnum.chromeCast
  else match metadata_art (_playback_metadata e) with
       | Some [] =>
           if opt_str_eqb (source_name (_playback_source e))
                (Some SourceEnum.bluetooth)
           then Some SourceEnum.bluetooth
           else source_name (_source_change e)
       | _ => source_name (_source_change e)
       end.

(** The [state] property: [StateEnum[self._state]]. *)
Definition state (e : MediaPlayer) : outcome MediaPlayerState :=
  match StateEnum (_state e) with
  | Some s => Ok s
  | None => Raise KeyError
  end.

Definition _update_playback_state (data : string) : M unit :=
  assign (set_playback_state data) ;;
  e <- self ;;
  assign (set_state (_playback_state e)) ;;
  async_write_ha_state.

Definition async_volume_up : M unit :=
  e <- self ;;
  let new_volume :=
    Z.min (volume_level (_volume e) + _volume_step (entry e))
          (_max_volume (entry e)) in
  send_request (set_current_volume_level new_volume).

Definition async_volume_down : M unit :=
  e <- self ;;
  let new_volume :=
    Z.max (volume_level (_volume e) - _volume_step (entry e)) 0 in
  send_request (set_current_volume_level new_volume).

Definition async_set_volume_level (volume : pyfloat) : M unit :=
  level <- lift (int_of_float (float_mul_int volume 100)) ;;
  send_request (set_current_volume_level level).

Definition async_mute_volume (mute : bool) : M unit :=
  send_request (set_volume_mute mute).

Definition async_media_pause : M unit :=
  send_request (post_playback_command "pause").

Definition async_media_play : M unit :=
  send_request (post_playback_command "play").

Definition async_media_stop : M unit :=
  send_request (post_playback_command "stop").

Definition async_media_next_track : M unit :=
  send_request (post_playback_command "skip").

Definition async_media_previous_track : M unit :=
  send_request (post_playback_command "prev").

Definition is_playing (s : MediaPlayerState) : bool :=
  match s with PLAYING => true | _ => false end.

Definition is_paused_or_idle (s : MediaPlayerState) : bool :=
  match s with PAUSED | IDLE => true | _ => false end.

Definition async_media_play_pause : M unit :=
  e <- self ;;
  s <- lift (state e) ;;
  if is_playing s then async_media_pause
  else
    s' <- lift (state e) ;;
    if is_paused_or_idle s' then async_media_play else ret tt.

Definition async_media_seek (position : pyfloat) : M unit :=
  e <- self ;;
  if opt_str_eqb (source e) (Some SourceEnum.deezer) then
    position_ms <- lift (int_of_float (float_mul_int position 1000)) ;;
    send_request (seek_to_position position_ms) ;;
    assign (set_last_update (utcnow hass)) ;;
    seconds <- lift (int_of_float position) ;;
    assign (set_playback_progress (mkPlaybackProgress (Some seconds) None)) ;;
    async_write_ha_state
  else
    log LogError "Seeking is currently only supported when using Deezer".

Definition async_select_source (source : string) : M unit :=
  e <- self ;;
  if opt_str_in (Some source) (_source_list_friendly e) then
    index <- lift (index_of opt_str_eqb (Some source) (_source_list_friendly e)) ;;
    id <- lift (getitem (_source_list e) index) ;;
    send_request (set_active_source id)
  else
    log LogError "Invalid source: %s. Valid sources are: %s".

(** [kwargs[ATTR_MEDIA_EXTRA]] and a lookup in it. *)
Definition media_extra (extra : option (list (string * pyval)))
    : outcome (list (string * pyval)) :=
  match extra with
  | Some d => Ok d
  | None => Raise KeyError
  end.

Fixpoint extra_get (k : string) (d : list (string * pyval)) : option pyval :=
  match d with
  | [] => None
  | (k', v) :: d' => if String.eqb k' k then Some v else extra_get k d'
  end.

(** [async_play_media]; [extra] is the keyword argument [extra] when given,
    the only keyword argument read. *)
Definition async_play_media (media_type media_id : string)
    (extra : option (list (string * pyval))) : M unit :=
  resolved <-
    (if is_media_source_id hass media_id then
       url <- lift (async_resolve_media hass media_id) ;;
       let media_id' := async_process_play_media_url hass url in
       ret (MediaType.URL,
            if endswith media_id' ".m3u" then replace media_id' ".m3u" ""
            else media_id')
     else ret (media_type, media_id)) ;;
  let media_type := fst resolved in
  let media_id := snd resolved in
  if negb (str_in media_type VALID_MEDIA_TYPES) then
    log LogError "%s is an invalid type. Valid values are: %s"
  else if String.eqb media_type MediaType.URL then
    send_request (post_uri_source media_id)
  else if String.eqb media_type BangOlufsenMediaType.FAVOURITE then
    send_request (activate_preset media_id)
  else if String.eqb media_type BangOlufsenMediaType.DEEZER then
    try_except
      (if String.eqb media_id "flow" then
         d <- lift (media_extra extra) ;;
         let deezer_id := match extra_get "id" d with
                          | Some v => v
                          | None => PNone
                          end in
         send_request (start_deezer_flow deezer_id)
       else if existsb (fun m => contains m media_id) ["playlist"; "album"] then
         d <- lift (media_extra extra) ;;
         let start_from := match extra_get "start_from" d with
                           | Some v => v
                           | None => PInt 0
                           end in
         send_request
           (add_to_queue (mkPlayQueueItem "deezer" start_from "playlist" media_id))
       else
         send_request
           (add_to_queue (mkPlayQueueItem "deezer" (PInt 0) "track" media_id)))
      (fun e => isinstance e ApiException)
      (fun _ => log LogError "<message of the error body>")
  else ret tt.

(** [getattr(self, "async_" + command)] applied to [args], for the methods the command
    tables name; any other name has no model and raises [AttributeError].
    The methods take what the parameter types produce, so an argument of
    another shape is a [TypeError]. *)
Definition call_async (command : string) (args : list pyval) : M unit :=
  if String.eqb command "set_volume_level" then
    match args with [PFloat volume] => async_set_volume_level volume
               | _ => raise TypeError end
  else if String.eqb command "media_seek" then
    match args with [PFloat position] => async_media_seek position
               | _ => raise TypeError end
  else if String.eqb command "mute_volume" then
    match args with [PBool mute] => async_mute_volume mute
               | _ => raise TypeError end
  else if String.eqb command "select_source" then
    match args with [PStr source] => async_select_source source
               | _ => raise TypeError end
  else
    match args with
    | [] =>
        if String.eqb command "volume_up" then async_volume_up
        else if String.eqb command "volume_down" then async_volume_down
        else if String.eqb command "media_play_pause" then async_media_play_pause
        else if String.eqb command "media_pause" then async_media_pause
        else if String.eqb command "media_play" then async_media_play
        else if String.eqb command "media_stop" then async_media_stop
        else if String.eqb command "media_next_track" then async_media_next_track
        else if String.eqb command "media_previous_track"
        then async_media_previous_track
        else if String.eqb command "toggle" then async_toggle hass
        else raise AttributeError
    | _ => if str_in_tuple command NONE_PARAMETERS then raise TypeError
           else raise AttributeError
    end.

(** Running the command with the parameter converted, or without one. *)
Definition run_command (command : string) (parameter_type parameter : pyval)
    : M unit :=
  if negb (is_none parameter) then
    argument <- lift (py_call parameter_type parameter) ;;
    call_async command [argument]
  else if is_none parameter_type then call_async command []
  else ret tt.

Definition async_beolink_listener_command (command : string)
    (parameter : pyval) : M unit :=
  for_each ACCEPTED_COMMANDS_LISTS
    (fun command_list =>
       if str_in_tuple command command_list then
         run_command command (last_item command_list) parameter
       else ret tt).

Definition invalid_parameter (e : exn) : bool :=
  isinstance e ValueError || isinstance e TypeError.

(** The loop of [async_beolink_leader_command]; [parameter] is rebound by
    the conversion and the two [return]s leave the loop. *)
Fixpoint leader_command_loop (lists : list (list pyval)) (command : string)
    (parameter : pyval) : M unit :=
  match lists with
  | [] => ret tt
  | command_list :: rest =>
      if str_in_tuple command command_list then
        let parameter_type := last_item command_list in
        let forward (parameter : pyval) : M unit :=
          e <- self ;;
          match _remote_leader e with
          | Some leader =>
              async_dispatcher_send
                (leader_jid leader ++ "_" ++ BEOLINK_LEADER_COMMAND)
                [PStr command; parameter]
          | None => run_command command parameter_type parameter
          end ;;
          leader_command_loop rest command parameter in
        if negb (is_none parameter_type) then
          match py_call parameter_type parameter with
          | Ok converted => forward converted
          | Raise e => if invalid_parameter e
                       then log LogError "Invalid parameter"
                       else raise e
          end
        else if negb (is_none parameter) then log LogError "Invalid parameter"
        else forward parameter
      else leader_command_loop rest command parameter
  end.

Definition async_beolink_leader_command (command : string)
    (parameter : pyval) : M unit :=
  leader_command_loop ACCEPTED_COMMANDS_LISTS command parameter.

Definition async_beolink_set_volume (volume_level : string) : M unit :=
  e <- self ;;
  match _remote_leader e with
  | Some leader =>
      async_dispatcher_send (leader_jid leader ++ "_" ++ BEOLINK_VOLUME)
        [PStr volume_level]
  | None =>
      volume <- lift (py_float (PStr volume_level)) ;;
      async_set_volume_level volume ;;
      e' <- self ;;
      for_each (_beolink_listeners e')
        (fun beolink_listener =>
           async_dispatcher_send
             (listener_jid beolink_listener ++ "_" ++ BEOLINK_LISTENER_COMMAND)
             [PStr "set_volume_level"; PStr volume_level])
  end.

Definition peers_dict (peers : list BeolinkPeer) : dict :=
  fold_left (fun d peer => dict_set (peer_friendly_name peer) (peer_jid peer) d)
            peers [].

(** The first peer with the listener's JID, as the inner loop finds it. *)
Fixpoint find_peer (jid : string) (peers : list BeolinkPeer) : option BeolinkPeer :=
  match peers with
  | [] => None
  | peer :: rest => if String.eqb (peer_jid peer) jid then Some peer
                    else find_peer jid rest
  end.

Fixpoint listeners_loop (listeners : list BeolinkListener)
    (peers : list BeolinkPeer) (group_members : list (option string))
    (beolink_listeners : dict) : M (list (option string) * dict) :=
  match listeners with
  | [] => ret (group_members, beolink_listeners)
  | beolink_listener :: rest =>
      id <- _get_entity_id_from_jid (listener_jid beolink_listener) ;;
      listeners_loop rest peers (group_members ++ [id])
        (match find_peer (listener_jid beolink_listener) peers with
         | Some peer => dict_set (peer_friendly_name peer)
                          (listener_jid beolink_listener) beolink_listeners
         | None => beolink_listeners
         end)
  end.

Definition _update_beolink : M unit :=
  e <- self ;;
  let attribute :=
    mkBeolinkAttribute (_friendly_name e, _beolink_jid (entry e)) None None None in
  assign (set_beolink_attribute (Some attribute)) ;;
  peers <- request_get get_beolink_peers (beolink_peers client) ;;
  let attribute :=
    match peers with
    | [] => attribute
    | _ => mkBeolinkAttribute (attr_self attribute) (Some (peers_dict peers))
             None None
    end in
  assign (set_beolink_attribute (Some attribute)) ;;
  assign (set_remote_leader (metadata_remote_leader (_playback_metadata e))) ;;
  e <- self ;;
  (if opt_str_in (source e)
        [Some SourceEnum.lineIn; Some SourceEnum.uriStreamer]
   then assign (set_remote_leader None) else ret tt) ;;
  e <- self ;;
  match _remote_leader e with
  | Some leader =>
      id <- _get_entity_id_from_jid (leader_jid leader) ;;
      assign (set_beolink_attribute
                (Some (mkBeolinkAttribute (attr_self attribute)
                         (attr_peers attribute)
                         (Some (leader_friendly_name leader, leader_jid leader))
                         None))) ;;
      assign (set_attr_group_members [id])
  | None =>
      listeners <- request_get get_beolink_listeners (beolink_listeners client) ;;
      assign (set_beolink_listeners listeners) ;;
      own <- _get_entity_id_from_jid (_beolink_jid (entry e)) ;;
      match listeners with
      | [] => assign (set_attr_group_members [own])
      | _ =>
          r <- listeners_loop listeners peers [own] [] ;;
          assign (set_beolink_attribute
                    (Some (mkBeolinkAttribute (attr_self attribute)
                             (attr_peers attribute) None (Some (snd r))))) ;;
          assign (set_attr_group_members (fst r))
      end
  end.

Definition remotes_dict (remotes : list PairedRemote) : dict :=
  fold_left (fun d remote => dict_set (remote_name remote) (remote_address remote) d)
            remotes [].

(** The device entry left by the loop over the Bluetooth devices: the last
    connected one. *)
Definition connected_device (devices : list BluetoothDevice)
    : option (string * string) :=
  fold_left (fun found device =>
               if bluetooth_connected device
               then Some (bluetooth_name device, bluetooth_address device)
               else found)
            devices None.

Definition _update_bluetooth : M unit :=
  assign (set_bluetooth_attribute (Some (mkBluetoothAttribute None None))) ;;
  remotes <- request_get get_bluetooth_remotes (bluetooth_remotes client) ;;
  let remote := match remotes with
                | [] => None
                | _ => Some (remotes_dict remotes)
                end in
  assign (set_bluetooth_attribute (Some (mkBluetoothAttribute remote None))) ;;
  devices <- request_get get_bluetooth_devices_status
               (bluetooth_devices_status client) ;;
  let device := connected_device devices in
  assign (set_bluetooth_attribute (Some (mkBluetoothAttribute remote device))) ;;
  match remote, device with
  | None, None => assign (set_bluetooth_attribute None)
  | _, _ => ret tt
  end.


Definition is_value_error (e : exn) : bool := isinstance e ValueError.

(** The sources kept by [bangolufsen_init]: enabled and not hidden. *)
Definition relevant_source (source : Source) : bool :=
  match source_is_enabled source with
  | Some true => negb (opt_str_in (source_id source) HIDDEN_SOURCE_IDS)
  | _ => false
  end.

Definition bangolufsen_init : M bool :=
  status <- request_get get_softwareupdate_status (softwareupdate_status client) ;;
  assign (set_software_status status) ;;
  e <- self ;;
  match device_registry_get hass (_unique_id (entry e)) with
  | Some device =>
      if opt_str_eqb (Some (software_version status)) (device_sw_version device)
      then ret tt
      else emit (DeviceUpdated (device_id device) (software_version status))
  | None => ret tt
  end ;;
  log LogInfo "Connected to: %s %s running SW %s" ;;
  me <- request_get get_beolink_self (beolink_self client) ;;
  assign (set_friendly_name (self_friendly_name me)) ;;
  sources <-
    try_except
      (request_get (get_available_sources false) (available_sources client))
      is_value_error
      (fun _ =>
         log LogWarning
           "The API is outdated compared to the device software version. Using fallback sources" ;;
         ret FALLBACK_SOURCES) ;;
  for_each sources
    (fun source =>
       if relevant_source source then
         assign (fun e => set_source_list (_source_list e ++ [source_id source]) e) ;;
         assign (fun e => set_source_list_friendly
                            (_source_list_friendly e ++ [source_name source]) e)
       else ret tt) ;;
  send_request (set_volume_settings (_default_volume (entry e))
                  (_max_volume (entry e))) ;;
  product_state <- request_get get_product_state (product client) ;;
  assign (set_volume (product_volume product_state)) ;;
  match product_metadata product_state with
  | Some metadata => assign (set_playback_metadata metadata)
  | None => ret tt
  end ;;
  assign (set_playback_progress (product_progress product_state)) ;;
  assign (set_source_change (product_source product_state)) ;;
  assign (set_playback_state (Models.product_state product_state)) ;;
  assign (set_last_update (utcnow hass)) ;;
  _update_artwork ;;
  queue_settings <- request_get get_settings_queue (settings_queue client) ;;
  assign (set_queue_settings queue_settings) ;;
  _update_beolink ;;
  _update_bluetooth ;;
  assign (fun e => set_attr_source_list (_source_list_friendly e) e) ;;
  emit (Slept 1) ;;
  emit ListenerStarted ;;
  ret true.

End Entity.
End MediaPlayer.

(** ** config_flow.py *)

Module ConfigFlow.
Import Const.

(** [VolumeSettings]: the levels may be missing at either depth. *)
Record VolumeSettings : Type := mkVolumeSettings {
  settings_default : option (option Z);
  settings_maximum : option (option Z)
}.

(** [x.level if x and x.level else fallback]. *)
Definition level_or (x : option (option Z)) (fallback : Z) : Z :=
  match x with
  | Some (Some level) => if level =? 0 then fallback else level
  | _ => fallback
  end.

(** The [UserInput] typed dict; every key may be absent. *)
Record UserInput : Type := mkUserInput {
  input_default_volume : option Z;
  input_host : option string;
  input_jid : option string;
  input_max_volume : option Z;
  input_model : option string;
  input_name : option string
}.

Definition empty_UserInput : UserInput :=
  mkUserInput None None None None None None.

Inductive Form : Type :=
| UserForm (default_model : string) (options : list string)
| ConfirmForm (host model serial_number : string)
| OptionsForm (default_volume max_volume : Z).

Inductive FlowResult : Type :=
| Abort (reason : string)
| ShowForm (step_id : string) (form : Form)
| CreateEntry (title : string) (data : UserInput).

(** The attributes of the flow handler, with the unique id and the
    placeholder the host keeps for it. *)
Record FlowHandler : Type := mkFlowHandler {
  _beolink_jid : string;
  _client : option string;
  _host : string;
  _model : string;
  _name : string;
  _serial_number : string;
  unique_id : option string;
  title_placeholder : option string;
  confirm_only : bool
}.

(** The class attributes a new handler starts from. *)
Definition new_FlowHandler : FlowHandler :=
  mkFlowHandler "" None "" "" "" "" None None false.

Inductive flow_event : Type :=
| get_beolink_self (request_timeout : option Z)
| get_volume_settings (request_timeout : option Z)
| entry_updated (unique_id host : string).

Record Flow : Type := mkFlow {
  handler : FlowHandler;
  events : list flow_event
}.

Definition with_handler (f : FlowHandler -> FlowHandler) (fl : Flow) : Flow :=
  mkFlow (f (handler fl)) (events fl).

Definition with_event (ev : flow_event) (fl : Flow) : Flow :=
  mkFlow (handler fl) (events fl ++ [ev]).

Definition set_beolink_jid v (h : FlowHandler) : FlowHandler :=
  mkFlowHandler v (_client h) (_host h) (_model h) (_name h) (_serial_number h)
    (unique_id h) (title_placeholder h) (confirm_only h).
Definition set_client v (h : FlowHandler) : FlowHandler :=
  mkFlowHandler (_beolink_jid h) v (_host h) (_model h) (_name h)
    (_serial_number h) (unique_id h) (title_placeholder h) (confirm_only h).
Definition set_host v (h : FlowHandler) : FlowHandler :=
  mkFlowHandler (_beolink_jid h) (_client h) v (_model h) (_name h)
    (_serial_number h) (unique_id h) (title_placeholder h) (confirm_only h).
Definition set_model v (h : FlowHandler) : FlowHandler :=
  mkFlowHandler (_beolink_jid h) (_client h) (_host h) v (_name h)
    (_serial_number h) (unique_id h) (title_placeholder h) (confirm_only h).
Definition set_name v (h : FlowHandler) : FlowHandler :=
  mkFlowHandler (_beolink_jid h) (_client h) (_host h) (_model h) v
    (_serial_number h) (unique_id h) (title_placeholder h) (confirm_only h).
Definition set_serial_number v (h : FlowHandler) : FlowHandler :=
  mkFlowHandler (_beolink_jid h) (_client h) (_host h) (_model h) (_name h) v
    (unique_id h) (title_placeholder h) (confirm_only h).
Definition set_unique_id v (h : FlowHandler) : FlowHandler :=
  mkFlowHandler (_beolink_jid h) (_client h) (_host h) (_model h) (_name h)
    (_serial_number h) v (title_placeholder h) (confirm_only h).
Definition set_title_placeholder v (h : FlowHandler) : FlowHandler :=
  mkFlowHandler (_beolink_jid h) (_client h) (_host h) (_model h) (_name h)
    (_serial_number h) (unique_id h) v (confirm_only h).
Definition set_confirm_only v (h : FlowHandler) : FlowHandler :=
  mkFlowHandler (_beolink_jid h) (_client h) (_host h) (_model h) (_name h)
    (_serial_number h) (unique_id h) (title_placeholder h) v.

(** The classes of the [except] clause of both steps. *)
Definition caught (error : exn) : bool :=
  isinstance error ApiException || isinstance error ClientConnectorError
  || isinstance error TimeoutError.

(** The dict of reasons indexed with [type(error)]. *)
Definition reason_of (error : exn) : outcome string :=
  match error with
  | ApiException => Ok "api_exception"
  | ClientConnectorError => Ok "client_connector_error"
  | TimeoutError => Ok "timeout_error"
  | _ => Raise KeyError
  end.

(** [d[key]] of a dict of strings. *)
Fixpoint lookup (key : string) (d : dict) : outcome string :=
  match d with
  | [] => Raise KeyError
  | (k, v) :: d' => if String.eqb k key then Ok v else lookup key d'
  end.

Definition has_key (key : string) (d : dict) : bool :=
  existsb (fun kv => String.eqb (fst kv) key) d.

Record ZeroconfServiceInfo : Type := mkZeroconfServiceInfo {
  discovery_host : string;
  discovery_hostname : string;
  discovery_properties : dict
}.

Section Steps.

(** The surroundings of a flow: the address check of the standard library,
    the unique ids already configured, and what the device answers. *)
Variable valid_ip_address : string -> bool.
Variable configured : list string.
Variable beolink_self_response : outcome BeolinkSelf.
Variable volume_settings_response : outcome VolumeSettings.

Definition _compile_data (fl : Flow) : outcome UserInput * Flow :=
  let fl := with_event (get_volume_settings None) fl in
  match volume_settings_response with
  | Raise e => (Raise e, fl)
  | Ok volume_settings =>
      let h := handler fl in
      (Ok (mkUserInput
             (Some (level_or (settings_default volume_settings)
                      DEFAULT_DEFAULT_VOLUME))
             (Some (_host h))
             (Some (_beolink_jid h))
             (Some (level_or (settings_maximum volume_settings)
                      DEFAULT_MAX_VOLUME))
             (Some (_model h))
             None),
       fl)
  end.

Definition async_step_confirm (user_input : option UserInput) (fl : Flow)
    : outcome FlowResult * Flow :=
  match user_input with
  | Some _ =>
      match _compile_data fl with
      | (Ok data, fl) => (Ok (CreateEntry (_name (handler fl)) data), fl)
      | (Raise e, fl) => (Raise e, fl)
      end
  | None =>
      let fl := with_handler
                  (fun h => set_name (_model h ++ "-" ++ _serial_number h) h) fl in
      let fl := with_handler
                  (fun h => set_unique_id (Some (_serial_number h)) h) fl in
      if str_in (_serial_number (handler fl)) configured
      then (Ok (Abort "already_configured"), fl)
      else
        let fl := with_handler (set_confirm_only true) fl in
        let h := handler fl in
        (Ok (ShowForm "confirm"
               (ConfirmForm (_host h) (_model h) (_serial_number h))), fl)
  end.

Definition async_step_user (user_input : option UserInput) (fl : Flow)
    : outcome FlowResult * Flow :=
  match user_input with
  | Some input =>
      match input_host input with
      | None => (Raise KeyError, fl)
      | Some host =>
          let fl := with_handler (set_host host) fl in
          match input_model input with
          | None => (Raise KeyError, fl)
          | Some model =>
              let fl := with_handler (set_model model) fl in
              if negb (valid_ip_address host)
              then (Ok (Abort "value_error"), fl)
              else
                let fl := with_handler (set_client (Some host)) fl in
                let fl := with_event (get_beolink_self (Some 3)) fl in
                match beolink_self_response with
                | Raise error =>
                    if caught error
                    then match reason_of error with
                         | Ok reason => (Ok (Abort reason), fl)
                         | Raise e => (Raise e, fl)
                         end
                    else (Raise error, fl)
                | Ok me =>
                    let fl := with_handler (set_beolink_jid (self_jid me)) fl in
                    match serial_number_of_jid (self_jid me) with
                    | Raise e => (Raise e, fl)
                    | Ok serial =>
                        let fl := with_handler (set_serial_number serial) fl in
                        let fl := with_handler (set_unique_id (Some serial)) fl in
                        if str_in serial configured
                        then (Ok (Abort "already_configured"), fl)
                        else async_step_confirm None fl
                    end
                end
          end
      end
  | None => (Ok (ShowForm "user" (UserForm DEFAULT_MODEL COMPATIBLE_MODELS)), fl)
  end.

Definition async_step_zeroconf (discovery_info : ZeroconfServiceInfo)
    (fl : Flow) : outcome FlowResult * Flow :=
  let properties := discovery_properties discovery_info in
  if negb (has_key ATTR_FRIENDLY_NAME properties)
  then (Ok (Abort "not_mozart_device"), fl)
  else
    let fl := with_handler (set_host (discovery_host discovery_info)) fl in
    let fl := with_handler
                (set_model
                   (replace (drop_last 16 (discovery_hostname discovery_info))
                      "-" " ")) fl in
    match lookup ATTR_SERIAL_NUMBER properties with
    | Raise e => (Raise e, fl)
    | Ok serial =>
        let fl := with_handler (set_serial_number serial) fl in
        match lookup ATTR_TYPE_NUMBER properties with
        | Raise e => (Raise e, fl)
        | Ok type_number =>
            match lookup ATTR_ITEM_NUMBER properties with
            | Raise e => (Raise e, fl)
            | Ok item_number =>
                let fl := with_handler
                            (fun h => set_beolink_jid
                                        (beolink_jid_of type_number item_number
                                           (_serial_number h)) h) fl in
                match lookup ATTR_FRIENDLY_NAME properties with
                | Raise e => (Raise e, fl)
                | Ok friendly_name =>
                    let fl := with_handler
                                (set_title_placeholder (Some friendly_name)) fl in
                    let fl := with_handler (set_unique_id (Some serial)) fl in
                    if str_in serial configured
                    then (Ok (Abort "already_configured"),
                          with_event (entry_updated serial
                                        (_host (handler fl))) fl)
                    else
                      let fl := with_handler
                                  (fun h => set_client (Some (_host h)) h) fl in
                      async_step_confirm None fl
                end
            end
        end
    end.

(** The options flow handler holds the config entry it was opened for. *)
Record ConfigEntry : Type := mkConfigEntry {
  entry_title : string;
  entry_host : string;
  entry_model : string;
  entry_jid : string
}.

(** [BangOlufsenOptionsFlowHandler.async_step_init]; the handler is never
    assigned, so the step returns its result and the requests it made. *)
Definition async_step_init (config_entry : ConfigEntry)
    (user_input : option UserInput)
    : outcome FlowResult * list flow_event :=
  match user_input with
  | Some data =>
      (Ok (CreateEntry (entry_title config_entry)
             (mkUserInput (input_default_volume data)
                (Some (entry_host config_entry))
                (Some (entry_jid config_entry))
                (input_max_volume data)
                (Some (entry_model config_entry))
                (input_name data))), [])
  | None =>
      let made := [get_volume_settings (Some 3)] in
      match volume_settings_response with
      | Raise error =>
          if caught error
          then match reason_of error with
               | Ok reason => (Ok (Abort reason), made)
               | Raise e => (Raise e, made)
               end
          else (Raise error, made)
      | Ok volume_settings =>
          (Ok (ShowForm "init"
                 (OptionsForm
                    (level_or (settings_default volume_settings)
                       DEFAULT_DEFAULT_VOLUME)
                    (level_or (settings_maximum volume_settings)
                       DEFAULT_MAX_VOLUME))), made)
      end
  end.

End Steps.
End ConfigFlow.

(** ** event.py *)

Module EventPlatform.
Import Const.

(** Modelled from the spec: [BangOlufsenModelSupport.PROXIMITY_SENSOR.value]
    of the [bang_olufsen] package's constants, which are not among the
    sources; the proximity-supporting models are BeoLab 28, Beosound 2 3rd
    Gen, Beosound Balance, Beosound Level and Beosound Theatre, the tuple
    [SupportEnum.PROXIMITY_SENSOR] of const.py. *)
Definition BangOlufsenModelSupport_PROXIMITY_SENSOR : list string :=
  PROXIMITY_SENSOR.

Inductive EventEntity : Type :=
| BangOlufsenButtonEvent (button_type : string)
| BangOlufsenEventProximity
| BangOlufsenRemoteKeyEvent (remote_serial_number key_type : string).

Definition is_proximity (entity : EventEntity) : bool :=
  match entity with BangOlufsenEventProximity => true | _ => false end.

(** What setup does besides building entities. *)
Inductive setup_event : Type :=
| get_bluetooth_remotes
| device_get_or_create (serial_number : string) (via_device : string)
| async_add_entities (new_entities : list EventEntity)
| set_platform_initialized.

Section Setup.

(** The key tables of the package's constants, not among the sources. *)
Variable DEVICE_BUTTONS : list string.
Variable BEO_REMOTE_KEYS : list string.
Variable BEO_REMOTE_LIGHT_KEYS : list string.
Variable BEO_REMOTE_CONTROL_KEYS : list string.
Variable BEO_REMOTE_SUBMENU_LIGHT : string.
Variable BEO_REMOTE_SUBMENU_CONTROL : string.

(** [assert x] for an optional string: [None] and the empty string fail. *)
Definition assert_str (x : option string) : outcome string :=
  match x with
  | Some s => if String.eqb s "" then Raise AssertionError else Ok s
  | None => Raise AssertionError
  end.

(** [async_setup_entry] of the event platform: the model and unique id of
    the config entry and the device's answer to [get_bluetooth_remotes]. *)
Definition async_setup_entry (model : string) (unique_id : option string)
    (bluetooth_remote_list : outcome (list PairedRemote))
    : outcome unit * list setup_event :=
  let entities := map BangOlufsenButtonEvent DEVICE_BUTTONS in
  let entities :=
    if str_in model BangOlufsenModelSupport_PROXIMITY_SENSOR
    then (entities ++ [BangOlufsenEventProximity])%list
    else entities in
  match bluetooth_remote_list with
  | Raise e => (Raise e, [get_bluetooth_remotes])
  | Ok [] =>
      (Ok tt, [get_bluetooth_remotes; async_add_entities entities;
               set_platform_initialized])
  | Ok (remote :: _) =>
      match assert_str (remote_serial_number remote) with
      | Raise e => (Raise e, [get_bluetooth_remotes])
      | Ok serial =>
          match assert_str unique_id with
          | Raise e => (Raise e, [get_bluetooth_remotes])
          | Ok uid =>
              let light :=
                map (fun key_type =>
                       BangOlufsenRemoteKeyEvent serial
                         (BEO_REMOTE_SUBMENU_LIGHT ++ "/" ++ key_type))
                    (BEO_REMOTE_KEYS ++ BEO_REMOTE_LIGHT_KEYS)%list in
              let control :=
                map (fun key_type =>
                       BangOlufsenRemoteKeyEvent serial
                         (BEO_REMOTE_SUBMENU_CONTROL ++ "/" ++ key_type))
                    (BEO_REMOTE_KEYS ++ BEO_REMOTE_CONTROL_KEYS)%list in
              (Ok tt, [get_bluetooth_remotes; device_get_or_create serial uid;
                       async_add_entities (entities ++ light ++ control)%list;
                       set_platform_initialized])
          end
      end
  end.

(** The entities handed to the host by a run of setup. *)
Definition added_entities (run : outcome unit * list setup_event)
    : list EventEntity :=
  flat_map (fun ev => match ev with
                      | async_add_entities l => l
                      | _ => []
                      end) (snd run).

End Setup.
End EventPlatform.

(** ** text.py *)

Module TextPlatform.

(** The friendly-name text entity: its value. *)
Record Text : Type := mkText {
  _attr_native_value : option string
}.

Inductive text_event : Type :=
| get_beolink_self
| set_product_friendly_name (friendly_name : string)
| state_written.

(** [BangOlufsenTextFriendlyName.async_set_value]. *)
Definition async_set_value (value : string) (t : Text)
    : Text * list text_event :=
  (mkText (Some value), [set_product_friendly_name value]).


End TextPlatform.

(** ** A float model to run the embedding on examples

    Exact decimal arithmetic on rationals: it reads plain decimal literals
    (no exponent, infinity or NaN), on which [int(x * k)] is exact. *)

Module DecimalFloat.

Fixpoint count_digits (s : string) : nat :=
  match s with
  | EmptyString => O
  | String c s' => ((if is_digit c then 1 else 0) + count_digits s')%nat
  end.

Definition unsigned_decimal (s : string) : option Q :=
  match split "." s with
  | [whole] => option_map inject_Z (digits_value 0 false whole)
  | [whole; fraction] =>
      let part (t : string) : option Z :=
        match t with
        | EmptyString => Some 0
        | _ => digits_value 0 false t
        end in
      match whole, fraction with
      | EmptyString, EmptyString => None
      | _, _ =>
          match part whole, part fraction with
          | Some a, Some b =>
              let scale := Pos.pow 10 (Pos.of_nat (count_digits fraction)) in
              Some (Qred (match fraction with
                          | EmptyString => inject_Z a
                          | _ => Qmake (a * Zpos scale + b) scale
                          end))
          | _, _ => None
          end
      end
  | _ => None
  end.

Definition of_str (s : string) : option Q :=
  match lstrip (rstrip s) with
  | String "-" r => option_map Qopp (unsigned_decimal r)
  | String "+" r => unsigned_decimal r
  | r => unsigned_decimal r
  end.

(** Decimal digits of [n / d] after the point, at most [fuel] of them. *)
Fixpoint fraction_digits (fuel : nat) (n d : Z) : string :=
  match fuel with
  | O => ""
  | S fuel' =>
      if n =? 0 then ""
      else String (ascii_of_nat (48 + Z.to_nat (10 * n / d)))
             (fraction_digits fuel' ((10 * n) mod d) d)
  end.

Definition repr (q : Q) : string :=
  let n := Z.abs (Qnum q) in
  let d := Zpos (Qden q) in
  let fraction := fraction_digits 17 (n mod d) d in
  (if Qnum q <? 0 then "-" else "")
  ++ str_of_Z (n / d) ++ "."
  ++ (match fraction with EmptyString => "0" | _ => fraction end).

#[export] Instance decimal_float : PyFloat := {
  pyfloat := Q;
  float_of_str := of_str;
  float_of_int := fun z => Ok (inject_Z z);
  float_truth := fun q => negb (Qnum q =? 0);
  float_repr := repr;
  float_mul_int := fun q k => Qred (q * inject_Z k);
  int_of_float := fun q => Ok (Z.quot (Qnum q) (Zpos (Qden q)))
}.

End DecimalFloat.

(** ** Vocabulary of the properties *)

Module Spec.
Import Const MediaPlayer.

(** [c in s] for a character. *)
Fixpoint has_char (c : ascii) (s : string) : bool :=
  match s with
  | EmptyString => false
  | String c' s' => Ascii.eqb c' c || has_char c s'
  end.

(** The eight values of a playback-state notification and the host state
    each stands for. *)
Definition playback_states : list (string * MediaPlayerState) :=
  [("started", PLAYING); ("buffering", PLAYING); ("paused", PAUSED);
   ("stopped", PAUSED); ("ended", PAUSED); ("idle", IDLE);
   ("unknown", IDLE); ("error", IDLE)].

Section WithFloat.
Context {F : PyFloat}.

(** Is the command one of [ACCEPTED_COMMANDS]? *)
Definition accepted_command (command : string) : bool :=
  str_in_tuple command ACCEPTED_COMMANDS.

(** The parameter type the tables declare for a command. *)
Definition parameter_type_of (command : string) : option pyval :=
  option_map last_item (find (str_in_tuple command) ACCEPTED_COMMANDS_LISTS).

(** A well-formed call: a parameter that converts to the declared type when
    the command takes one, and no parameter when it takes none.  The result
    is the converted parameter. *)
Definition conversion (command : string) (parameter : pyval) : option pyval :=
  match parameter_type_of command with
  | None => None
  | Some PNone => if is_none parameter then Some PNone else None
  | Some parameter_type =>
      match py_call parameter_type parameter with
      | Ok value => Some value
      | Raise _ => None
      end
  end.

(** The media-player method that answers to each command. *)
Inductive local_method (hass : Hass) : string -> pyval -> M unit -> Prop :=
| local_set_volume_level volume :
    local_method hass "set_volume_level" (PFloat volume)
      (async_set_volume_level volume)
| local_media_seek position :
    local_method hass "media_seek" (PFloat position)
      (async_media_seek hass position)
| local_mute_volume mute :
    local_method hass "mute_volume" (PBool mute) (async_mute_volume mute)
| local_select_source source :
    local_method hass "select_source" (PStr source) (async_select_source source)
| local_volume_up : local_method hass "volume_up" PNone async_volume_up
| local_volume_down : local_method hass "volume_down" PNone async_volume_down
| local_media_play_pause :
    local_method hass "media_play_pause" PNone async_media_play_pause
| local_media_pause : local_method hass "media_pause" PNone async_media_pause
| local_media_play : local_method hass "media_play" PNone async_media_play
| local_media_stop : local_method hass "media_stop" PNone async_media_stop
| local_media_next_track :
    local_method hass "media_next_track" PNone async_media_next_track
| local_media_previous_track :
    local_method hass "media_previous_track" PNone async_media_previous_track
| local_toggle : local_method hass "toggle" PNone (async_toggle hass).

Definition is_request (ev : event) : bool :=
  match ev with Request _ => true | _ => false end.


Definition is_sources_request (ev : event) : bool :=
  match ev with Request (get_available_sources _) => true | _ => false end.


Definition count (p : event -> bool) (events : list event) : nat :=
  List.length (filter p events).

(** The channel a listener receives leader commands on. *)
Definition listener_channel (jid : string) : string :=
  jid ++ "_" ++ BEOLINK_LISTENER_COMMAND.


(** The resolution the artwork is ranked by: the width of a [WxH] key ... *)
Definition key_width (image : Art) (n : Z) : Prop :=
  exists width height,
    art_key image = Some (width ++ "x" ++ height)
    /\ has_char "x" width = false /\ int_of_str width = Some n.

(** ... or the rank of the size name. *)
Definition size_rank (image : Art) (n : Z) : Prop :=
  exists size, art_size image = Some size /\ ArtSizeEnum size = Some n.

(** The art list as the loop takes it: keys throughout, or no key on the
    first entry and sizes throughout; [rank] is the resolution in use. *)
Inductive uniform : list Art -> (Art -> Z -> Prop) -> Prop :=
| uniform_keys art :
    Forall (fun image => exists n, key_width image n) art ->
    uniform art key_width
| uniform_sizes first rest :
    art_key first = None ->
    Forall (fun image => exists n, size_rank image n) (first :: rest) ->
    uniform (first :: rest) size_rank.

(** An entry that carries either kind of resolution. *)
Definition has_resolution (image : Art) : Prop :=
  (exists n, key_width image n) \/ (exists n, size_rank image n).

(** The reading of "the stored image is an element of the art list" for
    every non-empty list of entries with a resolution. *)
Definition stores_listed_image (w : world) : Prop :=
  forall art,
    metadata_art (_playback_metadata (ent w)) = Some art ->
    art <> [] -> Forall has_resolution art ->
    In (_media_image (ent (snd (_update_artwork w)))) art.

(** The commands of the tables, one by one, with what a well-formed call
    converts the parameter to. *)
Inductive call_shape : string -> pyval -> pyval -> pyval -> Prop :=
| shape_float command parameter f :
    In command ["set_volume_level"; "media_seek"] ->
    py_float parameter = Ok f ->
    call_shape command (PType TFloat) parameter (PFloat f)
| shape_bool parameter :
    call_shape "mute_volume" (PType TBool) parameter (PBool (py_bool parameter))
| shape_str parameter :
    call_shape "select_source" (PType TStr) parameter (PStr (py_str parameter))
| shape_none command :
    In command ["volume_up"; "volume_down"; "media_play_pause"; "media_pause";
                "media_play"; "media_stop"; "media_next_track";
                "media_previous_track"; "toggle"] ->
    call_shape command PNone PNone PNone.

(** What holds of the outcome and the world a method ends in. *)
Definition post {A} (c : M A) (w : world)
    (Q : outcome A -> world -> Prop) : Prop :=
  Q (fst (c w)) (snd (c w)).

(** A later world with the same source lists and as many sources requests
    as an earlier one; the trace has only grown. *)
Definition same_sources (w w' : world) : Prop :=
  _source_list (ent w') = _source_list (ent w)
  /\ _source_list_friendly (ent w') = _source_list_friendly (ent w)
  /\ count is_sources_request (trace w') = count is_sources_request (trace w)
  /\ exists more, trace w' = (trace w ++ more)%list.

(** What the loop over the sources does to the entity for one source. *)
Definition store_source (e : MediaPlayer) (source : Source) : MediaPlayer :=
  if relevant_source source
  then set_source_list_friendly
         (_source_list_friendly e ++ [source_name source])
         (set_source_list (_source_list e ++ [source_id source]) e)
  else e.

Definition fallback_warning : string :=
  "The API is outdated compared to the device software version. Using fallback sources".

(** A method that neither assigns the source lists nor requests the
    sources. *)
Definition keeps_sources {A} (c : M A) : Prop :=
  forall w, same_sources w (snd (c w)).


(** The exception a response carries. *)
Definition failure {A} (response : outcome A) : option exn :=
  match response with
  | Ok _ => None
  | Raise error => Some error
  end.

(** The exception the device fails a request of the entity with; [None]
    when it answers, and for the requests whose answer is never fetched. *)
Definition failed (client : Device) (r : request) : option exn :=
  match r with
  | get_softwareupdate_status => failure (softwareupdate_status client)
  | get_beolink_self => failure (beolink_self client)
  | get_available_sources _ => failure (available_sources client)
  | get_product_state => failure (product client)
  | get_settings_queue => failure (settings_queue client)
  | get_beolink_peers => failure (beolink_peers client)
  | get_beolink_listeners => failure (beolink_listeners client)
  | get_bluetooth_remotes => failure (bluetooth_remotes client)
  | get_bluetooth_devices_status => failure (bluetooth_devices_status client)
  | _ => None
  end.

(** The one failure that is recovered from: [ValueError] from the sources
    request. *)
Definition recovered (r : request) (error : exn) : bool :=
  match r with
  | get_available_sources _ => isinstance error ValueError
  | _ => false
  end.

(** An event that is no failed request, the recovered one apart. *)
Definition fine (client : Device) (ev : event) : Prop :=
  forall r error,
    ev = Request r -> failed client r = Some error -> recovered r error = true.

(** A run that adds no failed request to the trace, or ends with a failed
    request whose error it raises. *)
Definition surfaced (client : Device) {A} (w : world)
    (run : outcome A * world) : Prop :=
  exists more,
    trace (snd run) = (trace w ++ more)%list
    /\ (Forall (fine client) more
        \/ exists before r error,
             more = (before ++ [Request r])%list
             /\ Forall (fine client) before
             /\ failed client r = Some error
             /\ fst run = Raise error).

Definition surfaces (client : Device) {A} (c : M A) : Prop :=
  forall w, surfaced client w (c w).


(** The reading of "an invalid media type is logged and nothing is played". *)
Definition invalid_type_plays_nothing (hass : Hass) (media_type media_id : string)
    (extra : option (list (string * pyval))) (w : world) : Prop :=
  str_in media_type VALID_MEDIA_TYPES = false ->
  count is_request (trace (snd (async_play_media hass media_type media_id extra w)))
  = count is_request (trace w).

End WithFloat.

(** Setup of the event platform runs to its end: the remotes request is
    answered and, when a remote is paired, the first one has a serial
    number and the config entry a unique id. *)
Definition setup_completes (unique_id : option string)
    (bluetooth_remote_list : outcome (list PairedRemote)) : bool :=
  let given (x : option string) :=
    match x with
    | Some s => negb (String.eqb s "")
    | None => false
    end in
  match bluetooth_remote_list with
  | Raise _ => false
  | Ok [] => true
  | Ok (remote :: _) => given (remote_serial_number remote) && given unique_id
  end.

Definition proximity_entities (entities : list EventPlatform.EventEntity) : nat :=
  List.length (filter EventPlatform.is_proximity entities).

(** The abort reasons of the two steps and the class each answers to. *)
Definition reasons : list (string * exn) :=
  [("api_exception", ApiException);
   ("client_connector_error", ClientConnectorError);
   ("timeout_error", TimeoutError)].

End Spec.
Import Spec Const MediaPlayer.

(** ** Sample data the properties are run on *)

Module Demo.
Import Const MediaPlayer DecimalFloat.

Definition jid := "1111.2222222.33333333@products.bang-olufsen.com".
Definition leader := mkBeolinkLeader "Kitchen" "1111.2222222.44444444@products.bang-olufsen.com".

Definition data : EntryData :=
  mkEntryData "192.168.0.2" "Beosound Balance-33333333" "33333333" jid 70 5 40
    "Beosound Balance".

(** A player that leads (no remote leader) and one that listens. *)
Definition player : MediaPlayer := init_MediaPlayer data.
Definition listening : MediaPlayer := set_remote_leader (Some leader) player.

(** Art with a key next to art with a size. *)
Definition mixed_art : list Art :=
  [mkArt None (Some "640x640") None None (Some "http://192.168.0.2/a.jpg");
   mkArt None None None (Some "large") (Some "http://192.168.0.2/b.jpg")].

Definition with_art (art : list Art) : MediaPlayer :=
  set_playback_metadata (mkPlaybackContentMetadata None (Some art) None) player.


(** The player before it has done anything. *)
Definition fresh (e : MediaPlayer) : world := mkWorld e [].

(** A host whose media-source test is the scheme prefix, which resolves
    every media source to one URL, and whose inherited toggle is not
    implemented. *)
Definition hass : Hass :=
  mkHass (fun _ => None) (fun unique_id => Some ("media_player." ++ unique_id))
    1000 (String.prefix "media-source://")
    (fun _ => Ok "http://192.168.0.1:8123/media/local/chime.mp3")
    (fun url => url) (raise (OtherError "NotImplementedError")).

(** A device that answers every request, but fails the sources request
    with [error]. *)
Definition device (error : exn) : Device :=
  mkDevice (Ok (mkSoftwareUpdateStatus "1.0")) (Ok (mkBeolinkSelf "Living" jid))
    (Raise error)
    (Ok (mkProductState (mkVolumeState 30 false) None
           (mkPlaybackProgress None None) empty_Source "started"))
    (Ok (mkPlayQueueSettings None None)) (Ok []) (Ok []) (Ok []) (Ok []).

End Demo.

(** ** media_player.py: dispatcher subscriptions, notification handlers
       and properties of the entity *)

Module Handlers.
Import Const MediaPlayer.
Section Handlers.
Context {F : PyFloat}.
Variable hass : Hass.
Variable client : Device.

Local Notation "x <- c ;; k" := (bind c (fun x => k))
  (at level 61, c at next level, right associativity).
Local Notation "c ;; k" := (bind c (fun _ => k))
  (at level 61, right associativity).

(** The Beolink signals [async_added_to_hass] connects, keyed by the
    entity's own JID, as the host's dispatcher delivers them: the target is
    called with the arguments of the signal; a signal the entity is not
    connected to reaches nothing.  (The notification signals carry vendor
    objects and are the handlers below.) *)
Definition deliver (signal : string) (args : list pyval) : M unit :=
  e <- self ;;
  let jid := _beolink_jid (entry e) in
  if String.eqb signal (jid ++ "_" ++ BEOLINK_LEADER_COMMAND) then
    match args with
    | [PStr command] => async_beolink_leader_command hass command PNone
    | [PStr command; parameter] =>
        async_beolink_leader_command hass command parameter
    | _ => raise TypeError
    end
  else if String.eqb signal (jid ++ "_" ++ BEOLINK_LISTENER_COMMAND) then
    match args with
    | [PStr command] => async_beolink_listener_command hass command PNone
    | [PStr command; parameter] =>
        async_beolink_listener_command hass command parameter
    | _ => raise TypeError
    end
  else if String.eqb signal (jid ++ "_" ++ BEOLINK_VOLUME) then
    match args with
    | [PStr volume_level] => async_beolink_set_volume volume_level
    | _ => raise TypeError
    end
  else ret tt.

Definition _update_playback_progress (data : PlaybackProgress) : M unit :=
  assign (set_playback_progress data) ;;
  assign (set_last_update (utcnow hass)) ;;
  async_write_ha_state.


Definition _update_volume (data : VolumeState) : M unit :=
  assign (set_volume data) ;;
  async_write_ha_state.

(** The package's name of the remote-control signal, not among the
    sources. *)
Variable WS_REMOTE_CONTROL_AVAILABLE : string.


(** The [media_position] property: no progress for a Beolink listener. *)
Definition media_position (e : MediaPlayer) : option Z :=
  match _remote_leader e with
  | None => progress (_playback_progress e)
  | Some _ => None
  end.

Definition is_volume_muted (e : MediaPlayer) : bool := volume_muted (_volume e).

Definition media_content_type (e : MediaPlayer) : string :=
  if opt_str_eqb (source e) (Some SourceEnum.uriStreamer)
  then MediaType.URL else MediaType.MUSIC.

Definition media_image_url (e : MediaPlayer) : option string :=
  art_url (_media_image e).

(** [not self._media_image.has_local_image]: [None] counts as false. *)
Definition media_image_remotely_accessible (e : MediaPlayer) : bool :=
  match art_has_local_image (_media_image e) with
  | Some true => false
  | _ => true
  end.

(** The [extra_state_attributes] property: the values under "beolink" and
    "bluetooth", or [None] when there is neither. *)
Definition extra_state_attributes (e : MediaPlayer)
    : option (option BeolinkAttribute * option BluetoothAttribute) :=
  match _beolink_attribute e, _bluetooth_attribute e with
  | None, None => None
  | beolink, bluetooth => Some (beolink, bluetooth)
  end.

End Handlers.
End Handlers.

(** ** media_player.py: queue, Beolink and overlay services *)

Module Services.
Import Const MediaPlayer.

(** [RepeatEnum[name]]: the value of the member; [None] is [KeyError]. *)
Definition RepeatEnum_of_name (name : string) : option string :=
  if String.eqb name "all" then Some "all"
  else if String.eqb name "one" then Some "track"
  else if String.eqb name "off" then Some "none"
  else None.

(** [RepeatEnum(value).name]; [None] is [ValueError]. *)
Definition RepeatEnum_name (value : string) : option string :=
  if String.eqb value "all" then Some "all"
  else if String.eqb value "track" then Some "one"
  else if String.eqb value "none" then Some "off"
  else None.

Record OverlayPlayRequest : Type := mkOverlayPlayRequest {
  overlay_uri : option string;
  overlay_text_to_speech : option (option string * string);
  overlay_volume_absolute : option Z
}.

Inductive service_request : Type :=
| post_clear_queue
| set_settings_queue (repeat : option string) (shuffle : option bool)
| join_latest_beolink_experience
| join_beolink_peer (jid : string)
| post_beolink_expand (jid : string)
| post_beolink_unexpand (jid : string)
| post_beolink_leave
| post_beolink_allstandby
| post_overlay_play (overlay_play_request : OverlayPlayRequest).

(** What a task handed to the host does when it runs. *)
Inductive task_event : Type :=
| TaskSent (r : service_request)
| TaskPaused (seconds : Z).

(** What a service does: requests, log records, and coroutines handed to
    the host as tasks. *)
Inductive service_event : Type :=
| Sent (r : service_request)
| Recorded (level : log_level) (message : string)
| TaskCreated (task : list task_event).

Definition shuffle (e : MediaPlayer) : option bool :=
  queue_shuffle (_queue_settings e).

(** The [repeat] property. *)
Definition repeat (e : MediaPlayer) : outcome string :=
  match queue_repeat (_queue_settings e) with
  | Some value => match RepeatEnum_name value with
                  | Some name => Ok name
                  | None => Raise ValueError
                  end
  | None => Raise ValueError
  end.

Definition async_clear_playlist (e : MediaPlayer)
    : outcome unit * MediaPlayer * list service_event :=
  (Ok tt, e, [Sent post_clear_queue]).

Definition async_set_shuffle (shuffle : bool) (e : MediaPlayer)
    : outcome unit * MediaPlayer * list service_event :=
  (Ok tt,
   set_queue_settings
     (mkPlayQueueSettings (queue_repeat (_queue_settings e)) (Some shuffle)) e,
   [Sent (set_settings_queue None (Some shuffle))]).

Definition async_set_repeat (repeat : string) (e : MediaPlayer)
    : outcome unit * MediaPlayer * list service_event :=
  match RepeatEnum_of_name repeat with
  | None => (Raise KeyError, e, [])
  | Some value =>
      (Ok tt,
       set_queue_settings
         (mkPlayQueueSettings (Some value) (queue_shuffle (_queue_settings e))) e,
       [Sent (set_settings_queue (Some value) None)])
  end.

Section Beolink.

(** The vendor client's JID check. *)
Variable check_valid_jid : string -> bool.

Definition async_beolink_join (beolink_jid : option string)
    : list service_event :=
  match beolink_jid with
  | None => [Sent join_latest_beolink_experience]
  | Some jid => if negb (check_valid_jid jid) then []
                else [Sent (join_beolink_peer jid)]
  end.

(** The task of [async_beolink_expand]: one request a second. *)
Definition _beolink_expand (beolink_jids : list string) : list task_event :=
  flat_map (fun jid => [TaskSent (post_beolink_expand jid); TaskPaused 1])
    beolink_jids.

Definition _beolink_unexpand (beolink_jids : list string) : list task_event :=
  flat_map (fun jid => [TaskSent (post_beolink_unexpand jid); TaskPaused 1])
    beolink_jids.

(** The checking loop of expand: [true] when it runs to its end. *)
Definition all_valid (beolink_jids : list string) : bool :=
  forallb check_valid_jid beolink_jids.

Definition async_beolink_expand (beolink_jids : list string)
    : list service_event :=
  if all_valid beolink_jids
  then [TaskCreated (_beolink_expand beolink_jids)]
  else [Recorded LogError "Invalid Beolink JID: %s"].

Definition async_beolink_unexpand (beolink_jids : list string)
    : list service_event :=
  if all_valid beolink_jids
  then [TaskCreated (_beolink_unexpand beolink_jids)]
  else [].

Definition async_beolink_leave : list service_event :=
  [Sent post_beolink_leave].

Definition async_beolink_allstandby : list service_event :=
  [Sent post_beolink_allstandby].

Definition async_unjoin_player : list service_event := async_beolink_leave.

(** The registries [_get_beolink_jid] reads: the config entry id of an
    entity (an unknown entity has no entry; an entry may have no config
    entry id) and the data of a config entry. *)
Record Registries : Type := mkRegistries {
  entity_entry : string -> option (option string);
  config_entry_data : string -> option dict
}.

Variable registries : Registries.

(** [_get_beolink_jid]: attribute access on a missing entry raises; only a
    missing key gives [None]. *)
Definition _get_beolink_jid (entity_id : string) : outcome (option string) :=
  match entity_entry registries entity_id with
  | None => Raise AttributeError
  | Some None => Raise AttributeError
  | Some (Some config_entry_id) =>
      match config_entry_data registries config_entry_id with
      | None => Raise AttributeError
      | Some data =>
          match ConfigFlow.lookup "jid" data with
          | Ok jid => Ok (Some jid)
          | Raise _ => Ok None
          end
      end
  end.

(** The loop of [async_join_players] collecting JIDs. *)
Fixpoint collect_jids (group_members : list string) (jids : list string)
    (events : list service_event)
    : outcome (list string) * list service_event :=
  match group_members with
  | [] => (Ok jids, events)
  | group_member :: rest =>
      match _get_beolink_jid group_member with
      | Raise e => (Raise e, events)
      | Ok None =>
          collect_jids rest jids
            (events ++ [Recorded LogWarning "Error adding %s to group"])%list
      | Ok (Some jid) => collect_jids rest (jids ++ [jid])%list events
      end
  end.

Definition async_join_players (group_members : list string)
    : outcome unit * list service_event :=
  match group_members with
  | [] => (Ok tt, async_beolink_join None)
  | _ =>
      match collect_jids group_members [] [] with
      | (Raise e, events) => (Raise e, events)
      | (Ok jids, events) => (Ok tt, (events ++ async_beolink_expand jids)%list)
      end
  end.

End Beolink.

Section Overlay.
Context {F : PyFloat}.
Variable hass : Hass.

(** Truth of an optional integer and of an optional string. *)
Definition given_int (x : option Z) : bool :=
  match x with Some n => negb (n =? 0) | None => false end.

Definition given_str (x : option string) : bool :=
  match x with Some s => negb (String.eqb s "") | None => false end.

Definition async_overlay_audio (uri : option string)
    (absolute_volume volume_offset : option Z) (tts tts_language : option string)
    (e : MediaPlayer) : outcome unit * list service_event :=
  if given_int absolute_volume && given_int volume_offset then
    (Ok tt, [Recorded LogError
               "Can't define absolute volume and volume offset at the same time"])
  else if given_str tts && given_str uri then
    (Ok tt, [Recorded LogError
               "Can't define URI and TTS message at the same time"])
  else
    let volume :=
      if given_int absolute_volume then absolute_volume
      else match volume_offset with
           | Some offset =>
               if negb (offset =? 0)
               then Some (Z.min (volume_level (_volume e) + offset) 100)
               else None
           | None => None
           end in
    match uri with
    | Some media_id =>
        if negb (String.eqb media_id "") then
          if is_media_source_id hass media_id then
            match async_resolve_media hass media_id with
            | Raise err => (Raise err, [])
            | Ok url =>
                (Ok tt,
                 [Sent (post_overlay_play
                          (mkOverlayPlayRequest
                             (Some (async_process_play_media_url hass url))
                             None volume))])
            end
          else
            (Ok tt,
             [Sent (post_overlay_play
                      (mkOverlayPlayRequest (Some media_id) None volume))])
        else
          match tts with
          | Some text =>
              if negb (String.eqb text "")
              then (Ok tt,
                    [Sent (post_overlay_play
                             (mkOverlayPlayRequest None
                                (Some (tts_language, text)) volume))])
              else (Ok tt, [])
          | None => (Ok tt, [])
          end
    | None =>
        match tts with
        | Some text =>
            if negb (String.eqb text "")
            then (Ok tt,
                  [Sent (post_overlay_play
                           (mkOverlayPlayRequest None
                              (Some (tts_language, text)) volume))])
            else (Ok tt, [])
        | None => (Ok tt, [])
        end
    end.

End Overlay.
End Services.

(** ** const.py: the attributes of a favourite *)

Module Favourites.
Import Const.

(** [SourceEnum[name].value]; [None] is [KeyError]. *)
Definition SourceEnum_of_name (name : string) : option string :=
  if String.eqb name "uriStreamer" then Some SourceEnum.uriStreamer
  else if String.eqb name "bluetooth" then Some SourceEnum.bluetooth
  else if String.eqb name "airPlay" then Some SourceEnum.airPlay
  else if String.eqb name "chromeCast" then Some SourceEnum.chromeCast
  else if String.eqb name "spotify" then Some SourceEnum.spotify
  else if String.eqb name "generator" then Some SourceEnum.generator
  else if String.eqb name "lineIn" then Some SourceEnum.lineIn
  else if String.eqb name "spdif" then Some SourceEnum.spdif
  else if String.eqb name "netRadio" then Some SourceEnum.netRadio
  else if String.eqb name "local" then Some SourceEnum.local
  else if String.eqb name "dlna" then Some SourceEnum.dlna
  else if String.eqb name "qplay" then Some SourceEnum.qplay
  else if String.eqb name "wpl" then Some SourceEnum.wpl
  else if String.eqb name "pl" then Some SourceEnum.pl
  else if String.eqb name "tv" then Some SourceEnum.tv
  else if String.eqb name "deezer" then Some SourceEnum.deezer
  else if String.eqb name "beolink" then Some SourceEnum.beolink
  else if String.eqb name "tidalConnect" then Some SourceEnum.tidalConnect
  else None.

(** The vendor's queue item, action and preset (the fields read). *)
Record PlayQueueItem : Type := mkPlayQueueItem {
  item_provider : option string;
  item_uri : option string
}.

Record Action : Type := mkAction {
  action_type : option string;
  action_volume_level : option Z;
  action_deezer_user_id : option string;
  action_queue_item : option PlayQueueItem;
  action_queue_settings : option PlayQueueSettings
}.

Record Preset : Type := mkPreset {
  action_list : list Action;
  preset_source : option string;
  preset_title : option string
}.

(** The value under "id": an integer for a flow, the URI for a queue. *)
Inductive favourite_id : Type :=
| FlowId (user_id : Z)
| QueueUri (uri : option string).

(** The dict the function builds, a field for each key it may set. *)
Record FavouriteAttribute : Type := mkFavouriteAttribute {
  attribute_volume : option (option Z);
  attribute_source : option string;
  attribute_name : option string;
  attribute_id : option favourite_id;
  attribute_queue_settings : option (option string * option bool)
}.


Definition with_source v (a : FavouriteAttribute) : FavouriteAttribute :=
  mkFavouriteAttribute (attribute_volume a) v (attribute_name a) (attribute_id a)
    (attribute_queue_settings a).

Definition type_is (action : Action) (name : string) : bool :=
  opt_str_eqb (action_type action) (Some name).

(** [favourite_queue.provider.value == "deezer"]. *)
Definition queue_is_deezer (action : Action) : outcome bool :=
  match action_queue_item action with
  | Some item =>
      match item_provider item with
      | Some provider => Ok (String.eqb provider "deezer")
      | None => Raise AttributeError
      end
  | None => Raise AttributeError
  end.

(** The "source" branch of the loop. *)
Definition add_source (favourite : Preset) (action : Action)
    (a : FavouriteAttribute) : outcome FavouriteAttribute :=
  obind (if type_is action "deezerFlow" then Ok true
         else if type_is action "playQueue" then queue_is_deezer action
         else Ok false)
    (fun deezer =>
       if deezer then Ok (with_source (Some SourceEnum.deezer) a)
       else if type_is action "radio"
       then Ok (with_source (Some SourceEnum.netRadio) a)
       else match preset_source favourite with
            | Some name =>
                match SourceEnum_of_name name with
                | Some value => Ok (with_source (Some value) a)
                | None => Raise KeyError
                end
            | None => Ok a
            end).






End Favourites.

(** ** Vocabulary of the further properties *)

Module Laws.
Import Const MediaPlayer.
Section WithFloat.
Context {F : PyFloat}.

(** A method every run of which relates the world it starts in to the
    world it ends in. *)
Definition respects (R : world -> world -> Prop) {A} (c : M A) : Prop :=
  forall w, R w (snd (c w)).

(** A method that, when it returns, has started the notification listener
    as its last act, and is related by [R] up to there; when it raises, it
    is related by [R] altogether. *)
Definition ends_started (R : world -> world -> Prop) (c : M bool) : Prop :=
  forall w,
    match fst (c w) with
    | Ok _ => exists w1, R w w1
                         /\ snd (c w)
                            = mkWorld (ent w1) (trace w1 ++ [ListenerStarted])
    | Raise _ => R w (snd (c w))
    end.

(** The trace has grown without a start of the notification listener. *)
Definition quiet (w w' : world) : Prop :=
  exists more, trace w' = (trace w ++ more)%list /\ ~ In ListenerStarted more.

(** The source ids and the friendly names go in pairs. *)
Definition aligned (e : MediaPlayer) : Prop :=
  List.length (_source_list e) = List.length (_source_list_friendly e).

Definition stays_aligned (w w' : world) : Prop :=
  aligned (ent w) -> aligned (ent w').



End WithFloat.
End Laws.
Import Laws.

(** ** Further sample data *)

Module Samples.
Import Const MediaPlayer DecimalFloat.

(** The leader of [Demo.listening], with [Demo.player] among its listeners. *)
Definition leading : MediaPlayer :=
  set_beolink_listeners [mkBeolinkListener Demo.jid]
    (init_MediaPlayer
       (mkEntryData "192.168.0.3" "Beosound Level-44444444" "44444444"
          (leader_jid Demo.leader) 80 5 40 "Beosound Level")).

(** A player with two sources stored. *)
Definition with_sources : MediaPlayer :=
  set_source_list_friendly [Some "Spotify Connect"; Some "Deezer"]
    (set_source_list [Some "spotify"; Some "deezer"] Demo.player).

(** A device that answers every request; its sources are [sources]. *)
Definition device (sources : list Source) : Device :=
  mkDevice (Ok (mkSoftwareUpdateStatus "1.0"))
    (Ok (mkBeolinkSelf "Living" Demo.jid)) (Ok sources)
    (Ok (mkProductState (mkVolumeState 30 false) None
           (mkPlaybackProgress None None) empty_Source "started"))
    (Ok (mkPlayQueueSettings None None)) (Ok []) (Ok []) (Ok []) (Ok []).

(** Registries that know two entities: one whose config entry has a JID
    and one whose config entry has none. *)
Definition registries : Services.Registries :=
  Services.mkRegistries
    (fun entity_id =>
       if String.eqb entity_id "media_player.balance" then Some (Some "entry-1")
       else if String.eqb entity_id "media_player.other" then Some (Some "entry-2")
       else None)
    (fun config_entry_id =>
       if String.eqb config_entry_id "entry-1" then Some [("jid", Demo.jid)]
       else if String.eqb config_entry_id "entry-2" then Some []
       else None).

(** A player at volume 30. *)
Definition at_thirty : MediaPlayer :=
  set_volume (mkVolumeState 30 false) Demo.player.


(** A discovered Beosound Balance, and volume settings with no levels. *)
Definition discovery : ConfigFlow.ZeroconfServiceInfo :=
  ConfigFlow.mkZeroconfServiceInfo "192.168.0.2"
    "Beosound-Balance-33333333.local."
    [(ATTR_FRIENDLY_NAME, "Living"); (ATTR_SERIAL_NUMBER, "33333333");
     (ATTR_TYPE_NUMBER, "1111"); (ATTR_ITEM_NUMBER, "2222222")].

Definition no_levels : ConfigFlow.VolumeSettings :=
  ConfigFlow.mkVolumeSettings (Some (Some 0)) None.

(** A paired remote. *)
Definition remote : PairedRemote :=
  mkPairedRemote "Beoremote One" "AA:BB" (Some "50000001") None.

(** A player whose source is Deezer. *)
Definition on_deezer : MediaPlayer :=
  set_source_change
    (mkSource (Some "deezer") (Some true) (Some true) (Some "Deezer")
       (Some "deezer")) Demo.player.

End Samples.

(** * Properties *)

(** ** Strings and JIDs *)

Lemma split_not_nil (sep : ascii) (s : string) : split sep s <> [].
Proof.
  induction s as [|c s IH]; simpl; [discriminate|].
  destruct (Ascii.eqb c sep); [discriminate|].
  destruct (split sep s); [contradiction | discriminate].
Qed.

Lemma split_no_sep (sep : ascii) (s : string) :
  has_char sep s = false -> split sep s = [s].
Proof.
  induction s as [|c s IH]; simpl; intros H; [reflexivity|].
  apply orb_false_iff in H as [Hc Hs].
  rewrite Hc, (IH Hs). reflexivity.
Qed.

Lemma split_at_sep (sep : ascii) (a b : string) :
  has_char sep a = false ->
  split sep (a ++ String sep b) = a :: split sep b.
Proof.
  induction a as [|c a IH]; simpl; intros H.
  - rewrite Ascii.eqb_refl. reflexivity.
  - apply orb_false_iff in H as [Hc Ha].
    rewrite Hc, (IH Ha). reflexivity.
Qed.

Lemma split_head (sep : ascii) (a b : string) :
  has_char sep a = false ->
  getitem (split sep (a ++ String sep b)) 0 = Ok a.
Proof. intros H. rewrite (split_at_sep _ _ _ H). reflexivity. Qed.

Lemma lookup_has_key (key : string) (d : dict) :
  ConfigFlow.has_key key d = true -> exists v, ConfigFlow.lookup key d = Ok v.
Proof.
  induction d as [|[k v] d IH]; simpl; [discriminate|].
  destruct (String.eqb k key); [eauto | exact IH].
Qed.

(** The serial number put into a JID comes back out. *)
Lemma serial_number_of_beolink_jid (t i s : string) :
  has_char "." t = false -> has_char "." i = false ->
  has_char "." s = false -> has_char "@" s = false ->
  serial_number_of_jid (beolink_jid_of t i s) = Ok s.
Proof.
  intros Ht Hi Hs Hat. unfold serial_number_of_jid, beolink_jid_of.
  change (t ++ "." ++ i ++ "." ++ s ++ "@products.bang-olufsen.com")
    with (t ++ String "." (i ++ String "." (s ++ "@products.bang-olufsen.com"))).
  rewrite (split_at_sep _ _ _ Ht), (split_at_sep _ _ _ Hi).
  assert (Hhead : exists tl,
             split "." (s ++ "@products.bang-olufsen.com")
             = (s ++ "@products") :: tl).
  { replace (s ++ "@products.bang-olufsen.com")
      with ((s ++ "@products") ++ String "." "bang-olufsen.com").
    - rewrite split_at_sep; [eauto|].
      clear -Hs. induction s as [|c s IH]; simpl in *; [reflexivity|].
      apply orb_false_iff in Hs as [Hc Hs']. rewrite Hc. auto.
    - clear. induction s as [|c s IH]; simpl; [reflexivity | now rewrite IH]. }
  destruct Hhead as [tl ->]. simpl.
  change (s ++ "@products") with (s ++ String "@" "products").
  apply split_head, Hat.
Qed.

Lemma has_key_lookup (key v : string) (d : dict) :
  ConfigFlow.lookup key d = Ok v -> ConfigFlow.has_key key d = true.
Proof.
  induction d as [|[k v'] d IH]; simpl; [discriminate|].
  destruct (String.eqb k key); [reflexivity | exact IH].
Qed.

(** What the user step stores for a device that reports [me]: the JID as
    reported, and the serial number read off it as the serial number and
    the unique id; a JID the expression cannot be read off raises. *)
Lemma user_step_reads_serial valid configured volume me input host model fl :
  ConfigFlow.input_host input = Some host ->
  ConfigFlow.input_model input = Some model ->
  valid host = true ->
  let run := ConfigFlow.async_step_user valid configured (Ok me) volume
               (Some input) fl in
  let h := ConfigFlow.handler (snd run) in
  ConfigFlow._beolink_jid h = self_jid me
  /\ match serial_number_of_jid (self_jid me) with
     | Ok serial => ConfigFlow._serial_number h = serial
                    /\ ConfigFlow.unique_id h = Some serial
     | Raise e => fst run = Raise e
     end.
Proof.
  intros Hh Hm Hv. cbv zeta. unfold ConfigFlow.async_step_user.
  rewrite Hh, Hm, Hv. cbn [negb].
  destruct (serial_number_of_jid (self_jid me)) as [serial|e];
    [|cbn; auto].
  destruct (str_in serial configured) eqn:Hc; [cbn; auto|].
  unfold ConfigFlow.async_step_confirm. cbn. rewrite Hc. cbn. auto.
Qed.

(** What the zeroconf step stores for a discovered device. *)
Lemma zeroconf_step_stores_jid configured answer info fl t i s name :
  ConfigFlow.lookup ATTR_TYPE_NUMBER (ConfigFlow.discovery_properties info) = Ok t ->
  ConfigFlow.lookup ATTR_ITEM_NUMBER (ConfigFlow.discovery_properties info) = Ok i ->
  ConfigFlow.lookup ATTR_SERIAL_NUMBER (ConfigFlow.discovery_properties info) = Ok s ->
  ConfigFlow.lookup ATTR_FRIENDLY_NAME (ConfigFlow.discovery_properties info) = Ok name ->
  let h := ConfigFlow.handler
             (snd (ConfigFlow.async_step_zeroconf configured answer info fl)) in
  ConfigFlow._beolink_jid h = beolink_jid_of t i s
  /\ ConfigFlow._serial_number h = s.
Proof.
  intros Htn Hin Hsn Hfn. cbv zeta.
  unfold ConfigFlow.async_step_zeroconf.
  rewrite (has_key_lookup _ _ _ Hfn), Hsn, Htn, Hin, Hfn. cbn [negb].
  unfold ConfigFlow.async_step_confirm, ConfigFlow.with_handler,
    ConfigFlow.with_event.
  cbn [ConfigFlow.handler ConfigFlow.events ConfigFlow._serial_number
       ConfigFlow.set_unique_id ConfigFlow.set_title_placeholder
       ConfigFlow.set_beolink_jid ConfigFlow.set_serial_number
       ConfigFlow.set_model ConfigFlow.set_host ConfigFlow.set_client
       ConfigFlow.set_name ConfigFlow.set_confirm_only
       ConfigFlow._beolink_jid ConfigFlow._host ConfigFlow._model
       ConfigFlow._name ConfigFlow._client ConfigFlow.unique_id
       ConfigFlow.title_placeholder ConfigFlow.confirm_only].
  destruct (str_in s configured);
    cbn [fst snd ConfigFlow.handler ConfigFlow._beolink_jid
         ConfigFlow._serial_number]; split; reflexivity.
Qed.

(** C9: for type and item numbers without "." and a serial number without
    "." and "@", splitting the JID "t.i.s@products.bang-olufsen.com" on "."
    (index 2) and then on "@" (index 0) gives back the serial number; the
    zeroconf step stores exactly this JID next to the serial number it was
    built from.  The user step applies the same extraction to the JID the
    device reports, storing the JID and what the extraction gives as serial
    number and unique id, and [_get_entity_id_from_jid] of the media player
    applies it to the JID it is given and looks the result up in the entity
    registry: on a device reporting the JID above both arrive at [s]. *)
Theorem jid_serial_number_roundtrip {F : PyFloat} (t i s : string) :
  has_char "." t = false -> has_char "." i = false ->
  has_char "." s = false -> has_char "@" s = false ->
  serial_number_of_jid (beolink_jid_of t i s) = Ok s
  /\ (forall jid,
        serial_number_of_jid jid
        = obind (getitem (split "." jid) 2)
            (fun part => getitem (split "@" part) 0))
  /\ (forall configured answer info fl name,
       ConfigFlow.lookup ATTR_TYPE_NUMBER (ConfigFlow.discovery_properties info) = Ok t ->
       ConfigFlow.lookup ATTR_ITEM_NUMBER (ConfigFlow.discovery_properties info) = Ok i ->
       ConfigFlow.lookup ATTR_SERIAL_NUMBER (ConfigFlow.discovery_properties info) = Ok s ->
       ConfigFlow.lookup ATTR_FRIENDLY_NAME (ConfigFlow.discovery_properties info) = Ok name ->
       let h := ConfigFlow.handler
                  (snd (ConfigFlow.async_step_zeroconf configured answer info fl)) in
       ConfigFlow._beolink_jid h = beolink_jid_of t i s
       /\ ConfigFlow._serial_number h = s
       /\ serial_number_of_jid (ConfigFlow._beolink_jid h)
          = Ok (ConfigFlow._serial_number h))
  /\ (forall valid configured volume me input host model fl,
       ConfigFlow.input_host input = Some host ->
       ConfigFlow.input_model input = Some model ->
       valid host = true ->
       let run := ConfigFlow.async_step_user valid configured (Ok me) volume
                    (Some input) fl in
       let h := ConfigFlow.handler (snd run) in
       ConfigFlow._beolink_jid h = self_jid me
       /\ match serial_number_of_jid (self_jid me) with
          | Ok serial => ConfigFlow._serial_number h = serial
                         /\ ConfigFlow.unique_id h = Some serial
          | Raise e => fst run = Raise e
          end
       /\ (self_jid me = beolink_jid_of t i s ->
           ConfigFlow._serial_number h = s
           /\ ConfigFlow.unique_id h = Some s))
  /\ (forall hass jid (w : world),
       _get_entity_id_from_jid hass jid w
       = (match serial_number_of_jid jid with
          | Ok serial => Ok (entity_registry_get_entity_id hass serial)
          | Raise e => Raise e
          end, w))
  /\ (forall hass (w : world),
       _get_entity_id_from_jid hass (beolink_jid_of t i s) w
       = (Ok (entity_registry_get_entity_id hass s), w)).
Proof.
  intros Ht Hi Hs Hat.
  pose proof (serial_number_of_beolink_jid t i s Ht Hi Hs Hat) as Hround.
  assert (Hentity : forall hass jid (w : world),
             _get_entity_id_from_jid hass jid w
             = (match serial_number_of_jid jid with
                | Ok serial => Ok (entity_registry_get_entity_id hass serial)
                | Raise e => Raise e
                end, w)).
  { intros hass jid w. unfold _get_entity_id_from_jid, bind, lift, ret.
    destruct (serial_number_of_jid jid); reflexivity. }
  split; [exact Hround|]. split; [reflexivity|].
  split; [|split; [|split; [exact Hentity|]]].
  - intros configured answer info fl name Htn Hin Hsn Hfn.
    pose proof (zeroconf_step_stores_jid configured answer info fl t i s name
                  Htn Hin Hsn Hfn) as Hstored.
    cbv zeta in *. destruct Hstored as [Hjid Hserial].
    rewrite Hjid, Hserial. auto.
  - intros valid configured volume me input host model fl Hh Hm Hv.
    pose proof (user_step_reads_serial valid configured volume me input host
                  model fl Hh Hm Hv) as Hstep.
    cbv zeta in *. destruct Hstep as [Hjid Hserial].
    split; [exact Hjid|]. split; [exact Hserial|].
    intros Hreported. rewrite Hreported, Hround in Hserial. exact Hserial.
  - intros hass w. rewrite Hentity, Hround. reflexivity.
Qed.

Lemma jid_serial_number_roundtrip_witness :
  serial_number_of_jid (beolink_jid_of "1111" "2222222" "33333333")
  = Ok "33333333"
  /\ ConfigFlow.unique_id
       (ConfigFlow.handler
          (snd (ConfigFlow.async_step_user (fun _ => true) []
                  (Ok (mkBeolinkSelf "Living" Demo.jid))
                  (Raise ApiException)
                  (Some (ConfigFlow.mkUserInput None (Some "192.168.0.2") None
                           None (Some "Beosound Balance") None))
                  (ConfigFlow.mkFlow ConfigFlow.new_FlowHandler []))))
     = Some "33333333"
  /\ fst (_get_entity_id_from_jid Demo.hass Demo.jid (Demo.fresh Demo.player))
     = Ok (Some "media_player.33333333").
Proof.
  pose proof (@jid_serial_number_roundtrip DecimalFloat.decimal_float
                "1111" "2222222" "33333333" eq_refl eq_refl eq_refl eq_refl)
    as (Hround & _ & _ & Huser & _ & Hentity).
  split; [exact Hround|]. split.
  - exact (proj2 (proj2 (proj2
             (Huser (fun _ => true) [] (Raise ApiException)
                (mkBeolinkSelf "Living" Demo.jid)
                (ConfigFlow.mkUserInput None (Some "192.168.0.2") None None
                   (Some "Beosound Balance") None)
                "192.168.0.2" "Beosound Balance"
                (ConfigFlow.mkFlow ConfigFlow.new_FlowHandler [])
                eq_refl eq_refl eq_refl)) eq_refl)).
  - exact (f_equal fst (Hentity Demo.hass (Demo.fresh Demo.player))).
Defined.

(** The user step keeps the serial number its expression reads off the JID
    the device reports. *)
Lemma user_step_serial_number valid configured answer me input host model fl :
  ConfigFlow.input_host input = Some host ->
  ConfigFlow.input_model input = Some model ->
  valid host = true ->
  forall r fl',
    ConfigFlow.async_step_user valid configured (Ok me) answer (Some input) fl
    = (Ok r, fl') ->
    serial_number_of_jid (self_jid me)
    = Ok (ConfigFlow._serial_number (ConfigFlow.handler fl'))
    /\ ConfigFlow._beolink_jid (ConfigFlow.handler fl') = self_jid me.
Proof.
  intros Hh Hm Hv r fl'. unfold ConfigFlow.async_step_user.
  rewrite Hh, Hm, Hv. cbn [negb].
  destruct (serial_number_of_jid (self_jid me)) as [serial|e] eqn:Hser;
    [|discriminate].
  destruct (str_in serial configured) eqn:Hc.
  - intros H. inversion H; subst. cbn. auto.
  - unfold ConfigFlow.async_step_confirm. cbn. rewrite Hc.
    intros H. inversion H; subst. cbn. auto.
Qed.

(** ** The state property *)

Section State.
Context {F : PyFloat}.

Lemma state_of_name (e : MediaPlayer) :
  state e = match StateEnum (_state e) with
            | Some s => Ok s
            | None => Raise KeyError
            end.
Proof. reflexivity. Qed.

Lemma update_playback_state_state (data : string) (w : world) :
  _state (ent (snd (_update_playback_state data w))) = data.
Proof. reflexivity. Qed.

Lemma StateEnum_members (name : string) (s : MediaPlayerState) :
  StateEnum name = Some s <->
  In (name, s) (playback_states ++ [("networkStandby", IDLE)]).
Proof.
  split.
  - unfold StateEnum.
    repeat match goal with
           | |- context [String.eqb name ?x] =>
               destruct (String.eqb_spec name x);
               [subst; intros H; inversion H; subst; simpl; tauto|]
           end.
    discriminate.
  - simpl. intros H.
    repeat (destruct H as [H|H]; [inversion H; subst; reflexivity|]).
    contradiction.
Qed.

(** C4 (amended): after a playback-state notification with one of the
    eight values the state property is the host state of the mapping
    (started, buffering: playing; paused, stopped, ended: paused; idle,
    unknown, error: idle); the property is defined exactly on these eight
    names and "networkStandby", and for "on" it raises [KeyError]. *)
Theorem state_of_playback_state :
  (forall name s w,
      In (name, s) playback_states ->
      state (ent (snd (_update_playback_state name w))) = Ok s)
  /\ (forall e s,
         state e = Ok s <->
         In (_state e, s) (playback_states ++ [("networkStandby", IDLE)]))
  /\ (forall e, _state e = BANGOLUFSEN_ON -> state e = Raise KeyError).
Proof.
  split; [|split].
  - intros name s w H. rewrite state_of_name, update_playback_state_state.
    rewrite (proj2 (StateEnum_members name s)); [reflexivity|].
    apply in_or_app; left; exact H.
  - intros e s. rewrite state_of_name, <- StateEnum_members.
    destruct (StateEnum (_state e)); split; intros H;
      inversion H; subst; reflexivity.
  - intros e H. rewrite state_of_name, H. reflexivity.
Qed.

End State.

Lemma state_of_playback_state_witness :
  state (ent (snd (_update_playback_state "buffering" (Demo.fresh Demo.player))))
  = Ok PLAYING.
Proof.
  apply (proj1 state_of_playback_state). simpl. tauto.
Defined.

(** C4 as stated fails for the power state "on": the PLAYING tuple lists
    it, and the state property of a player holding it raises. *)
Lemma state_on_is_not_mapped :
  In BANGOLUFSEN_ON PLAYING_STATES
  /\ state (set_state BANGOLUFSEN_ON Demo.player) = Raise KeyError.
Proof. split; [simpl; tauto | reflexivity]. Qed.

(** ** Volume steps *)

Section Volume.
Context {F : PyFloat}.

(** C8: volume up requests [min(v + s, m)], which does not exceed the
    maximum, volume down requests [max(v - s, 0)], which is not negative,
    and neither assigns any attribute of the entity. *)
Theorem volume_step_within_bounds (e : MediaPlayer) (events : list event) :
  let v := volume_level (_volume e) in
  let s := _volume_step (entry e) in
  let m := _max_volume (entry e) in
  async_volume_up (mkWorld e events)
  = (Ok tt, mkWorld e (events ++ [Request (set_current_volume_level (Z.min (v + s) m))]))
  /\ Z.min (v + s) m <= m
  /\ async_volume_down (mkWorld e events)
     = (Ok tt, mkWorld e (events ++ [Request (set_current_volume_level (Z.max (v - s) 0))]))
  /\ 0 <= Z.max (v - s) 0.
Proof.
  cbv zeta. repeat split; try reflexivity; lia.
Qed.

End Volume.

(** ** The Beolink relay *)

Section Relay.
Context {F : PyFloat}.
Variable hass : Hass.

Lemma bind_ret_tt (c : M unit) (w : world) :
  bind c (fun _ => ret tt) w = c w.
Proof.
  unfold bind, ret. destruct (c w) as [[[]|e] w']; reflexivity.
Qed.

Lemma conversion_shape (command : string) (parameter value : pyval) :
  conversion command parameter = Some value ->
  exists parameter_type, call_shape command parameter_type parameter value.
Proof.
  unfold conversion, parameter_type_of. cbn.
  repeat match goal with
         | |- context [String.eqb command ?x] =>
             destruct (String.eqb_spec command x); [subst; cbn|]
         end;
    try discriminate.
  1, 2: destruct (py_float parameter) as [f|] eqn:Hf; cbn; intros H;
        inversion H; subst; eexists; apply shape_float; [simpl; tauto | exact Hf].
  1: intros H; inversion H; subst; eexists; apply shape_bool.
  1: intros H; inversion H; subst; eexists; apply shape_str.
  all: destruct parameter; cbn; intros H; inversion H; subst;
       eexists; apply shape_none; simpl; tauto.
Qed.

Lemma conversion_accepted (command : string) (parameter value : pyval) :
  conversion command parameter = Some value -> accepted_command command = true.
Proof.
  intros H. destruct (conversion_shape _ _ _ H) as [ty Hs].
  destruct Hs as [c p f Hin _| | |c Hin]; try reflexivity;
    simpl in Hin; repeat (destruct Hin as [<-|Hin]; [reflexivity|]);
    contradiction.
Qed.

Lemma leader_forwards command parameter_type parameter value leader e events :
  call_shape command parameter_type parameter value ->
  _remote_leader e = Some leader ->
  async_beolink_leader_command hass command parameter (mkWorld e events)
  = (Ok tt,
     mkWorld e (events ++ [DispatcherSend
                             (leader_jid leader ++ "_" ++ BEOLINK_LEADER_COMMAND)
                             [PStr command; value]])).
Proof.
  intros Hshape Hleader.
  destruct Hshape as [c p f Hin Hf|p|p|c Hin];
    try (simpl in Hin; repeat (destruct Hin as [<-|Hin]; [|]);
         try contradiction);
    unfold async_beolink_leader_command; cbn;
    rewrite ?Hf; cbn; unfold bind, self; cbn; rewrite Hleader; reflexivity.
Qed.

Lemma leader_runs_locally command parameter_type parameter value e events :
  call_shape command parameter_type parameter value ->
  _remote_leader e = None ->
  exists method,
    local_method hass command value method
    /\ async_beolink_leader_command hass command parameter (mkWorld e events)
       = method (mkWorld e events).
Proof.
  intros Hshape Hleader.
  destruct Hshape as [c p f Hin Hf|p|p|c Hin];
    try (simpl in Hin; repeat (destruct Hin as [<-|Hin]; [|]);
         try contradiction);
    (eexists; split; [constructor|]);
    (etransitivity; [|apply bind_ret_tt]);
    unfold async_beolink_leader_command; cbn;
    rewrite ?Hf; cbn; unfold bind, self; cbn; rewrite Hleader; reflexivity.
Qed.

Lemma not_accepted_is_ignored command parameter (w : world) :
  accepted_command command = false ->
  async_beolink_leader_command hass command parameter w = (Ok tt, w)
  /\ async_beolink_listener_command hass command parameter w = (Ok tt, w).
Proof.
  unfold accepted_command, async_beolink_leader_command,
    async_beolink_listener_command. cbn.
  repeat match goal with
         | |- context [String.eqb command ?x] =>
             destruct (String.eqb_spec command x); [subst; discriminate|]
         end.
  intros _. split; reflexivity.
Qed.

(** A parameter given to a command that takes none is refused: the call is
    logged as invalid and goes nowhere. *)
Lemma extraneous_parameter_is_refused command parameter (w : world) :
  In command ["volume_up"; "volume_down"; "media_play_pause"; "media_pause";
              "media_play"; "media_stop"; "media_next_track";
              "media_previous_track"; "toggle"] ->
  is_none parameter = false ->
  async_beolink_leader_command hass command parameter w
  = (Ok tt, mkWorld (ent w) (trace w ++ [Logged LogError "Invalid parameter"])).
Proof.
  intros Hin Hp. simpl in Hin.
  repeat (destruct Hin as [<-|Hin]; [|]); try contradiction;
    unfold async_beolink_leader_command; cbn; rewrite Hp; reflexivity.
Qed.

(** C1: a well-formed call of an accepted command (the parameter converts to
    the declared type, or is absent when the command takes none) is, on a
    listener, published once on the leader's command channel with nothing
    executed locally, and is, on a leader, the call of the media-player
    method of that name; a command outside the accepted set is ignored by
    the leader command and by the listener command. *)
Theorem beolink_command_relay :
  (forall command parameter value leader e events,
      conversion command parameter = Some value ->
      _remote_leader e = Some leader ->
      async_beolink_leader_command hass command parameter (mkWorld e events)
      = (Ok tt,
         mkWorld e (events ++ [DispatcherSend
                                 (leader_jid leader ++ "_" ++ BEOLINK_LEADER_COMMAND)
                                 [PStr command; value]])))
  /\ (forall command parameter value e events,
         conversion command parameter = Some value ->
         _remote_leader e = None ->
         exists method,
           local_method hass command value method
           /\ async_beolink_leader_command hass command parameter
                (mkWorld e events)
              = method (mkWorld e events))
  /\ (forall command parameter w,
         accepted_command command = false ->
         async_beolink_leader_command hass command parameter w = (Ok tt, w)
         /\ async_beolink_listener_command hass command parameter w = (Ok tt, w)).
Proof.
  split; [|split].
  - intros command parameter value leader e events Hc Hl.
    destruct (conversion_shape _ _ _ Hc) as [ty Hs].
    exact (leader_forwards _ _ _ _ _ _ _ Hs Hl).
  - intros command parameter value e events Hc Hl.
    destruct (conversion_shape _ _ _ Hc) as [ty Hs].
    exact (leader_runs_locally _ _ _ _ _ _ Hs Hl).
  - intros command parameter w. apply not_accepted_is_ignored.
Qed.




(** A loop of sends leaves the entity alone and adds one signal per item. *)
Lemma for_each_send {A} (l : list A) (signal : A -> string)
    (args : A -> list pyval) (e : MediaPlayer) (events : list event) :
  for_each l (fun a => async_dispatcher_send (signal a) (args a))
    (mkWorld e events)
  = (Ok tt, mkWorld e (events ++ map (fun a => DispatcherSend (signal a) (args a)) l)).
Proof.
  revert events. induction l as [|a l IH]; intros events; simpl.
  - now rewrite app_nil_r.
  - unfold bind at 1. cbn. rewrite IH, <- app_assoc. reflexivity.
Qed.





End Relay.

Lemma beolink_command_relay_witness :
  async_beolink_leader_command Demo.hass "set_volume_level" (PStr "0.57")
    (Demo.fresh Demo.listening)
  = (Ok tt,
     mkWorld Demo.listening
       [DispatcherSend
          "1111.2222222.44444444@products.bang-olufsen.com_BEOLINK_LEADER_COMMAND"
          [PStr "set_volume_level";
           @PFloat DecimalFloat.decimal_float (57 # 100)]])
  /\ (exists method,
        local_method Demo.hass "media_play" PNone method
        /\ async_beolink_leader_command Demo.hass "media_play" PNone
             (Demo.fresh Demo.player)
           = method (Demo.fresh Demo.player))
  /\ async_beolink_listener_command Demo.hass "standby" PNone
       (Demo.fresh Demo.player)
     = (Ok tt, Demo.fresh Demo.player).
Proof.
  split; [|split].
  - exact (proj1 (beolink_command_relay Demo.hass) "set_volume_level"
             (PStr "0.57") (@PFloat DecimalFloat.decimal_float (57 # 100))
             Demo.leader Demo.listening [] eq_refl eq_refl).
  - exact (proj1 (proj2 (beolink_command_relay Demo.hass)) "media_play"
             PNone PNone Demo.player [] eq_refl eq_refl).
  - exact (proj2 (proj2 (proj2 (beolink_command_relay Demo.hass)) "standby"
                    PNone (Demo.fresh Demo.player) eq_refl)).
Defined.



(** ** Invalid commands *)

Section Invalid.
Context {F : PyFloat}.
Variable hass : Hass.

(** C3 (amended): a source name outside the friendly source list is logged
    and no request is made; a media type outside the valid ones, for a
    media id that is not a media-source id, is logged and no request is
    made; the entity is left as it was in both cases. *)
Theorem invalid_commands_are_logged :
  (forall source e events,
      opt_str_in (Some source) (_source_list_friendly e) = false ->
      async_select_source source (mkWorld e events)
      = (Ok tt,
         mkWorld e (events ++ [Logged LogError
                                 "Invalid source: %s. Valid sources are: %s"])))
  /\ (forall media_type media_id extra e events,
         is_media_source_id hass media_id = false ->
         str_in media_type VALID_MEDIA_TYPES = false ->
         async_play_media hass media_type media_id extra (mkWorld e events)
         = (Ok tt,
            mkWorld e (events ++ [Logged LogError
                                    "%s is an invalid type. Valid values are: %s"]))).
Proof.
  split.
  - intros source e events H.
    unfold async_select_source, bind, self. cbn. rewrite H. reflexivity.
  - intros media_type media_id extra e events Hid Htype.
    unfold async_play_media, bind. rewrite Hid. cbn -[str_in].
    rewrite Htype. reflexivity.
Qed.

End Invalid.

Lemma invalid_commands_are_logged_witness :
  async_select_source "Tape" (Demo.fresh Demo.player)
  = (Ok tt,
     mkWorld Demo.player
       [Logged LogError "Invalid source: %s. Valid sources are: %s"])
  /\ async_play_media Demo.hass "video" "http://192.168.0.9/a.mp4" None
       (Demo.fresh Demo.player)
     = (Ok tt,
        mkWorld Demo.player
          [Logged LogError "%s is an invalid type. Valid values are: %s"]).
Proof.
  split.
  - exact (proj1 (invalid_commands_are_logged Demo.hass) "Tape" Demo.player []
             eq_refl).
  - exact (proj2 (invalid_commands_are_logged Demo.hass) "video"
             "http://192.168.0.9/a.mp4" None Demo.player [] eq_refl eq_refl).
Defined.

(** C3 as stated fails: an invalid media type given with a media-source id
    is replaced by the URL type and the media is played. *)
Lemma invalid_type_with_media_source_plays :
  ~ invalid_type_plays_nothing Demo.hass "video"
      "media-source://media_source/local/chime.mp3" None
      (Demo.fresh Demo.player).
Proof.
  intros H. specialize (H eq_refl). vm_compute in H. discriminate.
Qed.

(** ** Initialization and the sources request *)

Section Init.
Context {F : PyFloat}.
Variable hass : Hass.
Variable client : Device.

Lemma post_bind {A B} (c : M A) (k : A -> M B) w
    (Q : outcome B -> world -> Prop) :
  post c w (fun r w' => match r with
                        | Ok a => post (k a) w' Q
                        | Raise e => Q (Raise e) w'
                        end) ->
  post (bind c k) w Q.
Proof.
  unfold post, bind. destruct (c w) as [[a|e] w']; cbn; auto.
Qed.

Lemma post_request_get {A} (r : request) (response : outcome A) w
    (Q : outcome A -> world -> Prop) :
  Q response (mkWorld (ent w) (trace w ++ [Request r])) ->
  post (request_get r response) w Q.
Proof. exact (fun H => H). Qed.

Lemma post_try_except {A} (body : M A) (catches : exn -> bool)
    (handler : exn -> M A) w (Q : outcome A -> world -> Prop) :
  post body w (fun r w' => match r with
                           | Raise e => if catches e then post (handler e) w' Q
                                        else Q (Raise e) w'
                           | Ok a => Q (Ok a) w'
                           end) ->
  post (try_except body catches handler) w Q.
Proof.
  unfold post, try_except. destruct (body w) as [[a|e] w']; cbn; auto.
  destruct (catches e); auto.
Qed.

Lemma post_keeps {A} (c : M A) w (Q : outcome A -> world -> Prop) :
  keeps_sources c ->
  (forall r w', same_sources w w' -> Q r w') ->
  post c w Q.
Proof. intros Hk HQ. apply HQ, Hk. Qed.

Lemma post_assign (f : MediaPlayer -> MediaPlayer) w
    (Q : outcome unit -> world -> Prop) :
  Q (Ok tt) (mkWorld (f (ent w)) (trace w)) -> post (assign f) w Q.
Proof. exact (fun H => H). Qed.

Lemma post_emit (ev : event) w (Q : outcome unit -> world -> Prop) :
  Q (Ok tt) (mkWorld (ent w) (trace w ++ [ev])) -> post (emit ev) w Q.
Proof. exact (fun H => H). Qed.

Lemma post_self w (Q : outcome MediaPlayer -> world -> Prop) :
  Q (Ok (ent w)) w -> post self w Q.
Proof. exact (fun H => H). Qed.

Lemma post_ret {A} (a : A) w (Q : outcome A -> world -> Prop) :
  Q (Ok a) w -> post (ret a) w Q.
Proof. exact (fun H => H). Qed.

Lemma same_sources_refl w : same_sources w w.
Proof.
  split; [|split; [|split]]; try reflexivity.
  exists []. now rewrite app_nil_r.
Qed.

Lemma same_sources_trans w1 w2 w3 :
  same_sources w1 w2 -> same_sources w2 w3 -> same_sources w1 w3.
Proof.
  unfold same_sources.
  intros (A1 & B1 & C1 & m1 & D1) (A2 & B2 & C2 & m2 & D2).
  split; [|split; [|split]]; try congruence.
  exists (m1 ++ m2)%list. now rewrite D2, D1, app_assoc.
Qed.

Lemma keeps_ret {A} (a : A) : keeps_sources (ret a).
Proof. intros w. apply same_sources_refl. Qed.

Lemma keeps_raise {A} (e : exn) : keeps_sources (@raise F A e).
Proof. intros w. apply same_sources_refl. Qed.

Lemma keeps_lift {A} (o : outcome A) : keeps_sources (lift o).
Proof. intros w. apply same_sources_refl. Qed.

Lemma keeps_self : keeps_sources self.
Proof. intros w. apply same_sources_refl. Qed.

Lemma keeps_bind {A B} (c : M A) (k : A -> M B) :
  keeps_sources c -> (forall a, keeps_sources (k a)) -> keeps_sources (bind c k).
Proof.
  intros Hc Hk w. unfold bind. specialize (Hc w).
  destruct (c w) as [[a|e] w']; cbn in *; [|exact Hc].
  eapply same_sources_trans; [exact Hc | apply Hk].
Qed.

Lemma count_app (p : event -> bool) (l l' : list event) :
  count p (l ++ l') = (count p l + count p l')%nat.
Proof. unfold count. now rewrite filter_app, length_app. Qed.

Lemma keeps_emit (ev : event) :
  is_sources_request ev = false -> keeps_sources (emit ev).
Proof.
  intros H w. split; [|split; [|split]]; try reflexivity.
  - unfold emit. cbn [snd trace]. rewrite count_app.
    unfold count at 2. cbn. rewrite H. cbn. lia.
  - now exists [ev].
Qed.

Lemma keeps_assign (f : MediaPlayer -> MediaPlayer) :
  (forall e, _source_list (f e) = _source_list e
             /\ _source_list_friendly (f e) = _source_list_friendly e) ->
  keeps_sources (assign f).
Proof.
  intros H w. destruct (H (ent w)).
  split; [|split; [|split]]; try assumption; try reflexivity.
  exists []. cbn. now rewrite app_nil_r.
Qed.

Lemma keeps_for_each {A} (l : list A) (body : A -> M unit) :
  (forall a, keeps_sources (body a)) -> keeps_sources (for_each l body).
Proof.
  intros H. induction l as [|a l IH]; simpl.
  - apply keeps_ret.
  - apply keeps_bind; auto.
Qed.

Ltac keeps_step :=
  first
    [ apply keeps_ret
    | apply keeps_raise
    | apply keeps_lift
    | apply keeps_self
    | apply keeps_emit; reflexivity
    | apply keeps_assign; intros ?; split; reflexivity
    | apply keeps_for_each; intros ?
    | apply keeps_bind; [|intros ?]
    | match goal with
      | |- keeps_sources (match ?x with _ => _ end) => destruct x
      end ].

Ltac keeps := cbv zeta; repeat keeps_step.

Lemma keeps_get_entity_id jid : keeps_sources (_get_entity_id_from_jid hass jid).
Proof. unfold _get_entity_id_from_jid. keeps. Qed.

Lemma keeps_listeners_loop listeners peers members names :
  keeps_sources (listeners_loop hass listeners peers members names).
Proof.
  revert members names. induction listeners as [|l ls IH]; intros; simpl.
  - apply keeps_ret.
  - apply keeps_bind; [apply keeps_get_entity_id | intros; apply IH].
Qed.

Lemma keeps_update_artwork : keeps_sources _update_artwork.
Proof. unfold _update_artwork. keeps. Qed.

Lemma keeps_update_beolink : keeps_sources (_update_beolink hass client).
Proof.
  unfold _update_beolink, request_get, send_request. keeps;
    try apply keeps_get_entity_id; try apply keeps_listeners_loop; keeps.
Qed.

Lemma keeps_update_bluetooth : keeps_sources (_update_bluetooth client).
Proof. unfold _update_bluetooth, request_get, send_request. keeps. Qed.

Ltac keeps_init :=
  unfold request_get, send_request, log, async_write_ha_state; cbv zeta;
  repeat first
    [ apply keeps_update_artwork
    | apply keeps_update_beolink
    | apply keeps_update_bluetooth
    | keeps_step ].

Lemma store_sources_loop (sources : list Source) (w : world) :
  for_each sources
    (fun source =>
       if relevant_source source
       then bind (assign (fun e => set_source_list
                                     (_source_list e ++ [source_id source]) e))
              (fun _ =>
                 assign (fun e => set_source_list_friendly
                                    (_source_list_friendly e ++ [source_name source])
                                    e))
       else ret tt) w
  = (Ok tt, mkWorld (fold_left store_source sources (ent w)) (trace w)).
Proof.
  revert w. induction sources as [|source sources IH]; intros [e events]; simpl.
  - reflexivity.
  - unfold bind at 1, store_source.
    destruct (relevant_source source); cbn; rewrite IH; reflexivity.
Qed.

Lemma stored_sources (sources : list Source) (e : MediaPlayer) :
  _source_list (fold_left store_source sources e)
  = (_source_list e ++ map source_id (filter relevant_source sources))%list
  /\ _source_list_friendly (fold_left store_source sources e)
     = (_source_list_friendly e
        ++ map source_name (filter relevant_source sources))%list.
Proof.
  revert e. induction sources as [|source sources IH]; intros e; simpl.
  - now rewrite !app_nil_r.
  - unfold store_source at 2 4.
    destruct (relevant_source source); [|apply IH].
    destruct (IH (set_source_list_friendly
                    (_source_list_friendly e ++ [source_name source])
                    (set_source_list (_source_list e ++ [source_id source]) e)))
      as [H1 H2].
    rewrite H1, H2. cbn. now rewrite <- !app_assoc.
Qed.

(** When the sources request of initialization fails, it has been made
    once.  When it raises [ValueError] the failure is logged
    as a warning and recovered from: the enabled, non-hidden entries of
    [FALLBACK_SOURCES] are stored as the sources and initialization goes on
    to set the volume settings.  Any other exception leaves initialization
    with the source lists untouched. *)
Theorem init_sources_failure (status : SoftwareUpdateStatus) (me : BeolinkSelf)
    (error : exn) (w : world) :
  softwareupdate_status client = Ok status ->
  beolink_self client = Ok me ->
  available_sources client = Raise error ->
  let r := bangolufsen_init hass client w in
  count is_sources_request (trace (snd r))
  = S (count is_sources_request (trace w))
  /\ (isinstance error ValueError = true ->
      In (Logged LogWarning fallback_warning) (trace (snd r))
      /\ In (Request (set_volume_settings (_default_volume (entry (ent w)))
                        (_max_volume (entry (ent w)))))
            (trace (snd r))
      /\ _source_list (ent (snd r))
         = (_source_list (ent w)
            ++ map source_id (filter relevant_source FALLBACK_SOURCES))%list
      /\ _source_list_friendly (ent (snd r))
         = (_source_list_friendly (ent w)
            ++ map source_name (filter relevant_source FALLBACK_SOURCES))%list)
  /\ (isinstance error ValueError = false ->
      fst r = Raise error
      /\ _source_list (ent (snd r)) = _source_list (ent w)
      /\ _source_list_friendly (ent (snd r)) = _source_list_friendly (ent w)).
Proof.
  intros Hstatus Hme Herror. cbv zeta.
  change (post (bangolufsen_init hass client) w
            (fun r w' =>
               count is_sources_request (trace w')
               = S (count is_sources_request (trace w))
               /\ (isinstance error ValueError = true ->
                   In (Logged LogWarning fallback_warning) (trace w')
                   /\ In (Request (set_volume_settings
                                     (_default_volume (entry (ent w)))
                                     (_max_volume (entry (ent w)))))
                         (trace w')
                   /\ _source_list (ent w')
                      = (_source_list (ent w)
                         ++ map source_id (filter relevant_source FALLBACK_SOURCES))%list
                   /\ _source_list_friendly (ent w')
                      = (_source_list_friendly (ent w)
                         ++ map source_name
                              (filter relevant_source FALLBACK_SOURCES))%list)
               /\ (isinstance error ValueError = false ->
                   r = Raise error
                   /\ _source_list (ent w') = _source_list (ent w)
                   /\ _source_list_friendly (ent w')
                      = _source_list_friendly (ent w)))).
  unfold bangolufsen_init.
  apply post_bind, post_request_get. rewrite Hstatus.
  apply post_bind, post_assign.
  apply post_bind, post_self.
  apply post_bind. cbn [ent trace].
  assert (Hcount : forall events more,
             count is_sources_request more = 1%nat ->
             count is_sources_request (events ++ more)
             = S (count is_sources_request events)).
  { intros events more H. rewrite count_app, H. lia. }
  match goal with
  | |- post (match ?x with _ => _ end) _ _ => destruct x as [device|]
  end;
    [match goal with
     | |- post (if ?b then _ else _) _ _ => destruct b
     end|];
    (apply post_ret || apply post_emit);
    (apply post_bind, post_emit);
    (apply post_bind, post_request_get; rewrite Hme);
    (apply post_bind, post_assign);
    (apply post_bind, post_try_except, post_request_get; rewrite Herror);
    unfold is_value_error; cbn [ent trace];
    (destruct (isinstance error ValueError) eqn:Hvalue;
     [ apply post_bind, post_emit; apply post_ret;
       apply post_bind; unfold post at 1; rewrite store_sources_loop;
       cbn [fst snd ent trace];
       apply post_bind, post_emit; cbn [ent trace];
       apply post_keeps; [keeps_init|];
       intros r w' (Hl & Hf & Hc & more & Ht); cbn [ent trace] in *;
       match type of Hl with
       | _ = _source_list (fold_left store_source _ ?e) =>
           destruct (stored_sources FALLBACK_SOURCES e) as [Hl' Hf']
       end;
       rewrite Hl' in Hl; rewrite Hf' in Hf; cbn [_source_list
         _source_list_friendly set_friendly_name set_software_status] in Hl, Hf;
       split; [|split; [intros _|discriminate]];
       [ rewrite Hc, <- !app_assoc; apply Hcount; reflexivity
       | split; [|split; [|split; assumption]];
         rewrite Ht; apply in_or_app; left;
         repeat (apply in_or_app; cbn; tauto || left) ]
     | split; [|split; [discriminate|intros _; repeat split]];
       rewrite <- !app_assoc; apply Hcount; reflexivity ]).
Qed.

Lemma surfaces_quiet {A} (c : M A) :
  (forall w, exists more, trace (snd (c w)) = (trace w ++ more)%list
                          /\ Forall (fine client) more) ->
  surfaces client c.
Proof.
  intros H w. destruct (H w) as (more & Ht & Hfine).
  exists more. split; [exact Ht | left; exact Hfine].
Qed.

Lemma surfaces_still {A} (c : M A) :
  (forall w, trace (snd (c w)) = trace w) -> surfaces client c.
Proof.
  intros H. apply surfaces_quiet. intros w. exists [].
  rewrite H, app_nil_r. split; [reflexivity | constructor].
Qed.

Lemma surfaces_ret {A} (a : A) : surfaces client (ret a).
Proof. now apply surfaces_still. Qed.

Lemma surfaces_raise {A} (e : exn) : surfaces client (@raise F A e).
Proof. now apply surfaces_still. Qed.

Lemma surfaces_lift {A} (o : outcome A) : surfaces client (lift o).
Proof. now apply surfaces_still. Qed.

Lemma surfaces_self : surfaces client self.
Proof. now apply surfaces_still. Qed.

Lemma surfaces_assign (f : MediaPlayer -> MediaPlayer) :
  surfaces client (assign f).
Proof. now apply surfaces_still. Qed.

Lemma surfaces_emit (ev : event) :
  fine client ev -> surfaces client (emit ev).
Proof.
  intros H. apply surfaces_quiet. intros w. exists [ev].
  split; [reflexivity | now constructor].
Qed.

Lemma surfaces_bind {A B} (c : M A) (k : A -> M B) :
  surfaces client c -> (forall a, surfaces client (k a)) ->
  surfaces client (bind c k).
Proof.
  intros Hc Hk w. unfold bind. specialize (Hc w).
  destruct (c w) as [[a|e] w1].
  2: { destruct Hc as (more & Ht & Hcase). exists more. split; [exact Ht|].
       destruct Hcase as [Hfine|(before & r & error & Hm & Hb & Hfail & Hr)];
         [now left|].
       right. exists before, r, error. cbn in Hr. inversion Hr; subst.
       repeat split; auto. }
  destruct Hc as (more1 & Ht1 & [Hfine1|(b1 & r1 & e1 & _ & _ & _ & Hr)]);
    [|discriminate Hr].
  cbn [snd] in Ht1.
  destruct (Hk a w1) as (more2 & Ht2 & Hcase).
  exists (more1 ++ more2)%list. split.
  - now rewrite Ht2, Ht1, app_assoc.
  - destruct Hcase as [Hfine2|(b2 & r2 & e2 & -> & Hb2 & Hfail & Hr)].
    + left. apply Forall_app. auto.
    + right. exists (more1 ++ b2)%list, r2, e2.
      rewrite app_assoc. repeat split; auto. apply Forall_app. auto.
Qed.

Lemma surfaces_request_get {A} (r : request) (response : outcome A) :
  failed client r = failure response ->
  surfaces client (request_get r response).
Proof.
  intros H w. exists [Request r]. split.
  - unfold request_get, send_request, bind, emit, lift. cbn.
    destruct response; reflexivity.
  - unfold request_get, send_request, bind, emit, lift. cbn.
    destruct response as [a|error]; cbn in *.
    + left. constructor; [|constructor].
      intros r' error' Heq. inversion Heq; subst. rewrite H. discriminate.
    + right. exists [], r, error. repeat split; auto.
Qed.

Lemma surfaces_for_each {A} (l : list A) (body : A -> M unit) :
  (forall a, surfaces client (body a)) -> surfaces client (for_each l body).
Proof.
  intros H. induction l as [|a l IH]; simpl.
  - apply surfaces_ret.
  - apply surfaces_bind; auto.
Qed.

Lemma fine_other (ev : event) :
  (forall r, ev <> Request r) -> fine client ev.
Proof. intros H r error Heq. now elim (H r). Qed.

Lemma fine_sent (r : request) : failed client r = None -> fine client (Request r).
Proof.
  intros H r' error Heq. inversion Heq; subst. rewrite H. discriminate.
Qed.

Ltac surfaces_step :=
  first
    [ apply surfaces_ret
    | apply surfaces_raise
    | apply surfaces_lift
    | apply surfaces_self
    | apply surfaces_assign
    | apply surfaces_request_get; reflexivity
    | apply surfaces_emit; apply fine_sent; reflexivity
    | apply surfaces_emit; apply fine_other; discriminate
    | apply surfaces_for_each; intros ?
    | apply surfaces_bind; [|intros ?]
    | match goal with
      | |- surfaces _ (match ?x with _ => _ end) => destruct x
      end ].

Ltac surfaces_all :=
  unfold request_get at 0; cbv zeta; repeat surfaces_step.











End Init.

Lemma init_sources_failure_witness :
  count is_sources_request
    (trace (snd (bangolufsen_init Demo.hass (Demo.device ValueError)
                   (Demo.fresh Demo.player))))
  = 1%nat.
Proof.
  exact (proj1 (init_sources_failure Demo.hass (Demo.device ValueError)
                  (mkSoftwareUpdateStatus "1.0")
                  (mkBeolinkSelf "Living" Demo.jid) ValueError
                  (Demo.fresh Demo.player) eq_refl eq_refl eq_refl)).
Defined.



(** ** Artwork *)

Section Artwork.
Context {F : PyFloat}.

Lemma key_width_resolution (first image : Art) (n : Z) :
  art_key first <> None -> key_width image n ->
  image_resolution first image = Ok (Some n).
Proof.
  intros Hfirst (width & height & Hkey & Hx & Hint).
  unfold image_resolution. destruct (art_key first); [|contradiction].
  rewrite Hkey.
  change (width ++ "x" ++ height) with (width ++ String "x" height).
  rewrite (split_head _ _ _ Hx). cbn. now rewrite Hint.
Qed.

Lemma size_rank_resolution (first image : Art) (n : Z) :
  art_key first = None -> art_size first <> None -> size_rank image n ->
  image_resolution first image = Ok (Some n).
Proof.
  intros Hkey Hsize (size & Hs & Hn). unfold image_resolution.
  rewrite Hkey. destruct (art_size first); [|contradiction].
  now rewrite Hs, Hn.
Qed.

(** Under a uniform list the loop appends the rank of every entry. *)
Lemma uniform_resolution first rest rank :
  uniform (first :: rest) rank ->
  forall image n, rank image n -> image_resolution first image = Ok (Some n).
Proof.
  intros Hu. inversion Hu as [art Hall|f r Hkey Hall]; subst; intros image n Hr.
  - apply key_width_resolution; [|exact Hr].
    inversion Hall as [|a l (m & w & h & Hk & _) _]; subst. congruence.
  - apply size_rank_resolution; [exact Hkey| |exact Hr].
    inversion Hall as [|a l (m & sz & Hs & _) _]; subst. congruence.
Qed.

Lemma uniform_ranked art rank :
  uniform art rank -> Forall (fun image => exists n, rank image n) art.
Proof. intros Hu. destruct Hu; assumption. Qed.

Lemma collect_images_ranks first art :
  Forall (fun image => exists n, image_resolution first image = Ok (Some n)) art ->
  forall images,
  exists ranks,
    collect_images first art images = Ok (images ++ ranks)%list
    /\ Forall2 (fun image n => image_resolution first image = Ok (Some n))
         art ranks.
Proof.
  induction 1 as [|image art (n & Hn) _ IH]; intros images; simpl.
  - exists []. rewrite app_nil_r. split; [reflexivity | constructor].
  - rewrite Hn. cbn. destruct (IH (images ++ [n])%list) as (ranks & Hc & Hr).
    exists (n :: ranks). rewrite Hc, <- app_assoc. split; [reflexivity|].
    constructor; assumption.
Qed.

Lemma fold_max_bounds (l : list Z) (n : Z) :
  let m := fold_left Z.max l n in
  In m (n :: l) /\ forall x, In x (n :: l) -> x <= m.
Proof.
  revert n. induction l as [|y l IH]; intros n; simpl.
  - split; [tauto | intros x [<-|[]]; lia].
  - destruct (IH (Z.max n y)) as [Hin Hle]. split.
    + destruct Hin as [Hin|Hin]; [|tauto].
      rewrite <- Hin. destruct (Z.max_spec n y) as [[_ ->]|[_ ->]]; tauto.
    + intros x [<-|[<-|Hx]].
      * specialize (Hle (Z.max n y) (or_introl eq_refl)). lia.
      * specialize (Hle (Z.max n y) (or_introl eq_refl)). lia.
      * apply Hle. simpl. tauto.
Qed.

Lemma index_of_found (x : Z) (l : list Z) :
  In x l -> exists i, index_of Z.eqb x l = Ok i /\ nth_error l i = Some x.
Proof.
  induction l as [|y l IH]; simpl; [contradiction|]. intros Hin.
  destruct (Z.eqb_spec y x) as [->|Hne].
  - exists O. split; reflexivity.
  - destruct Hin as [Heq|Hin]; [contradiction|].
    destruct (IH Hin) as (i & Hi & Hnth). exists (S i).
    rewrite Hi. split; [reflexivity | exact Hnth].
Qed.

Lemma Forall2_nth {A B} (R : A -> B -> Prop) l l' i b :
  Forall2 R l l' -> nth_error l' i = Some b ->
  exists a, nth_error l i = Some a /\ R a b.
Proof.
  intros H. revert i. induction H as [|a b' l l' Hab _ IH]; intros i Hi.
  - destruct i; discriminate.
  - destruct i as [|i]; simpl in *.
    + inversion Hi; subst. eauto.
    + apply IH, Hi.
Qed.

Lemma Forall2_In_l {A B} (R : A -> B -> Prop) l l' a :
  Forall2 R l l' -> In a l -> exists b, In b l' /\ R a b.
Proof.
  induction 1 as [|x y l l' Hxy _ IH]; simpl; [contradiction|].
  intros [<-|Hin]; [eauto|].
  destruct (IH Hin) as (b & Hb & Hr). eauto.
Qed.

(** C10 (amended): when the art list is not empty and uniform (a "WxH" key
    on every entry, or no key on the first entry and a size among small,
    medium and large on every entry), the update stores an element of the
    list whose width, respectively size rank, is the largest of the list;
    when the metadata has no art or an empty art list, it stores an empty
    Art object. *)
Theorem artwork_is_largest :
  (forall e events first rest rank,
      metadata_art (_playback_metadata e) = Some (first :: rest) ->
      uniform (first :: rest) rank ->
      exists image n,
        _update_artwork (mkWorld e events)
        = (Ok tt, mkWorld (set_media_image image e) events)
        /\ In image (first :: rest)
        /\ rank image n
        /\ forall other m, In other (first :: rest) -> rank other m -> m <= n)
  /\ (forall e events,
         metadata_art (_playback_metadata e) = None
         \/ metadata_art (_playback_metadata e) = Some [] ->
         _update_artwork (mkWorld e events)
         = (Ok tt, mkWorld (set_media_image empty_Art e) events)).
Proof.
  split.
  - intros e events first rest rank Hart Hu.
    pose proof (uniform_resolution _ _ _ Hu) as Hres.
    pose proof (uniform_ranked _ _ Hu) as Hall.
    assert (Hall' : Forall (fun image => exists n,
                              image_resolution first image = Ok (Some n))
                      (first :: rest)).
    { eapply Forall_impl; [|exact Hall]. intros a (n & Hn). eauto. }
    destruct (collect_images_ranks first _ Hall' []) as (ranks & Hc & Hr).
    simpl app in Hc.
    destruct ranks as [|n0 ranks]; [inversion Hr|].
    destruct (fold_max_bounds ranks n0) as [Hin Hmax].
    set (largest := fold_left Z.max ranks n0) in *.
    destruct (index_of_found largest (n0 :: ranks) Hin) as (i & Hi & Hnth).
    destruct (Forall2_nth _ _ _ _ _ Hr Hnth) as (image & Himage & Hlargest).
    assert (Hrank : rank image largest).
    { apply nth_error_In in Himage.
      rewrite Forall_forall in Hall. destruct (Hall _ Himage) as (n & Hn).
      rewrite (Hres _ _ Hn) in Hlargest. inversion Hlargest; subst. exact Hn. }
    exists image, largest. split; [|split; [|split]].
    + unfold _update_artwork, bind, self, lift. cbn [ent fst snd].
      rewrite Hart. cbv beta iota. rewrite Hc. cbn [list_max].
      fold largest. rewrite Hi.
      unfold getitem. rewrite Himage. reflexivity.
    + eapply nth_error_In, Himage.
    + exact Hrank.
    + intros other m Hother Hm.
      destruct (Forall2_In_l _ _ _ _ Hr Hother) as (m' & Hm' & Hrm).
      rewrite (Hres _ _ Hm) in Hrm. inversion Hrm; subst. apply Hmax, Hm'.
  - intros e events [H|H]; unfold _update_artwork, bind, self; cbn;
      rewrite H; reflexivity.
Qed.

End Artwork.

Lemma artwork_is_largest_witness :
  exists image n,
    _update_artwork
      (Demo.fresh
         (Demo.with_art
            [mkArt None (Some "100x100") None None None;
             mkArt None (Some "640x640") None None None]))
    = (Ok tt,
       mkWorld
         (set_media_image image
            (Demo.with_art
               [mkArt None (Some "100x100") None None None;
                mkArt None (Some "640x640") None None None])) [])
    /\ key_width image n
    /\ key_width (mkArt None (Some "640x640") None None None) 640
    /\ 640 <= n.
Proof.
  assert (H100 : key_width (mkArt None (Some "100x100") None None None) 100).
  { exists "100", "100". repeat split. }
  assert (H640 : key_width (mkArt None (Some "640x640") None None None) 640).
  { exists "640", "640". repeat split. }
  destruct (proj1 (@artwork_is_largest DecimalFloat.decimal_float)
              (Demo.with_art
                 [mkArt None (Some "100x100") None None None;
                  mkArt None (Some "640x640") None None None])
              [] _ _ key_width eq_refl)
    as (image & n & Hrun & _ & Hrank & Hmax).
  - apply uniform_keys. repeat constructor; eauto.
  - exists image, n. repeat split; try assumption.
    apply (Hmax (mkArt None (Some "640x640") None None None));
      [simpl; tauto | exact H640].
Defined.

(** C10 as stated fails: with a key on one entry and a size on another the
    update raises and the image stored before, which is not in the list,
    stays. *)
Lemma mixed_art_keeps_stale_image :
  ~ stores_listed_image (Demo.fresh (Demo.with_art Demo.mixed_art)).
Proof.
  intros H. specialize (H Demo.mixed_art eq_refl).
  assert (Hin : In (_media_image
                      (ent (snd (_update_artwork
                                   (Demo.fresh (Demo.with_art Demo.mixed_art))))))
                  Demo.mixed_art).
  { apply H; [discriminate|].
    apply Forall_cons; [|apply Forall_cons; [|apply Forall_nil]].
    - left. exists 640, "640", "640". repeat split.
    - right. exists 3, "large". split; reflexivity. }
  vm_compute in Hin. destruct Hin as [Hin|[Hin|[]]]; discriminate.
Qed.

(** ** The config flow *)

Section Flow.
Import ConfigFlow.

Lemma reasons_cases (reason : string) (error : exn) :
  In (reason, error) reasons ->
  (reason = "api_exception" /\ error = ApiException)
  \/ (reason = "client_connector_error" /\ error = ClientConnectorError)
  \/ (reason = "timeout_error" /\ error = TimeoutError).
Proof.
  simpl. intros [H|[H|[H|[]]]]; inversion H; subst; tauto.
Qed.

(** The outcome of the [except] clause with its dict of reasons. *)
Lemma caught_reason (error : exn) (reason : string) :
  (caught error = true /\ reason_of error = Ok reason)
  <-> In (reason, error) reasons.
Proof.
  split.
  - intros [_ H]. destruct error; cbn in H; inversion H; subst; simpl; tauto.
  - intros H. destruct (reasons_cases _ _ H) as [[-> ->]|[[-> ->]|[-> ->]]];
      split; reflexivity.
Qed.

Lemma user_step_result valid configured answer volume input host model fl :
  input_host input = Some host -> input_model input = Some model ->
  valid host = true ->
  let fl' := with_event (get_beolink_self (Some 3))
               (with_handler (set_client (Some host))
                  (with_handler (set_model model)
                     (with_handler (set_host host) fl))) in
  match answer with
  | Raise error =>
      async_step_user valid configured answer volume (Some input) fl
      = (if caught error
         then match reason_of error with
              | Ok reason => Ok (Abort reason)
              | Raise e => Raise e
              end
         else Raise error, fl')
  | Ok me =>
      forall reason error,
        In (reason, error) reasons ->
        fst (async_step_user valid configured answer volume (Some input) fl)
        <> Ok (Abort reason)
  end.
Proof.
  intros Hh Hm Hv. cbv zeta. unfold async_step_user. rewrite Hh, Hm, Hv.
  cbn [negb]. destruct answer as [me|error].
  - intros reason error Hin.
    destruct (serial_number_of_jid (self_jid me)) as [serial|e];
      [|discriminate].
    destruct (reasons_cases _ _ Hin) as [[-> _]|[[-> _]|[-> _]]];
      unfold async_step_confirm; cbn;
      destruct (str_in serial configured); cbn; discriminate.
  - destruct (caught error); [destruct (reason_of error)|]; reflexivity.
Qed.

(** For an exception whose class is exactly one of the three: with the
    request made (a host that is a valid address and a
    model given), the user step aborts with "api_exception",
    "client_connector_error" or "timeout_error" exactly when
    [get_beolink_self], asked with a timeout of 3 seconds, raises an
    exception of class ApiException, ClientConnectorError or TimeoutError
    respectively; the options step does so for [get_volume_settings].  An
    abort creates no entry and sets neither unique id, JID nor serial
    number: the handler has the host, model and client it was given and
    the one request is all that was made. *)
Theorem steps_abort_on_request_errors :
  (forall valid configured answer volume input host model fl reason error,
      input_host input = Some host -> input_model input = Some model ->
      valid host = true ->
      In (reason, error) reasons ->
      let run := async_step_user valid configured answer volume (Some input) fl in
      (fst run = Ok (Abort reason) <-> answer = Raise error)
      /\ (answer = Raise error ->
          snd run
          = mkFlow (set_client (Some host)
                      (set_model model (set_host host (handler fl))))
              (events fl ++ [get_beolink_self (Some 3)])))
  /\ (forall answer config_entry reason error,
         In (reason, error) reasons ->
         let run := async_step_init answer config_entry None in
         (fst run = Ok (Abort reason) <-> answer = Raise error)
         /\ snd run = [get_volume_settings (Some 3)]).
Proof.
  split.
  - intros valid configured answer volume input host model fl reason error
      Hh Hm Hv Hin. cbv zeta.
    pose proof (user_step_result valid configured answer volume input host
                  model fl Hh Hm Hv) as Hrun. cbv zeta in Hrun.
    destruct answer as [me|raised].
    + split; [split; intros H|discriminate].
      * exfalso. exact (Hrun _ _ Hin H).
      * discriminate.
    + rewrite Hrun. cbn [fst snd]. split; [|intros _; reflexivity].
      split; intros H.
      * destruct (caught raised) eqn:Hc; [|discriminate].
        destruct (reason_of raised) as [r|] eqn:Hr; [|discriminate].
        inversion H; subst r.
        pose proof (proj1 (caught_reason raised reason) (conj Hc Hr)) as Hin'.
        destruct (reasons_cases _ _ Hin) as [[-> ->]|[[-> ->]|[-> ->]]];
          destruct (reasons_cases _ _ Hin') as [[E ->]|[[E ->]|[E ->]]];
          try discriminate E; reflexivity.
      * inversion H; subst raised.
        destruct (proj2 (caught_reason error reason) Hin) as [-> ->].
        reflexivity.
  - intros answer config_entry reason error Hin. cbv zeta.
    unfold async_step_init. destruct answer as [settings|raised]; cbn [fst snd].
    + split; [|reflexivity]. split; discriminate.
    + split; [|destruct (caught raised); [destruct (reason_of raised)|];
               reflexivity].
      split; intros H.
      * destruct (caught raised) eqn:Hc; [|discriminate].
        destruct (reason_of raised) as [r|] eqn:Hr; [|discriminate].
        inversion H; subst r.
        pose proof (proj1 (caught_reason raised reason) (conj Hc Hr)) as Hin'.
        destruct (reasons_cases _ _ Hin) as [[-> ->]|[[-> ->]|[-> ->]]];
          destruct (reasons_cases _ _ Hin') as [[E ->]|[[E ->]|[E ->]]];
          try discriminate E; reflexivity.
      * inversion H; subst raised.
        destruct (proj2 (caught_reason error reason) Hin) as [-> ->].
        reflexivity.
Qed.

(** C2: the [except] clause of both steps catches every instance of
    ApiException, ClientConnectorError and TimeoutError, but the dict of
    reasons is indexed with the exact class of the error.  For an instance
    of a proper subclass of one of the three (the vendor client's
    NotFoundException, say) the step, having made its one request, therefore
    ends in KeyError raised inside the handler, where the claim has it abort
    with the reason of the class; the user step leaves the handler with the
    host, model and client it had assigned. *)
Theorem caught_subclass_raises_key_error :
  forall base name,
    In base [ApiException; ClientConnectorError; TimeoutError] ->
    caught (Subclass base name) = true
    /\ (forall valid configured volume input host model fl,
          input_host input = Some host -> input_model input = Some model ->
          valid host = true ->
          async_step_user valid configured (Raise (Subclass base name)) volume
            (Some input) fl
          = (Raise KeyError,
             mkFlow (set_client (Some host)
                       (set_model model (set_host host (handler fl))))
               (events fl ++ [get_beolink_self (Some 3)])))
    /\ (forall config_entry,
          async_step_init (Raise (Subclass base name)) config_entry None
          = (Raise KeyError, [get_volume_settings (Some 3)])).
Proof.
  intros base name Hbase.
  assert (Hcaught : caught (Subclass base name) = true)
    by (destruct Hbase as [<-|[<-|[<-|[]]]]; reflexivity).
  split; [exact Hcaught|]. split.
  - intros valid configured volume input host model fl Hh Hm Hv.
    unfold async_step_user. rewrite Hh, Hm, Hv. cbn [negb]. rewrite Hcaught.
    reflexivity.
  - intros config_entry. unfold async_step_init. rewrite Hcaught. reflexivity.
Qed.

End Flow.

Lemma steps_abort_on_request_errors_witness :
  fst (ConfigFlow.async_step_user (fun _ => true) [] (Raise TimeoutError)
         (Raise TimeoutError)
         (Some (ConfigFlow.mkUserInput None (Some "192.168.0.2") None None
                  (Some "Beosound Balance") None))
         (ConfigFlow.mkFlow ConfigFlow.new_FlowHandler []))
  = Ok (ConfigFlow.Abort "timeout_error")
  /\ fst (ConfigFlow.async_step_init (Raise ApiException)
            (ConfigFlow.mkConfigEntry "Beosound Balance-33333333" "192.168.0.2"
               "Beosound Balance" Demo.jid) None)
     = Ok (ConfigFlow.Abort "api_exception").
Proof.
  split.
  - apply (proj1 steps_abort_on_request_errors (fun _ => true) []
             (Raise TimeoutError) (Raise TimeoutError)
             (ConfigFlow.mkUserInput None (Some "192.168.0.2") None None
                (Some "Beosound Balance") None)
             "192.168.0.2" "Beosound Balance"
             (ConfigFlow.mkFlow ConfigFlow.new_FlowHandler [])
             "timeout_error" TimeoutError eq_refl eq_refl eq_refl).
    + simpl. tauto.
    + reflexivity.
  - apply (proj2 steps_abort_on_request_errors (Raise ApiException)
             (ConfigFlow.mkConfigEntry "Beosound Balance-33333333"
                "192.168.0.2" "Beosound Balance" Demo.jid)
             "api_exception" ApiException).
    + simpl. tauto.
    + reflexivity.
Defined.

Lemma caught_subclass_raises_key_error_witness :
  fst (ConfigFlow.async_step_user (fun _ => true) []
         (Raise (Subclass ApiException "NotFoundException"))
         (Raise ApiException)
         (Some (ConfigFlow.mkUserInput None (Some "192.168.0.2") None None
                  (Some "Beosound Balance") None))
         (ConfigFlow.mkFlow ConfigFlow.new_FlowHandler []))
  = Raise KeyError
  /\ fst (ConfigFlow.async_step_init
            (Raise (Subclass TimeoutError "ServerTimeoutError"))
            (ConfigFlow.mkConfigEntry "Beosound Balance-33333333" "192.168.0.2"
               "Beosound Balance" Demo.jid) None)
     = Raise KeyError.
Proof.
  split.
  - exact (f_equal fst
             (proj1 (proj2 (caught_subclass_raises_key_error ApiException
                              "NotFoundException" (or_introl eq_refl)))
                (fun _ => true) [] (Raise ApiException)
                (ConfigFlow.mkUserInput None (Some "192.168.0.2") None None
                   (Some "Beosound Balance") None)
                "192.168.0.2" "Beosound Balance"
                (ConfigFlow.mkFlow ConfigFlow.new_FlowHandler [])
                eq_refl eq_refl eq_refl)).
  - exact (f_equal fst
             (proj2 (proj2 (caught_subclass_raises_key_error TimeoutError
                              "ServerTimeoutError"
                              (or_intror (or_intror (or_introl eq_refl)))))
                (ConfigFlow.mkConfigEntry "Beosound Balance-33333333"
                   "192.168.0.2" "Beosound Balance" Demo.jid))).
Defined.

(** A subclass of a caught class is caught as well, but has no reason in
    the dict: the step raises [KeyError]. *)
Lemma subclass_has_no_reason :
  fst (ConfigFlow.async_step_init
         (Raise (Subclass ApiException "NotFoundException"))
         (ConfigFlow.mkConfigEntry "Beosound Balance-33333333" "192.168.0.2"
            "Beosound Balance" Demo.jid) None)
  = Raise KeyError.
Proof. reflexivity. Qed.

(** ** The event platform *)

Section Events.
Import EventPlatform.

Variable DEVICE_BUTTONS : list string.
Variable BEO_REMOTE_KEYS : list string.
Variable BEO_REMOTE_LIGHT_KEYS : list string.
Variable BEO_REMOTE_CONTROL_KEYS : list string.
Variable BEO_REMOTE_SUBMENU_LIGHT : string.
Variable BEO_REMOTE_SUBMENU_CONTROL : string.

Local Abbreviation setup :=
  (async_setup_entry DEVICE_BUTTONS BEO_REMOTE_KEYS BEO_REMOTE_LIGHT_KEYS
     BEO_REMOTE_CONTROL_KEYS BEO_REMOTE_SUBMENU_LIGHT BEO_REMOTE_SUBMENU_CONTROL).

Lemma no_proximity_among {A} (f : A -> EventEntity) (l : list A) :
  (forall a, is_proximity (f a) = false) ->
  filter is_proximity (map f l) = [].
Proof.
  intros H. induction l as [|a l IH]; simpl; [reflexivity|].
  now rewrite H.
Qed.

Lemma supported_model (model : string) :
  str_in model BangOlufsenModelSupport_PROXIMITY_SENSOR = true
  <-> In model PROXIMITY_SENSOR.
Proof.
  unfold BangOlufsenModelSupport_PROXIMITY_SENSOR, str_in.
  rewrite existsb_exists. split.
  - intros (x & Hin & Heq). apply String.eqb_eq in Heq. now subst.
  - intros Hin. exists model. split; [exact Hin | apply String.eqb_refl].
Qed.

(** The proximity entities among those a run of setup adds: one for a
    supporting model when setup gets to add entities, none otherwise. *)
Lemma proximity_entities_added model unique_id remotes :
  proximity_entities (added_entities (setup model unique_id remotes))
  = match fst (setup model unique_id remotes) with
    | Ok _ => if str_in model BangOlufsenModelSupport_PROXIMITY_SENSOR
              then 1%nat else 0%nat
    | Raise _ => 0%nat
    end.
Proof.
  unfold async_setup_entry, proximity_entities, added_entities.
  destruct remotes as [[|remote remotes]|e]; [| |reflexivity].
  - cbn [fst snd flat_map]. rewrite app_nil_r.
    destruct (str_in model BangOlufsenModelSupport_PROXIMITY_SENSOR);
      rewrite ?filter_app, no_proximity_among by reflexivity; reflexivity.
  - destruct (assert_str (remote_serial_number remote)) as [serial|];
      [|reflexivity].
    destruct (assert_str unique_id) as [uid|]; [|reflexivity].
    cbn [fst snd flat_map]. rewrite app_nil_r.
    destruct (str_in model BangOlufsenModelSupport_PROXIMITY_SENSOR);
      rewrite !filter_app, !no_proximity_among by reflexivity; reflexivity.
Qed.

Lemma setup_runs model unique_id remotes :
  setup_completes unique_id remotes = true ->
  fst (setup model unique_id remotes) = Ok tt.
Proof.
  unfold setup_completes, async_setup_entry, assert_str.
  destruct remotes as [[|remote remotes]|e]; [reflexivity| |discriminate].
  destruct (remote_serial_number remote) as [serial|]; [|discriminate].
  destruct (String.eqb serial ""); [discriminate|].
  destruct unique_id as [uid|]; [|discriminate].
  destruct (String.eqb uid ""); [discriminate | reflexivity].
Qed.

(** C7: setup of the event platform adds a proximity event entity only for
    the models BeoLab 28, Beosound 2 3rd Gen, Beosound Balance, Beosound
    Level and Beosound Theatre, and when it runs to its end it adds exactly
    one for each of them; for every other model, the other compatible ones
    among them, it adds none. *)
Theorem proximity_entity_iff_supported model unique_id remotes :
  let added := added_entities (setup model unique_id remotes) in
  (In BangOlufsenEventProximity added ->
   In model ["BeoLab 28"; "Beosound 2 3rd Gen"; "Beosound Balance";
             "Beosound Level"; "Beosound Theatre"])
  /\ (setup_completes unique_id remotes = true ->
      fst (setup model unique_id remotes) = Ok tt
      /\ (In model ["BeoLab 28"; "Beosound 2 3rd Gen"; "Beosound Balance";
                    "Beosound Level"; "Beosound Theatre"] ->
          proximity_entities added = 1%nat)
      /\ (~ In model ["BeoLab 28"; "Beosound 2 3rd Gen"; "Beosound Balance";
                      "Beosound Level"; "Beosound Theatre"] ->
          proximity_entities added = 0%nat)).
Proof.
  cbv zeta.
  pose proof (proximity_entities_added model unique_id remotes) as Hcount.
  change ["BeoLab 28"; "Beosound 2 3rd Gen"; "Beosound Balance";
          "Beosound Level"; "Beosound Theatre"] with PROXIMITY_SENSOR.
  split.
  - intros Hin. apply supported_model.
    assert (Hpos : proximity_entities
                     (added_entities (setup model unique_id remotes)) <> 0%nat).
    { unfold proximity_entities. intros Hzero.
      apply length_zero_iff_nil in Hzero.
      assert (Hf : In BangOlufsenEventProximity
                     (filter is_proximity
                        (added_entities (setup model unique_id remotes)))).
      { apply filter_In. split; [exact Hin | reflexivity]. }
      rewrite Hzero in Hf. exact Hf. }
    rewrite Hcount in Hpos.
    destruct (fst (setup model unique_id remotes)); [|contradiction].
    destruct (str_in model BangOlufsenModelSupport_PROXIMITY_SENSOR);
      [reflexivity | contradiction].
  - intros Hok. pose proof (setup_runs model _ _ Hok) as Hrun.
    rewrite Hrun in Hcount. split; [exact Hrun|]. split; intros Hm.
    + apply supported_model in Hm. now rewrite Hm in Hcount.
    + destruct (str_in model BangOlufsenModelSupport_PROXIMITY_SENSOR) eqn:Hs;
        [|exact Hcount].
      apply supported_model in Hs. contradiction.
Qed.

End Events.

Lemma proximity_entity_iff_supported_witness :
  proximity_entities
    (EventPlatform.added_entities
       (EventPlatform.async_setup_entry ["PlayPause"; "Next"] ["Blue"] ["Up"] ["Play"]
          "Light" "Control" "Beosound Level" (Some "33333333") (Ok [])))
  = 1%nat
  /\ proximity_entities
       (EventPlatform.added_entities
          (EventPlatform.async_setup_entry ["PlayPause"; "Next"] ["Blue"] ["Up"]
             ["Play"] "Light" "Control" "Beosound Emerge" (Some "33333333")
             (Ok [])))
     = 0%nat.
Proof.
  split.
  - apply (proj2 (proximity_entity_iff_supported ["PlayPause"; "Next"] ["Blue"]
                    ["Up"] ["Play"] "Light" "Control" "Beosound Level"
                    (Some "33333333") (Ok [])) eq_refl).
    simpl. tauto.
  - apply (proj2 (proximity_entity_iff_supported ["PlayPause"; "Next"] ["Blue"]
                    ["Up"] ["Play"] "Light" "Control" "Beosound Emerge"
                    (Some "33333333") (Ok [])) eq_refl).
    simpl. intros H. repeat (destruct H as [H|H]; [discriminate|]). exact H.
Defined.

(** ** The relay from end to end *)

Section RelayEnds.
Context {F : PyFloat}.
Variable hass : Hass.

Lemma call_shape_converted command parameter_type parameter value :
  call_shape command parameter_type parameter value ->
  call_shape command parameter_type value value.
Proof.
  intros H. destruct H as [c p f Hin Hf|p|p|c Hin].
  - apply shape_float; [exact Hin | reflexivity].
  - exact (shape_bool (PBool (py_bool p))).
  - exact (shape_str (PStr (py_str p))).
  - apply shape_none, Hin.
Qed.

Lemma deliver_leader_command (e : MediaPlayer) events command parameter :
  Handlers.deliver hass (_beolink_jid (entry e) ++ "_" ++ BEOLINK_LEADER_COMMAND)
    [PStr command; parameter] (mkWorld e events)
  = async_beolink_leader_command hass command parameter (mkWorld e events).
Proof.
  unfold Handlers.deliver, bind, self. cbn [ent fst snd].
  rewrite String.eqb_refl. reflexivity.
Qed.

(** X1: the signal a listener sends for a well-formed call, delivered to
    the leader it names, is there the call of the media-player method of
    the command, with the converted parameter. *)
Theorem forwarded_command_runs_on_leader
    command parameter value leader listener leading events events' :
  conversion command parameter = Some value ->
  _remote_leader listener = Some leader ->
  _beolink_jid (entry leading) = leader_jid leader ->
  _remote_leader leading = None ->
  exists signal args method,
    async_beolink_leader_command hass command parameter (mkWorld listener events)
    = (Ok tt, mkWorld listener (events ++ [DispatcherSend signal args]))
    /\ local_method hass command value method
    /\ Handlers.deliver hass signal args (mkWorld leading events')
       = method (mkWorld leading events').
Proof.
  intros Hc Hl Hjid Hnone.
  destruct (conversion_shape _ _ _ Hc) as [ty Hs].
  destruct (leader_runs_locally hass _ _ _ _ leading events'
              (call_shape_converted _ _ _ _ Hs) Hnone) as (method & Hm & Hrun).
  exists (leader_jid leader ++ "_" ++ BEOLINK_LEADER_COMMAND),
    [PStr command; value], method.
  split; [|split].
  - exact (leader_forwards hass _ _ _ _ _ _ _ Hs Hl).
  - exact Hm.
  - rewrite <- Hjid, deliver_leader_command. exact Hrun.
Qed.

Lemma is_none_false_of_shape command parameter_type parameter value :
  call_shape command parameter_type parameter value ->
  (parameter = PNone -> value = PNone) ->
  is_none parameter = is_none value.
Proof.
  intros Hshape Hgiven.
  destruct Hshape as [c p f Hin Hf|p|p|c Hin]; try reflexivity;
    destruct p; try reflexivity;
    try (specialize (Hgiven eq_refl); discriminate Hgiven);
    cbn in Hf; discriminate Hf.
Qed.

Lemma listener_loop command parameter_type parameter value (w : world) :
  call_shape command parameter_type parameter value ->
  async_beolink_listener_command hass command parameter w
  = run_command hass command parameter_type parameter w.
Proof.
  intros Hshape.
  destruct Hshape as [c p f Hin Hf|p|p|c Hin];
    try (simpl in Hin; repeat (destruct Hin as [<-|Hin]; [|]);
         try contradiction);
    unfold async_beolink_listener_command; cbn -[run_command];
    unfold bind, ret;
    match goal with
    | |- context [run_command ?h ?c ?t ?p w] =>
        destruct (run_command h c t p w) as [[[]|] ?]
    end; reflexivity.
Qed.

Lemma run_command_method command parameter_type parameter value (w : world) :
  call_shape command parameter_type parameter value ->
  (parameter = PNone -> value = PNone) ->
  exists method,
    local_method hass command value method
    /\ run_command hass command parameter_type parameter w = method w.
Proof.
  intros Hshape Hgiven.
  pose proof (is_none_false_of_shape _ _ _ _ Hshape Hgiven) as Hnone.
  destruct Hshape as [c p f Hin Hf|p|p|c Hin];
    try (simpl in Hin; repeat (destruct Hin as [<-|Hin]; [|]);
         try contradiction);
    (eexists; split; [constructor|]).
  all: unfold run_command; try rewrite Hnone; cbn; rewrite ?Hf; reflexivity.
Qed.

(** X2: the listener command runs a well-formed call (with its parameter
    given when the command takes one) as the media-player method of the
    command on the entity itself, whether or not the entity has a remote
    leader: it is never sent on. *)
Theorem listener_command_runs_locally command parameter value e events :
  conversion command parameter = Some value ->
  (parameter = PNone -> value = PNone) ->
  exists method,
    local_method hass command value method
    /\ async_beolink_listener_command hass command parameter (mkWorld e events)
       = method (mkWorld e events).
Proof.
  intros Hc Hgiven. destruct (conversion_shape _ _ _ Hc) as [ty Hs].
  rewrite (listener_loop _ _ _ _ _ Hs).
  exact (run_command_method _ _ _ _ _ Hs Hgiven).
Qed.

(** X3: calls that are not well-formed reach neither the device nor the
    dispatcher.  The leader command logs a parameter it cannot convert
    (none, or a string that is no number, for a float command) and returns;
    the listener command passes over a command whose parameter is missing
    and raises [TypeError] for a parameter given to a command that takes
    none. *)
Theorem malformed_calls_reach_nothing :
  (forall command parameter w,
      In command ["set_volume_level"; "media_seek"] ->
      parameter = PNone
      \/ (exists s, parameter = PStr s /\ float_of_str s = None) ->
      async_beolink_leader_command hass command parameter w
      = (Ok tt, mkWorld (ent w) (trace w ++ [Logged LogError "Invalid parameter"])))
  /\ (forall command w,
         In command ["set_volume_level"; "media_seek"; "mute_volume";
                     "select_source"] ->
         async_beolink_listener_command hass command PNone w = (Ok tt, w))
  /\ (forall command parameter w,
         In command ["volume_up"; "volume_down"; "media_play_pause";
                     "media_pause"; "media_play"; "media_stop";
                     "media_next_track"; "media_previous_track"; "toggle"] ->
         is_none parameter = false ->
         async_beolink_listener_command hass command parameter w
         = (Raise TypeError, w)).
Proof.
  split; [|split].
  - intros command parameter w Hin Hp. simpl in Hin.
    destruct Hin as [<-|[<-|[]]];
      (destruct Hp as [->|(s & -> & Hs)];
       unfold async_beolink_leader_command; cbn; rewrite ?Hs; reflexivity).
  - intros command w Hin. simpl in Hin.
    repeat (destruct Hin as [<-|Hin]; [reflexivity|]). contradiction.
  - intros command parameter w Hin Hp. simpl in Hin.
    repeat (destruct Hin as [<-|Hin]; [|]); try contradiction;
      unfold async_beolink_listener_command; cbn; unfold run_command;
      rewrite Hp; destruct parameter; try discriminate Hp; reflexivity.
Qed.

Lemma append_cancel_l (a s t : string) : a ++ s = a ++ t -> s = t.
Proof.
  induction a as [|c a IH]; simpl; intros H; [exact H|].
  inversion H. auto.
Qed.

Lemma deliver_listener_command (e : MediaPlayer) events command parameter :
  Handlers.deliver hass
    (_beolink_jid (entry e) ++ "_" ++ BEOLINK_LISTENER_COMMAND)
    [PStr command; parameter] (mkWorld e events)
  = async_beolink_listener_command hass command parameter (mkWorld e events).
Proof.
  unfold Handlers.deliver, bind, self. cbn [ent fst snd].
  replace (String.eqb (_beolink_jid (entry e) ++ "_" ++ BEOLINK_LISTENER_COMMAND)
             (_beolink_jid (entry e) ++ "_" ++ BEOLINK_LEADER_COMMAND))
    with false.
  - rewrite String.eqb_refl. reflexivity.
  - symmetry. apply String.eqb_neq. intros H.
    apply append_cancel_l in H. discriminate H.
Qed.

Lemma deliver_volume (e : MediaPlayer) events volume_level :
  Handlers.deliver hass (_beolink_jid (entry e) ++ "_" ++ BEOLINK_VOLUME)
    [PStr volume_level] (mkWorld e events)
  = async_beolink_set_volume volume_level (mkWorld e events).
Proof.
  unfold Handlers.deliver, bind, self. cbn [ent fst snd].
  replace (String.eqb (_beolink_jid (entry e) ++ "_" ++ BEOLINK_VOLUME)
             (_beolink_jid (entry e) ++ "_" ++ BEOLINK_LEADER_COMMAND))
    with false.
  - replace (String.eqb (_beolink_jid (entry e) ++ "_" ++ BEOLINK_VOLUME)
               (_beolink_jid (entry e) ++ "_" ++ BEOLINK_LISTENER_COMMAND))
      with false.
    + rewrite String.eqb_refl. reflexivity.
    + symmetry. apply String.eqb_neq. intros H.
      apply append_cancel_l in H. discriminate H.
  - symmetry. apply String.eqb_neq. intros H.
    apply append_cancel_l in H. discriminate H.
Qed.

(** What set volume does on a leader, for a level that reads as a finite
    number. *)
Lemma set_volume_on_leader volume_level volume level e events :
  _remote_leader e = None ->
  py_float (PStr volume_level) = Ok volume ->
  int_of_float (float_mul_int volume 100) = Ok level ->
  async_beolink_set_volume volume_level (mkWorld e events)
  = (Ok tt,
     mkWorld e
       (events ++ Request (set_current_volume_level level)
          :: map (fun l => DispatcherSend (listener_channel (listener_jid l))
                             [PStr "set_volume_level"; PStr volume_level])
               (_beolink_listeners e))).
Proof.
  intros Hl Hf Hint.
  unfold async_beolink_set_volume, async_set_volume_level, bind, lift,
    self, send_request, emit.
  cbn -[py_float for_each]. rewrite Hl, Hf, Hint. cbn -[for_each].
  rewrite for_each_send, <- app_assoc. reflexivity.
Qed.

Lemma listener_sets_level volume_level volume level e events :
  py_float (PStr volume_level) = Ok volume ->
  int_of_float (float_mul_int volume 100) = Ok level ->
  async_beolink_listener_command hass "set_volume_level" (PStr volume_level)
    (mkWorld e events)
  = (Ok tt, mkWorld e (events ++ [Request (set_current_volume_level level)])).
Proof.
  intros Hf Hint. unfold async_beolink_listener_command. cbn -[py_float].
  unfold run_command, bind, lift. cbn -[py_float].
  unfold py_call, obind. rewrite Hf. cbn.
  unfold async_set_volume_level, bind, lift. rewrite Hint. reflexivity.
Qed.

(** X4: the level a leader requests for itself is the level every
    listener of its list requests when the signal sent to it is delivered:
    the group ends up on one level. *)
Theorem group_volume_is_uniform
    volume_level volume level leading listening l events events' :
  _remote_leader leading = None ->
  In l (_beolink_listeners leading) ->
  _beolink_jid (entry listening) = listener_jid l ->
  py_float (PStr volume_level) = Ok volume ->
  int_of_float (float_mul_int volume 100) = Ok level ->
  exists sent,
    async_beolink_set_volume volume_level (mkWorld leading events)
    = (Ok tt,
       mkWorld leading
         (events ++ Request (set_current_volume_level level) :: sent))
    /\ (exists args,
          In (DispatcherSend (listener_channel (listener_jid l)) args) sent)
    /\ forall args,
         In (DispatcherSend (listener_channel (listener_jid l)) args) sent ->
         Handlers.deliver hass (listener_channel (listener_jid l)) args
           (mkWorld listening events')
         = (Ok tt,
            mkWorld listening
              (events' ++ [Request (set_current_volume_level level)])).
Proof.
  intros Hlead Hin Hjid Hf Hint.
  eexists. split; [exact (set_volume_on_leader _ _ _ _ _ Hlead Hf Hint)|].
  split.
  - eexists. apply in_map_iff. exists l. split; [reflexivity | exact Hin].
  - intros args Hargs. apply in_map_iff in Hargs as (l' & Heq & _).
    injection Heq as _ Hargs. subst args. unfold listener_channel.
    rewrite <- Hjid, deliver_listener_command.
    exact (listener_sets_level _ _ _ _ _ Hf Hint).
Qed.

(** X5: set volume on a listener reaches the whole group through its
    leader: the one signal it sends, delivered to the leader, makes the
    leader request the level and send it to each of its listeners. *)
Theorem listener_volume_reaches_group
    volume_level volume level leader listening leading events events' :
  _remote_leader listening = Some leader ->
  _beolink_jid (entry leading) = leader_jid leader ->
  _remote_leader leading = None ->
  py_float (PStr volume_level) = Ok volume ->
  int_of_float (float_mul_int volume 100) = Ok level ->
  exists signal args,
    async_beolink_set_volume volume_level (mkWorld listening events)
    = (Ok tt, mkWorld listening (events ++ [DispatcherSend signal args]))
    /\ Handlers.deliver hass signal args (mkWorld leading events')
       = (Ok tt,
          mkWorld leading
            (events' ++ Request (set_current_volume_level level)
               :: map (fun l => DispatcherSend
                                  (listener_channel (listener_jid l))
                                  [PStr "set_volume_level"; PStr volume_level])
                    (_beolink_listeners leading))).
Proof.
  intros Hl Hjid Hnone Hf Hint.
  exists (leader_jid leader ++ "_" ++ BEOLINK_VOLUME), [PStr volume_level].
  split.
  - unfold async_beolink_set_volume, bind, self. cbn. rewrite Hl. reflexivity.
  - rewrite <- Hjid, deliver_volume.
    exact (set_volume_on_leader _ _ _ _ _ Hnone Hf Hint).
Qed.

End RelayEnds.

Lemma forwarded_command_runs_on_leader_witness :
  exists signal args method,
    async_beolink_leader_command Demo.hass "mute_volume" (PStr "yes")
      (mkWorld Demo.listening [])
    = (Ok tt, mkWorld Demo.listening ([] ++ [DispatcherSend signal args]))
    /\ local_method Demo.hass "mute_volume"
         (@PBool DecimalFloat.decimal_float true) method
    /\ Handlers.deliver Demo.hass signal args (mkWorld Samples.leading [])
       = method (mkWorld Samples.leading []).
Proof.
  exact (forwarded_command_runs_on_leader Demo.hass "mute_volume" (PStr "yes")
           (PBool true) Demo.leader Demo.listening Samples.leading [] []
           eq_refl eq_refl eq_refl eq_refl).
Defined.

Lemma listener_command_runs_locally_witness :
  exists method,
    local_method Demo.hass "media_stop" (@PNone DecimalFloat.decimal_float) method
    /\ async_beolink_listener_command Demo.hass "media_stop" PNone
         (mkWorld Demo.listening [])
       = method (mkWorld Demo.listening []).
Proof.
  exact (listener_command_runs_locally Demo.hass "media_stop" PNone PNone
           Demo.listening [] eq_refl (fun _ => eq_refl)).
Defined.

Lemma malformed_calls_reach_nothing_witness :
  async_beolink_leader_command Demo.hass "media_seek" PNone
    (Demo.fresh Demo.listening)
  = (Ok tt, mkWorld Demo.listening [Logged LogError "Invalid parameter"])
  /\ async_beolink_listener_command Demo.hass "mute_volume" PNone
       (Demo.fresh Demo.player)
     = (Ok tt, Demo.fresh Demo.player)
  /\ async_beolink_listener_command Demo.hass "media_play" (PStr "now")
       (Demo.fresh Demo.player)
     = (Raise TypeError, Demo.fresh Demo.player).
Proof.
  split; [|split].
  - exact (proj1 (malformed_calls_reach_nothing Demo.hass) "media_seek" PNone
             (Demo.fresh Demo.listening) (or_intror (or_introl eq_refl))
             (or_introl eq_refl)).
  - apply (proj1 (proj2 (malformed_calls_reach_nothing Demo.hass))).
    simpl. tauto.
  - apply (proj2 (proj2 (malformed_calls_reach_nothing Demo.hass)));
      [simpl; tauto | reflexivity].
Defined.

Lemma group_volume_is_uniform_witness :
  exists sent,
    async_beolink_set_volume "0.3" (mkWorld Samples.leading [])
    = (Ok tt,
       mkWorld Samples.leading
         ([] ++ Request (set_current_volume_level 30) :: sent))
    /\ (exists args, In (DispatcherSend (listener_channel Demo.jid) args) sent)
    /\ forall args,
         In (DispatcherSend (listener_channel Demo.jid) args) sent ->
         Handlers.deliver Demo.hass (listener_channel Demo.jid) args
           (mkWorld Demo.player [])
         = (Ok tt,
            mkWorld Demo.player ([] ++ [Request (set_current_volume_level 30)])).
Proof.
  exact (@group_volume_is_uniform DecimalFloat.decimal_float Demo.hass
           "0.3" (3 # 10)%Q 30 Samples.leading Demo.player
           (mkBeolinkListener Demo.jid) [] []
           eq_refl (or_introl eq_refl) eq_refl eq_refl eq_refl).
Defined.

Lemma listener_volume_reaches_group_witness :
  exists signal args,
    async_beolink_set_volume "0.3" (mkWorld Demo.listening [])
    = (Ok tt, mkWorld Demo.listening ([] ++ [DispatcherSend signal args]))
    /\ Handlers.deliver Demo.hass signal args (mkWorld Samples.leading [])
       = (Ok tt,
          mkWorld Samples.leading
            ([] ++ Request (set_current_volume_level 30)
               :: map (fun l => DispatcherSend
                                  (listener_channel (listener_jid l))
                                  [PStr "set_volume_level"; PStr "0.3"])
                    (_beolink_listeners Samples.leading))).
Proof.
  exact (@listener_volume_reaches_group DecimalFloat.decimal_float Demo.hass
           "0.3" (3 # 10)%Q 30 Demo.leader Demo.listening Samples.leading [] []
           eq_refl eq_refl eq_refl eq_refl eq_refl).
Defined.

(** ** Playback services *)

Section Playback.
Context {F : PyFloat}.
Variable hass : Hass.

(** X6: whatever the arguments, play media leaves the entity as it was and
    does at most one thing: one request or one log record. *)
Theorem play_media_does_one_thing media_type media_id extra e events :
  exists new,
    snd (async_play_media hass media_type media_id extra (mkWorld e events))
    = mkWorld e (events ++ new)
    /\ (List.length new <= 1)%nat.
Proof.
  assert (Hnothing : exists new : list event,
             mkWorld e events = mkWorld e (events ++ new)
             /\ (List.length new <= 1)%nat).
  { exists []. rewrite app_nil_r. split; [reflexivity | simpl; lia]. }
  unfold async_play_media. unfold bind at 1.
  destruct (is_media_source_id hass media_id).
  - unfold bind at 1, lift.
    destruct (async_resolve_media hass media_id) as [url|error];
      [|exact Hnothing].
    cbn [ret fst snd].
    repeat match goal with
           | |- context [if ?b then _ else _] => destruct b
           end;
      unfold try_except, bind, lift, media_extra;
      destruct extra; cbn;
      first [ exact Hnothing
            | eexists; split; [reflexivity | simpl; lia] ].
  - cbn [ret fst snd].
    repeat match goal with
           | |- context [if ?b then _ else _] => destruct b
           end;
      unfold try_except, bind, lift, media_extra;
      destruct extra; cbn;
      first [ exact Hnothing
            | eexists; split; [reflexivity | simpl; lia] ].
Qed.

(** X7: for a media id that is no media-source id, the valid media types
    radio, provider, music and channel are passed over without a request
    or a log record; a Deezer flow, playlist or album played without the
    extra argument raises [KeyError] with nothing sent, while any other
    Deezer id is queued as a track whatever the extra argument. *)
Theorem play_media_edges media_id :
  is_media_source_id hass media_id = false ->
  (forall media_type extra w,
      In media_type ["radio"; "provider"; "music"; "channel"] ->
      async_play_media hass media_type media_id extra w = (Ok tt, w))
  /\ (forall w,
         media_id = "flow"
         \/ existsb (fun m => contains m media_id) ["playlist"; "album"] = true ->
         async_play_media hass "deezer" media_id None w = (Raise KeyError, w))
  /\ (forall extra w,
         media_id <> "flow" ->
         existsb (fun m => contains m media_id) ["playlist"; "album"] = false ->
         async_play_media hass "deezer" media_id extra w
         = (Ok tt,
            mkWorld (ent w)
              (trace w ++ [Request (add_to_queue
                                      (mkPlayQueueItem "deezer" (PInt 0) "track"
                                         media_id))]))).
Proof.
  intros Hid. split; [|split].
  - intros media_type extra w Hin. unfold async_play_media, bind.
    rewrite Hid. simpl in Hin.
    repeat (destruct Hin as [<-|Hin]; [reflexivity|]). contradiction.
  - intros w Hflow. unfold async_play_media, bind, try_except.
    rewrite Hid. cbn -[String.eqb existsb].
    destruct (String.eqb_spec media_id "flow") as [->|Hne]; [reflexivity|].
    destruct Hflow as [Hflow|Hflow]; [contradiction|].
    rewrite Hflow. reflexivity.
  - intros extra w Hne Hplain. unfold async_play_media, bind, try_except.
    rewrite Hid. cbn -[String.eqb existsb].
    destruct (String.eqb_spec media_id "flow") as [->|_]; [contradiction|].
    rewrite Hplain. reflexivity.
Qed.

(** X8: seek reaches the device only when the source is Deezer.  With
    another source it logs and changes nothing; with Deezer and a finite
    position it requests the position in milliseconds, then stores the
    time and the position in seconds and writes the state; a position that
    has no integer raises before anything is sent. *)
Theorem seek_only_on_deezer position e events :
  (source e <> Some SourceEnum.deezer ->
   async_media_seek hass position (mkWorld e events)
   = (Ok tt,
      mkWorld e (events ++ [Logged LogError
                              "Seeking is currently only supported when using Deezer"])))
  /\ (source e = Some SourceEnum.deezer ->
      (forall position_ms seconds,
          int_of_float (float_mul_int position 1000) = Ok position_ms ->
          int_of_float position = Ok seconds ->
          async_media_seek hass position (mkWorld e events)
          = (Ok tt,
             mkWorld
               (set_playback_progress (mkPlaybackProgress (Some seconds) None)
                  (set_last_update (utcnow hass) e))
               (events ++ [Request (seek_to_position position_ms); StateWritten])))
      /\ (forall error,
             int_of_float (float_mul_int position 1000) = Raise error ->
             async_media_seek hass position (mkWorld e events)
             = (Raise error, mkWorld e events))).
Proof.
  split; [|split].
  - intros Hs. unfold async_media_seek, bind, self. cbn [ent fst snd].
    destruct (source e) as [name|] eqn:Hname; cbn.
    + destruct (String.eqb_spec name SourceEnum.deezer) as [->|_];
        [contradiction | reflexivity].
    + reflexivity.
  - intros position_ms seconds Hms Hsec.
    unfold async_media_seek, bind, self, lift. cbn [ent fst snd].
    rewrite H. cbn. rewrite Hms. cbn. rewrite Hsec. cbn.
    unfold async_write_ha_state, emit. cbn [ent trace].
    rewrite <- app_assoc. reflexivity.
  - intros error Hms.
    unfold async_media_seek, bind, self, lift. cbn [ent fst snd].
    rewrite H. cbn. rewrite Hms. reflexivity.
Qed.

(** X9: after a playback-state notification with any of the eight values,
    play/pause sends exactly one playback command: pause when the state
    stands for playing, play otherwise.  With a state outside the mapping
    it raises [KeyError] and sends nothing. *)
Theorem play_pause_follows_state :
  (forall name s w,
      In (name, s) playback_states ->
      let w' := snd (_update_playback_state name w) in
      async_media_play_pause w'
      = (Ok tt,
         mkWorld (ent w')
           (trace w' ++ [Request (post_playback_command
                                    (if is_playing s then "pause" else "play"))])))
  /\ (forall w, StateEnum (_state (ent w)) = None ->
                async_media_play_pause w = (Raise KeyError, w)).
Proof.
  split.
  - intros name s w Hin. simpl in Hin.
    repeat (destruct Hin as [Hin|Hin]; [inversion Hin; subst; reflexivity|]).
    contradiction.
  - intros w Hnone. unfold async_media_play_pause, bind, self, lift, state.
    cbn [fst snd]. rewrite Hnone. reflexivity.
Qed.

End Playback.

Lemma play_media_edges_witness :
  async_play_media Demo.hass "radio" "8779112938791514" None
    (Demo.fresh Demo.player)
  = (Ok tt, Demo.fresh Demo.player)
  /\ async_play_media Demo.hass "deezer" "flow" None (Demo.fresh Demo.player)
     = (Raise KeyError, Demo.fresh Demo.player).
Proof.
  split.
  - apply (proj1 (play_media_edges Demo.hass "8779112938791514" eq_refl)).
    simpl. tauto.
  - apply (proj1 (proj2 (play_media_edges Demo.hass "flow" eq_refl))).
    left. reflexivity.
Defined.

Lemma seek_only_on_deezer_witness :
  async_media_seek Demo.hass (5 # 2)%Q (mkWorld Samples.on_deezer [])
  = (Ok tt,
     mkWorld
       (set_playback_progress (mkPlaybackProgress (Some 2) None)
          (set_last_update 1000 Samples.on_deezer))
       [Request (seek_to_position 2500); StateWritten])
  /\ async_media_seek Demo.hass (5 # 2)%Q (mkWorld Demo.player [])
     = (Ok tt,
        mkWorld Demo.player
          [Logged LogError
             "Seeking is currently only supported when using Deezer"]).
Proof.
  split.
  - exact (proj1 (proj2 (@seek_only_on_deezer DecimalFloat.decimal_float
                           Demo.hass (5 # 2)%Q Samples.on_deezer []) eq_refl)
             2500 2 eq_refl eq_refl).
  - apply (proj1 (@seek_only_on_deezer DecimalFloat.decimal_float
                    Demo.hass (5 # 2)%Q Demo.player [])).
    discriminate.
Defined.

Lemma play_pause_follows_state_witness :
  async_media_play_pause
    (snd (_update_playback_state "paused" (Demo.fresh Demo.player)))
  = (Ok tt,
     mkWorld (set_state "paused" (set_playback_state "paused" Demo.player))
       [StateWritten; Request (post_playback_command "play")]).
Proof.
  apply (proj1 play_pause_follows_state "paused" PAUSED (Demo.fresh Demo.player)).
  simpl. tauto.
Defined.

(** ** Initialization, step by step *)

Section Through.
Context {F : PyFloat}.
Variable hass : Hass.
Variable client : Device.

(** A relation between worlds that every step of initialization before
    the start of the listener goes along with. *)
Variable R : world -> world -> Prop.
Hypothesis R_refl : forall w, R w w.
Hypothesis R_trans : forall a b c, R a b -> R b c -> R a c.
Hypothesis R_emit :
  forall ev w, ev <> ListenerStarted -> R w (mkWorld (ent w) (trace w ++ [ev])).
Hypothesis R_assign :
  forall f w,
    (forall e, _source_list (f e) = _source_list e
               /\ _source_list_friendly (f e) = _source_list_friendly e) ->
    R w (mkWorld (f (ent w)) (trace w)).
Hypothesis R_store :
  forall sources w,
    R w (mkWorld (fold_left store_source sources (ent w)) (trace w)).

Lemma respects_ret {A} (a : A) : respects R (ret a).
Proof. intros w. apply R_refl. Qed.

Lemma respects_raise {A} (e : exn) : respects R (@raise F A e).
Proof. intros w. apply R_refl. Qed.

Lemma respects_lift {A} (o : outcome A) : respects R (lift o).
Proof. intros w. apply R_refl. Qed.

Lemma respects_self : respects R self.
Proof. intros w. apply R_refl. Qed.

Lemma respects_emit (ev : event) :
  ev <> ListenerStarted -> respects R (emit ev).
Proof. intros H w. apply R_emit, H. Qed.

Lemma respects_assign (f : MediaPlayer -> MediaPlayer) :
  (forall e, _source_list (f e) = _source_list e
             /\ _source_list_friendly (f e) = _source_list_friendly e) ->
  respects R (assign f).
Proof. intros H w. apply R_assign, H. Qed.

Lemma respects_bind {A B} (c : M A) (k : A -> M B) :
  respects R c -> (forall a, respects R (k a)) -> respects R (bind c k).
Proof.
  intros Hc Hk w. unfold bind. specialize (Hc w).
  destruct (c w) as [[a|e] w']; cbn in *; [|exact Hc].
  eapply R_trans; [exact Hc | apply Hk].
Qed.

Lemma respects_try_except {A} (body : M A) (catches : exn -> bool)
    (handler : exn -> M A) :
  respects R body -> (forall e, respects R (handler e)) ->
  respects R (try_except body catches handler).
Proof.
  intros Hb Hh w. unfold try_except. specialize (Hb w).
  destruct (body w) as [[a|e] w']; cbn in *; [exact Hb|].
  destruct (catches e); [|exact Hb].
  eapply R_trans; [exact Hb | apply Hh].
Qed.

Lemma respects_for_each {A} (l : list A) (body : A -> M unit) :
  (forall a, respects R (body a)) -> respects R (for_each l body).
Proof.
  intros H. induction l as [|a l IH]; simpl.
  - apply respects_ret.
  - apply respects_bind; auto.
Qed.

Lemma respects_store (sources : list Source) :
  respects R
    (for_each sources
       (fun source =>
          if relevant_source source
          then bind (assign (fun e => set_source_list
                                        (_source_list e ++ [source_id source]) e))
                 (fun _ =>
                    assign (fun e => set_source_list_friendly
                                       (_source_list_friendly e
                                        ++ [source_name source]) e))
          else ret tt)).
Proof. intros w. rewrite store_sources_loop. apply R_store. Qed.

Ltac respects_step :=
  first
    [ apply respects_ret
    | apply respects_raise
    | apply respects_lift
    | apply respects_self
    | apply respects_store
    | apply respects_emit; discriminate
    | apply respects_assign; intros ?; split; reflexivity
    | apply respects_for_each; intros ?
    | apply respects_try_except; [|intros ?]
    | apply respects_bind; [|intros ?]
    | match goal with
      | |- respects R (match ?x with _ => _ end) => destruct x
      end ].

Ltac respects_all :=
  unfold request_get, send_request, log, async_write_ha_state; cbv zeta;
  repeat respects_step.

Lemma respects_get_entity_id jid : respects R (_get_entity_id_from_jid hass jid).
Proof. unfold _get_entity_id_from_jid. respects_all. Qed.

Lemma respects_listeners_loop listeners peers members names :
  respects R (listeners_loop hass listeners peers members names).
Proof.
  revert members names. induction listeners as [|l ls IH]; intros; simpl.
  - apply respects_ret.
  - apply respects_bind; [apply respects_get_entity_id | intros; apply IH].
Qed.

Lemma respects_update_artwork : respects R _update_artwork.
Proof. unfold _update_artwork. respects_all. Qed.

Lemma respects_update_beolink : respects R (_update_beolink hass client).
Proof.
  unfold _update_beolink. respects_all;
    try apply respects_get_entity_id; try apply respects_listeners_loop;
    respects_all.
Qed.

Lemma respects_update_bluetooth : respects R (_update_bluetooth client).
Proof. unfold _update_bluetooth. respects_all. Qed.

Lemma ends_started_bind {A} (c : M A) (k : A -> M bool) :
  respects R c -> (forall a, ends_started R (k a)) ->
  ends_started R (bind c k).
Proof.
  intros Hc Hk w. unfold bind. specialize (Hc w).
  destruct (c w) as [[a|e] w'] eqn:Hrun; cbn in *; [|exact Hc].
  specialize (Hk a w'). destruct (k a w') as [[b|e] w'']; cbn in *.
  - destruct Hk as (w1 & Hw1 & Hend). exists w1. split; [|exact Hend].
    eapply R_trans; eassumption.
  - eapply R_trans; eassumption.
Qed.

Lemma ends_started_listener :
  ends_started R (bind (emit ListenerStarted) (fun _ => ret true)).
Proof. intros w. cbn. exists w. split; [apply R_refl | reflexivity]. Qed.

(** Initialization goes along with [R] until it starts the listener, which
    is the last thing it does and which it does only when it returns. *)
Lemma init_through : ends_started R (bangolufsen_init hass client).
Proof.
  unfold bangolufsen_init.
  repeat first
    [ apply ends_started_listener
    | apply ends_started_bind;
      [ first [ apply respects_update_artwork
              | apply respects_update_beolink
              | apply respects_update_bluetooth
              | respects_all ]
      | intros ? ] ].
Qed.

End Through.

Section InitFacts.
Context {F : PyFloat}.
Variable hass : Hass.
Variable client : Device.

Lemma quiet_refl (w : world) : quiet w w.
Proof. exists []. split; [now rewrite app_nil_r | intros []]. Qed.

Lemma quiet_trans (a b c : world) : quiet a b -> quiet b c -> quiet a c.
Proof.
  intros (m1 & H1 & N1) (m2 & H2 & N2). exists (m1 ++ m2)%list. split.
  - now rewrite H2, H1, app_assoc.
  - intros Hin. apply in_app_or in Hin as [Hin|Hin]; auto.
Qed.

Lemma quiet_emit (ev : event) (w : world) :
  ev <> ListenerStarted -> quiet w (mkWorld (ent w) (trace w ++ [ev])).
Proof.
  intros Hne. exists [ev]. split; [reflexivity|].
  intros [Heq|[]]. exact (Hne Heq).
Qed.

(** X11: initialization starts the notification listener only when every
    step before has succeeded, and then as its very last act: a run that
    raises has not started it, a run that returns has started it once, at
    the end. *)
Theorem listener_started_only_after_success (w : world) :
  let run := bangolufsen_init hass client w in
  match fst run with
  | Ok _ =>
      exists more,
        trace (snd run) = (trace w ++ more ++ [ListenerStarted])%list
        /\ ~ In ListenerStarted more
  | Raise _ =>
      exists more,
        trace (snd run) = (trace w ++ more)%list /\ ~ In ListenerStarted more
  end.
Proof.
  cbv zeta.
  pose proof (init_through hass client quiet quiet_refl quiet_trans quiet_emit
                (fun f w _ => quiet_refl _) (fun sources w => quiet_refl _) w)
    as H.
  destruct (fst (bangolufsen_init hass client w)); [|exact H].
  destruct H as (w1 & (more & Hmore & Hnot) & Hend).
  exists more. rewrite Hend. cbn [trace]. rewrite Hmore, app_assoc.
  split; [reflexivity | exact Hnot].
Qed.

Lemma aligned_stored (sources : list Source) (e : MediaPlayer) :
  aligned e -> aligned (fold_left store_source sources e).
Proof.
  unfold aligned. intros H. destruct (stored_sources sources e) as [-> ->].
  now rewrite !length_app, !length_map, H.
Qed.

(** X12: initialization keeps the source ids and the friendly names in
    pairs, however far it gets: lists of equal length before it are of
    equal length after it. *)
Theorem init_keeps_sources_aligned (w : world) :
  aligned (ent w) -> aligned (ent (snd (bangolufsen_init hass client w))).
Proof.
  intros Ha.
  assert (Hrefl : forall w, stays_aligned w w) by (intros ? H; exact H).
  assert (Htrans : forall a b c,
             stays_aligned a b -> stays_aligned b c -> stays_aligned a c)
    by (unfold stays_aligned; auto).
  assert (Hassign : forall (f : MediaPlayer -> MediaPlayer) (w : world),
             (forall e, _source_list (f e) = _source_list e
                        /\ _source_list_friendly (f e) = _source_list_friendly e) ->
             stays_aligned w (mkWorld (f (ent w)) (trace w))).
  { intros f w0 Hf H. unfold aligned in *. cbn [ent].
    destruct (Hf (ent w0)) as [-> ->]. exact H. }
  pose proof (init_through hass client stays_aligned Hrefl Htrans
                (fun ev w _ H => H) Hassign
                (fun sources w H => aligned_stored sources _ H) w) as H.
  destruct (fst (bangolufsen_init hass client w)); [|exact (H Ha)].
  destruct H as (w1 & Hw1 & Hend). rewrite Hend. exact (Hw1 Ha).
Qed.

Lemma index_of_listed (x : option string) (l : list (option string)) :
  opt_str_in x l = true ->
  exists i, index_of opt_str_eqb x l = Ok i
            /\ nth_error l i = Some x
            /\ forall j, (j < i)%nat -> nth_error l j <> Some x.
Proof.
  assert (Heqb : forall a b, opt_str_eqb a b = true <-> a = b).
  { intros [a|] [b|]; cbn; split; try discriminate; try reflexivity.
    - intros H. apply String.eqb_eq in H. now subst.
    - intros H. inversion H. apply String.eqb_refl. }
  induction l as [|y l IH]; cbn; [discriminate|].
  destruct (opt_str_eqb y x) eqn:Hy.
  - intros _. exists O. apply Heqb in Hy. subst y.
    repeat split. intros j Hj. lia.
  - assert (Hxy : opt_str_eqb x y = false).
    { destruct (opt_str_eqb x y) eqn:Hxy; [|reflexivity].
      apply Heqb in Hxy. subst y.
      rewrite (proj2 (Heqb x x) eq_refl) in Hy. discriminate. }
    rewrite Hxy. cbn. intros Hin. destruct (IH Hin) as (i & Hi & Hnth & Hfirst).
    exists (S i). rewrite Hi. repeat split; [exact Hnth|].
    intros [|j] Hj; cbn.
    + intros Heq. inversion Heq; subst y.
      rewrite (proj2 (Heqb x x) eq_refl) in Hy. discriminate.
    + apply Hfirst. lia.
Qed.

(** X13: with the two lists in pairs, selecting a listed source never
    raises: it requests the id paired with the first occurrence of the
    name in the friendly list, and changes nothing in the entity. *)
Theorem select_source_requests_paired_id source e events :
  aligned e ->
  opt_str_in (Some source) (_source_list_friendly e) = true ->
  exists i id,
    nth_error (_source_list_friendly e) i = Some (Some source)
    /\ (forall j, (j < i)%nat ->
                  nth_error (_source_list_friendly e) j <> Some (Some source))
    /\ nth_error (_source_list e) i = Some id
    /\ async_select_source source (mkWorld e events)
       = (Ok tt, mkWorld e (events ++ [Request (set_active_source id)])).
Proof.
  intros Ha Hin.
  destruct (index_of_listed _ _ Hin) as (i & Hi & Hnth & Hfirst).
  assert (Hlt : (i < List.length (_source_list e))%nat).
  { rewrite Ha. apply nth_error_Some. rewrite Hnth. discriminate. }
  destruct (nth_error (_source_list e) i) as [id|] eqn:Hid;
    [|apply nth_error_None in Hid; lia].
  exists i, id. repeat split; try assumption.
  unfold async_select_source, bind, self, lift. cbn [ent fst snd].
  rewrite Hin, Hi. cbn. unfold getitem. rewrite Hid. reflexivity.
Qed.

Ltac kept_sources :=
  unfold request_get, send_request, log, async_write_ha_state; cbv zeta;
  repeat first
    [ apply keeps_update_artwork
    | apply keeps_update_beolink
    | apply keeps_update_bluetooth
    | apply keeps_ret
    | apply keeps_raise
    | apply keeps_lift
    | apply keeps_self
    | apply keeps_emit; reflexivity
    | apply keeps_assign; intros ?; split; reflexivity
    | apply keeps_for_each; intros ?
    | apply keeps_bind; [|intros ?]
    | match goal with
      | |- keeps_sources (match ?x with _ => _ end) => destruct x
      end ].

(** X10: when the device answers the sources request, initialization
    stores, in the device's order and whatever happens afterwards, the ids
    and the names of exactly the sources that are enabled and not hidden;
    no hidden id is ever stored. *)
Theorem init_stores_relevant_sources (status : SoftwareUpdateStatus)
    (me : BeolinkSelf) (sources : list Source) (w : world) :
  softwareupdate_status client = Ok status ->
  beolink_self client = Ok me ->
  available_sources client = Ok sources ->
  let w' := snd (bangolufsen_init hass client w) in
  _source_list (ent w')
  = (_source_list (ent w)
     ++ map source_id (filter relevant_source sources))%list
  /\ _source_list_friendly (ent w')
     = (_source_list_friendly (ent w)
        ++ map source_name (filter relevant_source sources))%list
  /\ forall id, In id (map source_id (filter relevant_source sources)) ->
                opt_str_in id HIDDEN_SOURCE_IDS = false.
Proof.
  intros Hstatus Hme Hsources. cbv zeta.
  assert (Hboth : post (bangolufsen_init hass client) w
                    (fun _ w' =>
                       _source_list (ent w')
                       = (_source_list (ent w)
                          ++ map source_id (filter relevant_source sources))%list
                       /\ _source_list_friendly (ent w')
                          = (_source_list_friendly (ent w)
                             ++ map source_name
                                  (filter relevant_source sources))%list)).
  { unfold bangolufsen_init.
    apply post_bind, post_request_get. rewrite Hstatus.
    apply post_bind, post_assign.
    apply post_bind, post_self.
    apply post_bind. cbn [ent trace].
    match goal with
    | |- post (match ?x with _ => _ end) _ _ => destruct x as [device|]
    end;
      [match goal with
       | |- post (if ?b then _ else _) _ _ => destruct b
       end|];
      (apply post_ret || apply post_emit);
      (apply post_bind, post_emit);
      (apply post_bind, post_request_get; rewrite Hme);
      (apply post_bind, post_assign);
      (apply post_bind, post_try_except, post_request_get; rewrite Hsources);
      cbn [ent trace];
      apply post_bind; unfold post at 1; rewrite store_sources_loop;
      cbn [fst snd ent trace];
      (apply post_keeps; [kept_sources|]);
      intros r w' (Hl & Hf & _); cbn [ent trace] in *;
      match type of Hl with
      | _ = _source_list (fold_left store_source _ ?e) =>
          destruct (stored_sources sources e) as [Hl' Hf']
      end;
      rewrite Hl' in Hl; rewrite Hf' in Hf;
      cbn [_source_list _source_list_friendly set_friendly_name
             set_software_status] in Hl, Hf;
      split; assumption. }
  destruct Hboth as [Hl Hf]. split; [exact Hl|]. split; [exact Hf|].
  intros id Hin. apply in_map_iff in Hin as (source & <- & Hin).
  apply filter_In in Hin as [_ Hrel]. unfold relevant_source in Hrel.
  destruct (source_is_enabled source) as [[|]|]; try discriminate.
  now apply negb_true_iff in Hrel.
Qed.

End InitFacts.

Lemma init_stores_relevant_sources_witness :
  _source_list
    (ent (snd (bangolufsen_init Demo.hass
                 (Samples.device
                    [mkSource (Some "spotify") (Some true) (Some false)
                       (Some "Spotify Connect") (Some "spotify");
                     mkSource (Some "bluetooth") (Some true) (Some false)
                       (Some "Bluetooth") (Some "bluetooth");
                     mkSource (Some "tv") (Some false) (Some false)
                       (Some "TV") (Some "tv")])
                 (Demo.fresh Demo.player))))
  = [Some "spotify"].
Proof.
  exact (proj1 (init_stores_relevant_sources Demo.hass
                  (Samples.device
                     [mkSource (Some "spotify") (Some true) (Some false)
                        (Some "Spotify Connect") (Some "spotify");
                      mkSource (Some "bluetooth") (Some true) (Some false)
                        (Some "Bluetooth") (Some "bluetooth");
                      mkSource (Some "tv") (Some false) (Some false)
                        (Some "TV") (Some "tv")])
                  (mkSoftwareUpdateStatus "1.0")
                  (mkBeolinkSelf "Living" Demo.jid) _
                  (Demo.fresh Demo.player) eq_refl eq_refl eq_refl)).
Defined.

Lemma init_keeps_sources_aligned_witness :
  aligned
    (ent (snd (bangolufsen_init Demo.hass (Demo.device ValueError)
                 (Demo.fresh Samples.with_sources)))).
Proof.
  apply (init_keeps_sources_aligned Demo.hass (Demo.device ValueError)
           (Demo.fresh Samples.with_sources)).
  reflexivity.
Defined.

Lemma select_source_requests_paired_id_witness :
  exists i id,
    nth_error (_source_list Samples.with_sources) i = Some id
    /\ async_select_source "Deezer" (Demo.fresh Samples.with_sources)
       = (Ok tt,
          mkWorld Samples.with_sources
            ([] ++ [Request (set_active_source id)])).
Proof.
  destruct (@select_source_requests_paired_id DecimalFloat.decimal_float
              "Deezer" Samples.with_sources [] eq_refl eq_refl)
    as (i & id & _ & _ & Hid & Hrun).
  exists i, id. split; assumption.
Defined.

(** ** Artwork: ties *)

Section ArtworkTies.
Context {F : PyFloat}.

Lemma index_of_first (x : Z) (l : list Z) :
  In x l ->
  exists i, index_of Z.eqb x l = Ok i
            /\ nth_error l i = Some x
            /\ forall j, (j < i)%nat -> nth_error l j <> Some x.
Proof.
  induction l as [|y l IH]; simpl; [contradiction|]. intros Hin.
  destruct (Z.eqb_spec y x) as [->|Hne].
  - exists O. repeat split. intros j Hj. lia.
  - destruct Hin as [Heq|Hin]; [contradiction|].
    destruct (IH Hin) as (i & Hi & Hnth & Hfirst). exists (S i).
    rewrite Hi. repeat split; [exact Hnth|].
    intros [|j] Hj; cbn; [congruence | apply Hfirst; lia].
Qed.

Lemma Forall2_nth_l {A B} (R : A -> B -> Prop) l l' i a :
  Forall2 R l l' -> nth_error l i = Some a ->
  exists b, nth_error l' i = Some b /\ R a b.
Proof.
  intros H. revert i. induction H as [|x y l l' Hxy _ IH]; intros i Hi.
  - destruct i; discriminate.
  - destruct i as [|i]; simpl in *.
    + inversion Hi; subst. eauto.
    + apply IH, Hi.
Qed.

(** X14: among the entries of a uniform art list, the update stores the
    first one of the largest resolution: every entry ranks at most as high,
    and every entry before it ranks strictly lower. *)
Theorem artwork_is_first_largest e events first rest rank :
  metadata_art (_playback_metadata e) = Some (first :: rest) ->
  uniform (first :: rest) rank ->
  exists i image n,
    nth_error (first :: rest) i = Some image
    /\ rank image n
    /\ _update_artwork (mkWorld e events)
       = (Ok tt, mkWorld (set_media_image image e) events)
    /\ forall j other m,
         nth_error (first :: rest) j = Some other -> rank other m ->
         m <= n /\ ((j < i)%nat -> m < n).
Proof.
  intros Hart Hu.
  pose proof (uniform_resolution _ _ _ Hu) as Hres.
  pose proof (uniform_ranked _ _ Hu) as Hall.
  assert (Hall' : Forall (fun image => exists n,
                            image_resolution first image = Ok (Some n))
                    (first :: rest)).
  { eapply Forall_impl; [|exact Hall]. intros a (n & Hn). eauto. }
  destruct (collect_images_ranks first _ Hall' []) as (ranks & Hc & Hr).
  simpl app in Hc.
  destruct ranks as [|n0 ranks]; [inversion Hr|].
  destruct (fold_max_bounds ranks n0) as [Hin Hmax].
  set (largest := fold_left Z.max ranks n0) in *.
  destruct (index_of_first largest (n0 :: ranks) Hin) as (i & Hi & Hnth & Hfirst).
  destruct (Forall2_nth _ _ _ _ _ Hr Hnth) as (image & Himage & Hlargest).
  assert (Hrank : rank image largest).
  { pose proof (nth_error_In _ _ Himage) as Hin'.
    rewrite Forall_forall in Hall. destruct (Hall _ Hin') as (n & Hn).
    rewrite (Hres _ _ Hn) in Hlargest. inversion Hlargest; subst. exact Hn. }
  exists i, image, largest. split; [exact Himage|]. split; [exact Hrank|]. split.
  - unfold _update_artwork, bind, self, lift. cbn [ent fst snd].
    rewrite Hart. cbv beta iota. rewrite Hc. cbn [list_max].
    fold largest. rewrite Hi.
    unfold getitem. rewrite Himage. reflexivity.
  - intros j other m Hother Hm.
    destruct (Forall2_nth_l _ _ _ _ _ Hr Hother) as (m' & Hm' & Hrm).
    rewrite (Hres _ _ Hm) in Hrm. inversion Hrm; subst m'.
    pose proof (Hmax m (nth_error_In _ _ Hm')) as Hle.
    split; [exact Hle|]. intros Hlt.
    destruct (Z.eq_dec m largest) as [->|Hne]; [|lia].
    exfalso. exact (Hfirst j Hlt Hm').
Qed.

End ArtworkTies.

Lemma artwork_is_first_largest_witness :
  exists i image n,
    nth_error
      [mkArt None None None (Some "large") (Some "http://192.168.0.2/a.jpg");
       mkArt None None None (Some "small") None;
       mkArt None None None (Some "large") (Some "http://192.168.0.2/c.jpg")]
      i = Some image
    /\ size_rank image n
    /\ _update_artwork
         (Demo.fresh
            (Demo.with_art
               [mkArt None None None (Some "large")
                  (Some "http://192.168.0.2/a.jpg");
                mkArt None None None (Some "small") None;
                mkArt None None None (Some "large")
                  (Some "http://192.168.0.2/c.jpg")]))
       = (Ok tt,
          mkWorld
            (set_media_image image
               (Demo.with_art
                  [mkArt None None None (Some "large")
                     (Some "http://192.168.0.2/a.jpg");
                   mkArt None None None (Some "small") None;
                   mkArt None None None (Some "large")
                     (Some "http://192.168.0.2/c.jpg")])) []).
Proof.
  destruct (@artwork_is_first_largest DecimalFloat.decimal_float
              (Demo.with_art
                 [mkArt None None None (Some "large")
                    (Some "http://192.168.0.2/a.jpg");
                  mkArt None None None (Some "small") None;
                  mkArt None None None (Some "large")
                    (Some "http://192.168.0.2/c.jpg")])
              [] _ _ size_rank eq_refl)
    as (i & image & n & Hnth & Hrank & Hrun & _).
  - apply uniform_sizes; [reflexivity|].
    apply Forall_cons; [exists 3, "large"; split; reflexivity|].
    apply Forall_cons; [exists 1, "small"; split; reflexivity|].
    apply Forall_cons; [exists 3, "large"; split; reflexivity|].
    apply Forall_nil.
  - exists i, image, n. repeat split; assumption.
Defined.

(** ** Beolink and Bluetooth attributes *)

Section Attributes.
Context {F : PyFloat}.
Variable hass : Hass.
Variable client : Device.

Lemma get_entity_id_pure jid (w : world) :
  _get_entity_id_from_jid hass jid w
  = (obind (serial_number_of_jid jid)
       (fun unique_id => Ok (entity_registry_get_entity_id hass unique_id)), w).
Proof.
  unfold _get_entity_id_from_jid, bind, lift, ret.
  destruct (serial_number_of_jid jid); reflexivity.
Qed.

Lemma listeners_loop_pure listeners peers members names (w : world) :
  exists r, listeners_loop hass listeners peers members names w = (r, w).
Proof.
  revert members names. induction listeners as [|l ls IH]; intros; simpl.
  - eexists. reflexivity.
  - unfold bind at 1. rewrite get_entity_id_pure.
    destruct (serial_number_of_jid (listener_jid l)); cbn; [apply IH|].
    eexists. reflexivity.
Qed.

Lemma listeners_loop_members listeners serials peers members names (w : world) :
  Forall2 (fun l s => serial_number_of_jid (listener_jid l) = Ok s)
    listeners serials ->
  exists names',
    listeners_loop hass listeners peers members names w
    = (Ok ((members ++ map (entity_registry_get_entity_id hass) serials)%list,
           names'), w).
Proof.
  intros H. revert members names.
  induction H as [|l s ls ss Hs _ IH]; intros members names; simpl.
  - exists names. now rewrite app_nil_r.
  - unfold bind at 1. rewrite get_entity_id_pure, Hs. cbn.
    destruct (IH (members ++ [entity_registry_get_entity_id hass s])%list
                (match find_peer (listener_jid l) peers with
                 | Some peer => dict_set (peer_friendly_name peer)
                                  (listener_jid l) names
                 | None => names
                 end)) as (names' & Hrun).
    exists names'. rewrite Hrun, <- app_assoc. reflexivity.
Qed.

(** X15: an update of the Beolink attributes, however far it gets, leaves
    the entity with a Beolink attribute that shows the device itself under
    its friendly name and JID; the extra state attributes are therefore
    never absent afterwards. *)
Theorem update_beolink_shows_self (w : world) :
  let w' := snd (_update_beolink hass client w) in
  (exists a, _beolink_attribute (ent w') = Some a
             /\ attr_self a
                = (_friendly_name (ent w), _beolink_jid (entry (ent w))))
  /\ Handlers.extra_state_attributes (ent w') <> None.
Proof.
  cbv zeta.
  assert (Hshown : forall e : MediaPlayer,
             (exists a, _beolink_attribute e = Some a
                        /\ attr_self a
                           = (_friendly_name (ent w), _beolink_jid (entry (ent w)))) ->
             Handlers.extra_state_attributes e <> None).
  { intros e (a & Ha & _). unfold Handlers.extra_state_attributes.
    rewrite Ha. destruct (_bluetooth_attribute e); discriminate. }
  enough (Hself : exists a,
             _beolink_attribute (ent (snd (_update_beolink hass client w)))
             = Some a
             /\ attr_self a
                = (_friendly_name (ent w), _beolink_jid (entry (ent w))))
    by (split; [exact Hself | exact (Hshown _ Hself)]).
  change (post (_update_beolink hass client) w
            (fun _ w' =>
               exists a, _beolink_attribute (ent w') = Some a
                         /\ attr_self a
                            = (_friendly_name (ent w),
                               _beolink_jid (entry (ent w))))).
  unfold _update_beolink. cbv zeta.
  apply post_bind, post_self.
  apply post_bind, post_assign.
  apply post_bind, post_request_get.
  destruct (beolink_peers client) as [peers|error];
    [|cbn; eexists; split; reflexivity].
  apply post_bind, post_assign.
  apply post_bind, post_assign.
  apply post_bind, post_self.
  apply post_bind. cbn [ent trace].
  assert (Hattr : attr_self
                    match peers with
                    | [] => mkBeolinkAttribute
                              (_friendly_name (ent w), _beolink_jid (entry (ent w)))
                              None None None
                    | _ :: _ => mkBeolinkAttribute
                                  (_friendly_name (ent w),
                                   _beolink_jid (entry (ent w)))
                                  (Some (peers_dict peers)) None None
                    end
                  = (_friendly_name (ent w), _beolink_jid (entry (ent w))))
    by (destruct peers; reflexivity).
  match goal with
  | |- post (if ?b then _ else _) _ _ => destruct b
  end;
    (apply post_assign || apply post_ret);
    apply post_bind, post_self; cbn [ent trace];
    match goal with
    | |- post (match ?x with _ => _ end) _ _ => destruct x as [leader|]
    end;
    try (apply post_bind; unfold post at 1; rewrite get_entity_id_pure;
         cbn [fst snd];
         match goal with
         | |- context [serial_number_of_jid ?j] =>
             destruct (serial_number_of_jid j)
         end; cbn;
         eexists; split; first [reflexivity | exact Hattr]);
    (apply post_bind, post_request_get;
     destruct (beolink_listeners client) as [listeners|error];
     [|cbn; eexists; split; [reflexivity | exact Hattr]];
     apply post_bind, post_assign;
     apply post_bind; unfold post at 1; rewrite get_entity_id_pure;
     cbn [fst snd];
     match goal with
     | |- context [serial_number_of_jid ?j] =>
         destruct (serial_number_of_jid j)
     end; cbn [obind];
     [|cbn; eexists; split; [reflexivity | exact Hattr]];
     destruct listeners as [|l ls];
     [cbn; eexists; split; [reflexivity | exact Hattr]|];
     apply post_bind; unfold post at 1;
     match goal with
     | |- context [listeners_loop ?h ?a ?b ?c ?d ?w0] =>
         destruct (listeners_loop_pure a b c d w0) as ([r|error] & ->)
     end; cbn;
     eexists; split; first [reflexivity | exact Hattr]).
Qed.

End Attributes.

(** ** Beolink group members *)

Section GroupMembers.
Context {F : PyFloat}.
Variable hass : Hass.
Variable client : Device.

(** X16: a device that has no remote leader, or that plays Line-In or the
    audio streamer (where a leader named by the metadata is dropped), asks
    for its listeners after its peers, stores them, and lists as group
    members its own entity followed by the listeners' entities in the order
    of the answer; it is no listener afterwards, so that it reports its
    playback progress. *)
Theorem update_beolink_groups_listeners
    peers listeners own serials e events :
  beolink_peers client = Ok peers ->
  beolink_listeners client = Ok listeners ->
  metadata_remote_leader (_playback_metadata e) = None
  \/ opt_str_in (source e)
       [Some SourceEnum.lineIn; Some SourceEnum.uriStreamer] = true ->
  serial_number_of_jid (_beolink_jid (entry e)) = Ok own ->
  Forall2 (fun l s => serial_number_of_jid (listener_jid l) = Ok s)
    listeners serials ->
  let run := _update_beolink hass client (mkWorld e events) in
  fst run = Ok tt
  /\ trace (snd run)
     = (events ++ [Request get_beolink_peers; Request get_beolink_listeners])%list
  /\ _remote_leader (ent (snd run)) = None
  /\ _beolink_listeners (ent (snd run)) = listeners
  /\ _attr_group_members (ent (snd run))
     = map (entity_registry_get_entity_id hass) (own :: serials)
  /\ Handlers.media_position (ent (snd run)) = progress (_playback_progress e).
Proof.
  intros Hpeers Hlisteners Hleader Hown Hserials. cbv zeta.
  enough (Hrun : exists e',
             _update_beolink hass client (mkWorld e events)
             = (Ok tt,
                mkWorld e'
                  (events ++ [Request get_beolink_peers;
                              Request get_beolink_listeners]))
             /\ _remote_leader e' = None
             /\ _beolink_listeners e' = listeners
             /\ _attr_group_members e'
                = map (entity_registry_get_entity_id hass) (own :: serials)
             /\ _playback_progress e' = _playback_progress e).
  { destruct Hrun as (e' & -> & Hnone & Hls & Hmembers & Hprogress).
    cbn [fst snd ent trace]. unfold Handlers.media_position.
    rewrite Hnone, Hprogress. auto 6. }
  unfold _update_beolink. cbv zeta.
  unfold request_get, send_request.
  unfold bind at 1. unfold self at 1.
  unfold bind at 1. unfold assign at 1.
  unfold bind at 1. unfold bind at 1. unfold emit at 1. unfold lift at 1.
  rewrite Hpeers. cbn [ent trace].
  unfold bind at 1. unfold assign at 1. cbn [ent trace].
  unfold bind at 1. unfold assign at 1. cbn [ent trace].
  unfold bind at 1. unfold self at 1. cbn [ent trace].
  unfold bind at 1.
  match goal with
  | |- context [opt_str_in (source ?x) _] =>
      change (source x) with (source e)
  end.
  assert (Hcleared : forall a,
    exists e1,
      (if opt_str_in (source e)
            [Some SourceEnum.lineIn; Some SourceEnum.uriStreamer]
       then assign (set_remote_leader None) else ret tt)
        (mkWorld
           (set_remote_leader (metadata_remote_leader (_playback_metadata e))
              (set_beolink_attribute a (set_beolink_attribute
                 (Some (mkBeolinkAttribute
                          (_friendly_name e, _beolink_jid (entry e))
                          None None None)) e)))
           (events ++ [Request get_beolink_peers]))
      = (Ok tt, mkWorld e1 (events ++ [Request get_beolink_peers]))
      /\ _remote_leader e1 = None
      /\ entry e1 = entry e
      /\ _playback_progress e1 = _playback_progress e).
  { intros a.
    destruct (opt_str_in (source e)
                [Some SourceEnum.lineIn; Some SourceEnum.uriStreamer]).
    - eexists. split; [reflexivity|]. cbn. auto.
    - destruct Hleader as [Hnone|Hin]; [|discriminate].
      eexists. split; [reflexivity|]. cbn. auto. }
  match goal with
  | |- context [set_beolink_attribute ?a (set_beolink_attribute _ e)] =>
      destruct (Hcleared a) as (e1 & -> & Hnone & Hentry & Hprogress)
  end.
  unfold bind at 1. unfold self at 1. cbn [ent trace]. rewrite Hnone.
  unfold bind at 1. unfold bind at 1. unfold emit at 1. unfold lift at 1.
  rewrite Hlisteners. cbn [ent trace].
  unfold bind at 1. unfold assign at 1. cbn [ent trace].
  unfold bind at 1. rewrite get_entity_id_pure, Hentry, Hown. cbn [obind].
  rewrite <- app_assoc. cbn [app].
  destruct Hserials as [|l s ls ss Hs Hrest].
  - eexists. split; [reflexivity|]. cbn. auto.
  - unfold bind at 1.
    match goal with
    | |- context [listeners_loop hass ?a ?b ?c ?d ?w0] =>
        destruct (listeners_loop_members hass a (s :: ss) b c d w0
                    (Forall2_cons _ _ Hs Hrest)) as (names & ->)
    end.
    eexists. split; [reflexivity|]. cbn. auto.
Qed.

End GroupMembers.

Lemma update_beolink_groups_listeners_witness :
  let run := _update_beolink Demo.hass
               (mkDevice (Ok (mkSoftwareUpdateStatus "1.0"))
                  (Ok (mkBeolinkSelf "Living" (leader_jid Demo.leader)))
                  (Ok []) (Raise ApiException) (Raise ApiException)
                  (Ok []) (Ok [mkBeolinkListener Demo.jid]) (Ok []) (Ok []))
               (mkWorld Samples.leading []) in
  fst run = Ok tt
  /\ trace (snd run)
     = [Request get_beolink_peers; Request get_beolink_listeners]
  /\ _remote_leader (ent (snd run)) = None
  /\ _beolink_listeners (ent (snd run)) = [mkBeolinkListener Demo.jid]
  /\ _attr_group_members (ent (snd run))
     = map (entity_registry_get_entity_id Demo.hass) ["44444444"; "33333333"]
  /\ Handlers.media_position (ent (snd run))
     = progress (_playback_progress Samples.leading).
Proof.
  apply (@update_beolink_groups_listeners DecimalFloat.decimal_float
           Demo.hass _ [] [mkBeolinkListener Demo.jid] "44444444" ["33333333"]
           Samples.leading []).
  - reflexivity.
  - reflexivity.
  - left. reflexivity.
  - reflexivity.
  - constructor; [reflexivity | constructor].
Defined.

(** ** Bluetooth attribute *)

Section Bluetooth.
Context {F : PyFloat}.
Variable client : Device.

Local Abbreviation keep_connected :=
  (fun (found : option (string * string)) device =>
     if bluetooth_connected device
     then Some (bluetooth_name device, bluetooth_address device)
     else found).





End Bluetooth.


(** ** Queue, Beolink and overlay services *)

Section QueueServices.

(** X18: setting the repeat mode either fails with KeyError before anything
    is sent or stored (a name that is no member of RepeatEnum), or sends one
    settings request that carries only the repeat value and stores it, so
    that the [repeat] property then gives back the mode that was set; the
    shuffle setting is not touched. *)
Theorem set_repeat_round_trip (mode : string) (e : MediaPlayer) :
  let run := Services.async_set_repeat mode e in
  match Services.RepeatEnum_of_name mode with
  | None => run = (Raise KeyError, e, [])
  | Some value =>
      fst (fst run) = Ok tt
      /\ snd run
         = [Services.Sent (Services.set_settings_queue (Some value) None)]
      /\ Services.repeat (snd (fst run)) = Ok mode
      /\ Services.shuffle (snd (fst run)) = Services.shuffle e
  end.
Proof.
  cbv zeta. unfold Services.async_set_repeat, Services.RepeatEnum_of_name.
  destruct (String.eqb mode "all") eqn:Hall;
    [apply String.eqb_eq in Hall; subst mode; cbn; auto|].
  destruct (String.eqb mode "one") eqn:Hone;
    [apply String.eqb_eq in Hone; subst mode; cbn; auto|].
  destruct (String.eqb mode "off") eqn:Hoff;
    [apply String.eqb_eq in Hoff; subst mode; cbn; auto|].
  reflexivity.
Qed.

End QueueServices.

Section GroupServices.
Variable check_valid_jid : string -> bool.
Variable registries : Services.Registries.

(** The JIDs found, in order. *)
Lemma collect_jids_found members found jids events :
  Forall2 (fun member jid =>
             Services._get_beolink_jid registries member = Ok jid)
    members found ->
  Services.collect_jids registries members jids events
  = (Ok (jids ++ flat_map (fun jid => match jid with
                                      | Some j => [j]
                                      | None => []
                                      end) found)%list,
     (events
      ++ flat_map (fun jid => match jid with
                              | Some _ => []
                              | None => [Services.Recorded LogWarning
                                           "Error adding %s to group"]
                              end) found)%list).
Proof.
  intros H. revert jids events.
  induction H as [|member jid members found Hjid _ IH]; intros jids events.
  - cbn. now rewrite !app_nil_r.
  - cbn [Services.collect_jids]. rewrite Hjid. destruct jid as [j|].
    + rewrite IH. cbn. now rewrite <- app_assoc.
    + rewrite IH. cbn. now rewrite <- app_assoc.
Qed.

(** X19: joining players whose registry entries can all be read sends
    nothing itself: each member without a JID is logged and skipped, and the
    JIDs of the others, in the order of the members, are handed to the
    expand service, which starts one task making one expand request per JID
    a second apart when all are valid, and otherwise only logs an error; a
    non-empty list of members never falls back to joining the latest
    experience. *)
Theorem join_players_expands_known_members members found :
  members <> [] ->
  Forall2 (fun member jid =>
             Services._get_beolink_jid registries member = Ok jid)
    members found ->
  let jids := flat_map (fun jid => match jid with
                                   | Some j => [j]
                                   | None => []
                                   end) found in
  let skipped := List.length (filter (fun jid => match jid with
                                                 | Some _ => false
                                                 | None => true
                                                 end) found) in
  let run := Services.async_join_players check_valid_jid registries members in
  fst run = Ok tt
  /\ snd run
     = (repeat (Services.Recorded LogWarning "Error adding %s to group") skipped
        ++ [if forallb check_valid_jid jids
            then Services.TaskCreated
                   (flat_map (fun jid =>
                                [Services.TaskSent (Services.post_beolink_expand jid);
                                 Services.TaskPaused 1]) jids)
            else Services.Recorded LogError "Invalid Beolink JID: %s"])%list
  /\ ~ In (Services.Sent Services.join_latest_beolink_experience) (snd run).
Proof.
  intros Hmembers Hfound. cbv zeta.
  assert (Hrun : Services.async_join_players check_valid_jid registries members
                 = (Ok tt,
                    (repeat (Services.Recorded LogWarning
                               "Error adding %s to group")
                       (List.length (filter (fun jid => match jid with
                                                        | Some _ => false
                                                        | None => true
                                                        end) found))
                     ++ Services.async_beolink_expand check_valid_jid
                          (flat_map (fun jid => match jid with
                                                | Some j => [j]
                                                | None => []
                                                end) found))%list)).
  { unfold Services.async_join_players.
    destruct members as [|member members]; [now elim Hmembers|].
    rewrite (collect_jids_found _ _ [] [] Hfound). cbn [app].
    f_equal. f_equal. clear. induction found as [|[j|] found IH]; cbn.
    - reflexivity.
    - exact IH.
    - now rewrite IH. }
  rewrite Hrun. cbn [fst snd].
  unfold Services.async_beolink_expand, Services.all_valid,
    Services._beolink_expand.
  split; [reflexivity|]. split.
  - destruct (forallb check_valid_jid _); reflexivity.
  - intros Hin. apply in_app_or in Hin as [Hin|Hin].
    + apply repeat_spec in Hin. discriminate.
    + destruct (forallb check_valid_jid _); destruct Hin as [Hin|[]];
        discriminate.
Qed.

End GroupServices.

Section OverlayService.
Context {F : PyFloat}.
Variable hass : Hass.

(** X20: whatever it is given, the overlay service makes at most one
    request; a request it makes is an overlay request that carries either a
    URI or a text to speak, never both and never neither, is made only when
    not both volumes and not both a URI and a text were given, and has as
    volume the absolute volume given or else the current level raised by
    the offset but no more than 100. *)
Theorem overlay_sends_one_bounded_request
    uri absolute_volume volume_offset tts tts_language e r :
  let run :=
    Services.async_overlay_audio hass uri absolute_volume volume_offset tts
      tts_language e in
  In (Services.Sent r) (snd run) ->
  snd run = [Services.Sent r]
  /\ fst run = Ok tt
  /\ Services.given_int absolute_volume && Services.given_int volume_offset
     = false
  /\ Services.given_str tts && Services.given_str uri = false
  /\ exists request,
       r = Services.post_overlay_play request
       /\ (Services.overlay_uri request = None
           <-> Services.overlay_text_to_speech request <> None)
       /\ (Services.given_int absolute_volume = true ->
           Services.overlay_volume_absolute request = absolute_volume)
       /\ (Services.given_int absolute_volume = false ->
           forall level, Services.overlay_volume_absolute request = Some level ->
                         level <= 100
                         /\ exists offset,
                              volume_offset = Some offset
                              /\ level
                                 = Z.min (volume_level (_volume e) + offset) 100).
Proof.
  cbv zeta. unfold Services.async_overlay_audio.
  destruct (Services.given_int absolute_volume && Services.given_int volume_offset)
    eqn:Hboth; [cbn; intros [Hr|[]]; discriminate|].
  destruct (Services.given_str tts && Services.given_str uri) eqn:Hmixed;
    [cbn; intros [Hr|[]]; discriminate|].
  assert (Hvolume :
            forall request_uri request_tts,
              (request_uri = None <-> request_tts <> None) ->
              let request :=
                Services.mkOverlayPlayRequest request_uri request_tts
                  (if Services.given_int absolute_volume then absolute_volume
                   else match volume_offset with
                        | Some offset =>
                            if negb (offset =? 0)
                            then Some (Z.min (volume_level (_volume e) + offset)
                                         100)
                            else None
                        | None => None
                        end) in
              In (Services.Sent r)
                [Services.Sent (Services.post_overlay_play request)] ->
              [Services.Sent (Services.post_overlay_play request)]
              = [Services.Sent r]
              /\ Ok tt = Ok tt
              /\ false = false
              /\ false = false
              /\ exists request',
                   r = Services.post_overlay_play request'
                   /\ (Services.overlay_uri request' = None
                       <-> Services.overlay_text_to_speech request' <> None)
                   /\ (Services.given_int absolute_volume = true ->
                       Services.overlay_volume_absolute request'
                       = absolute_volume)
                   /\ (Services.given_int absolute_volume = false ->
                       forall level,
                         Services.overlay_volume_absolute request' = Some level ->
                         level <= 100
                         /\ exists offset,
                              volume_offset = Some offset
                              /\ level
                                 = Z.min (volume_level (_volume e) + offset)
                                     100)).
  { intros request_uri request_tts Hone request [Hr|[]].
    injection Hr as <-.
    split; [reflexivity|]. split; [reflexivity|]. split; [reflexivity|].
    split; [reflexivity|].
    exists request. split; [reflexivity|]. split; [exact Hone|].
    subst request. cbn [Services.overlay_volume_absolute]. split.
    - intros ->. reflexivity.
    - intros ->. intros level Hlevel.
      destruct volume_offset as [offset|]; [|discriminate].
      destruct (negb (offset =? 0)); [|discriminate].
      injection Hlevel as <-. split; [lia|].
      exists offset. split; reflexivity. }
  assert (Huri : forall location : string,
             Some location = None
             <-> @None (option string * string) <> None)
    by (intros location; split; [discriminate | intros H; now elim H]).
  assert (Htts : forall text : option string * string,
             @None string = None <-> Some text <> None)
    by (intros text; split; [discriminate | reflexivity]).
  destruct uri as [media_id|].
  - destruct (negb (String.eqb media_id "")).
    + destruct (is_media_source_id hass media_id).
      * destruct (async_resolve_media hass media_id) as [url|error].
        -- cbn [fst snd]. apply Hvolume, Huri.
        -- cbn. intros [].
      * cbn [fst snd]. apply Hvolume, Huri.
    + destruct tts as [text|]; [|cbn; intros []].
      destruct (negb (String.eqb text "")); [|cbn; intros []].
      cbn [fst snd]. apply Hvolume, Htts.
  - destruct tts as [text|]; [|cbn; intros []].
    destruct (negb (String.eqb text "")); [|cbn; intros []].
    cbn [fst snd]. apply Hvolume, Htts.
Qed.

End OverlayService.

Lemma join_players_expands_known_members_witness :
  snd (Services.async_join_players (fun _ => true) Samples.registries
         ["media_player.balance"; "media_player.other"])
  = [Services.Recorded LogWarning "Error adding %s to group";
     Services.TaskCreated
       [Services.TaskSent (Services.post_beolink_expand Demo.jid);
        Services.TaskPaused 1]].
Proof.
  exact (proj1 (proj2
    (join_players_expands_known_members (fun _ => true) Samples.registries
       ["media_player.balance"; "media_player.other"] [Some Demo.jid; None]
       ltac:(discriminate)
       ltac:(constructor; [reflexivity | constructor; [reflexivity | constructor]])))).
Defined.

Lemma overlay_sends_one_bounded_request_witness :
  snd (Services.async_overlay_audio Demo.hass
         (Some "http://192.168.0.1/chime.mp3") None (Some 90) None None
         Samples.at_thirty)
  = [Services.Sent
       (Services.post_overlay_play
          (Services.mkOverlayPlayRequest (Some "http://192.168.0.1/chime.mp3")
             None (Some 100)))].
Proof.
  exact (proj1
    (@overlay_sends_one_bounded_request DecimalFloat.decimal_float Demo.hass
       (Some "http://192.168.0.1/chime.mp3") None (Some 90) None None
       Samples.at_thirty
       (Services.post_overlay_play
          (Services.mkOverlayPlayRequest (Some "http://192.168.0.1/chime.mp3")
             None (Some 100)))
       (or_introl eq_refl))).
Defined.

(** ** Favourites *)

Section FavouriteNames.
Import Favourites.
Variable favourite : Preset.

Lemma add_source_name action a a' :
  add_source favourite action a = Ok a' -> attribute_name a' = attribute_name a.
Proof.
  unfold add_source.
  destruct (if type_is action "deezerFlow" then Ok true
            else if type_is action "playQueue" then queue_is_deezer action
            else Ok false) as [[|]|error]; cbn [obind]; [| |discriminate].
  - intros H. inversion H. reflexivity.
  - destruct (type_is action "radio"); [intros H; inversion H; reflexivity|].
    destruct (preset_source favourite) as [name|];
      [|intros H; inversion H; reflexivity].
    destruct (SourceEnum_of_name name); [|discriminate].
    intros H. inversion H. reflexivity.
Qed.








End FavouriteNames.


(** ** Discovery and remotes *)

Section Discovery.
Import ConfigFlow.

Lemma level_or_nonzero x fallback : fallback <> 0 -> level_or x fallback <> 0.
Proof.
  intros H. unfold level_or. destruct x as [[level|]|]; auto.
  destruct (Z.eqb_spec level 0); auto.
Qed.

(** X22: discovery to entry.  For a discovered device that is not yet
    configured, the zeroconf step asks the device nothing and shows the
    confirm form with the host, the model read off the host name and the
    serial number; confirming then makes the one volume-settings request and
    creates the entry titled model-serial, whose data are the host, the JID
    built from the discovered numbers, the model, and the device's default
    and maximum volume, each replaced by the integration's default when the
    device gives none or zero, so that neither is ever zero; the unique id
    is the serial number. *)
Theorem discovery_to_entry configured info fl t i s name settings input :
  lookup ATTR_TYPE_NUMBER (discovery_properties info) = Ok t ->
  lookup ATTR_ITEM_NUMBER (discovery_properties info) = Ok i ->
  lookup ATTR_SERIAL_NUMBER (discovery_properties info) = Ok s ->
  lookup ATTR_FRIENDLY_NAME (discovery_properties info) = Ok name ->
  str_in s configured = false ->
  let shown := async_step_zeroconf configured (Ok settings) info fl in
  let done := async_step_confirm configured (Ok settings) (Some input)
                (snd shown) in
  let model := replace (drop_last 16 (discovery_hostname info)) "-" " " in
  let default_volume :=
    level_or (settings_default settings) DEFAULT_DEFAULT_VOLUME in
  let max_volume := level_or (settings_maximum settings) DEFAULT_MAX_VOLUME in
  fst shown
  = Ok (ShowForm "confirm" (ConfirmForm (discovery_host info) model s))
  /\ events (snd shown) = events fl
  /\ fst done
     = Ok (CreateEntry (model ++ "-" ++ s)
             (mkUserInput (Some default_volume) (Some (discovery_host info))
                (Some (beolink_jid_of t i s)) (Some max_volume) (Some model)
                None))
  /\ events (snd done) = (events fl ++ [get_volume_settings None])%list
  /\ unique_id (handler (snd done)) = Some s
  /\ default_volume <> 0 /\ max_volume <> 0.
Proof.
  intros Htn Hin Hsn Hfn Hnew. cbv zeta.
  assert (Hshown :
            async_step_zeroconf configured (Ok settings) info fl
            = (Ok (ShowForm "confirm"
                     (ConfirmForm (discovery_host info)
                        (replace (drop_last 16 (discovery_hostname info))
                           "-" " ") s)),
               mkFlow
                 (mkFlowHandler (beolink_jid_of t i s)
                    (Some (discovery_host info)) (discovery_host info)
                    (replace (drop_last 16 (discovery_hostname info)) "-" " ")
                    (replace (drop_last 16 (discovery_hostname info)) "-" " "
                     ++ "-" ++ s)
                    s (Some s) (Some name) true)
                 (events fl))).
  { unfold async_step_zeroconf.
    rewrite (has_key_lookup _ _ _ Hfn), Hsn, Htn, Hin, Hfn. cbn [negb].
    unfold async_step_confirm, with_handler, with_event.
    cbn [handler events _serial_number set_unique_id set_title_placeholder
         set_beolink_jid set_serial_number set_model set_host set_client
         set_name set_confirm_only _beolink_jid _host _model _name _client
         unique_id title_placeholder confirm_only].
    rewrite Hnew. reflexivity. }
  rewrite Hshown. cbn [fst snd events].
  split; [reflexivity|]. split; [reflexivity|].
  unfold async_step_confirm, _compile_data, with_event.
  cbn [fst snd handler events _host _beolink_jid _model _name unique_id].
  split; [reflexivity|]. split; [reflexivity|]. split; [reflexivity|].
  split; apply level_or_nonzero; discriminate.
Qed.

End Discovery.

Section Remotes.
Import EventPlatform.
Variable DEVICE_BUTTONS BEO_REMOTE_KEYS BEO_REMOTE_LIGHT_KEYS
  BEO_REMOTE_CONTROL_KEYS : list string.
Variable BEO_REMOTE_SUBMENU_LIGHT BEO_REMOTE_SUBMENU_CONTROL : string.

Local Abbreviation setup :=
  (async_setup_entry DEVICE_BUTTONS BEO_REMOTE_KEYS BEO_REMOTE_LIGHT_KEYS
     BEO_REMOTE_CONTROL_KEYS BEO_REMOTE_SUBMENU_LIGHT
     BEO_REMOTE_SUBMENU_CONTROL).

(** X23: with remotes paired, setup of the event platform serves the first
    one only, the others making no difference: it registers the remote's
    device under the config entry's unique id before it adds the entities,
    every remote key entity added carries the first remote's serial number,
    each common key gets an entity in the light and in the control submenu,
    and the entities added are those of a setup without remote and one per
    light key and per control key. *)
Theorem remote_entities_of_first_remote model unique_id uid remote rest serial :
  remote_serial_number remote = Some serial -> serial <> "" ->
  unique_id = Some uid -> uid <> "" ->
  let run := setup model unique_id (Ok (remote :: rest)) in
  let added := added_entities run in
  run = setup model unique_id (Ok [remote])
  /\ snd run = [get_bluetooth_remotes; device_get_or_create serial uid;
                async_add_entities added; set_platform_initialized]
  /\ (forall s key, In (BangOlufsenRemoteKeyEvent s key) added -> s = serial)
  /\ (forall key, In key BEO_REMOTE_KEYS ->
        In (BangOlufsenRemoteKeyEvent serial
              (BEO_REMOTE_SUBMENU_LIGHT ++ "/" ++ key)) added
        /\ In (BangOlufsenRemoteKeyEvent serial
                 (BEO_REMOTE_SUBMENU_CONTROL ++ "/" ++ key)) added)
  /\ List.length added
     = (List.length (added_entities (setup model unique_id (Ok [])))
        + 2 * List.length BEO_REMOTE_KEYS
        + List.length BEO_REMOTE_LIGHT_KEYS
        + List.length BEO_REMOTE_CONTROL_KEYS)%nat.
Proof.
  intros Hserial Hs -> Hu. cbv zeta.
  assert (Hgiven : forall x, x <> "" -> assert_str (Some x) = Ok x).
  { intros x Hx. unfold assert_str.
    destruct (String.eqb_spec x ""); [contradiction | reflexivity]. }
  unfold async_setup_entry, added_entities.
  rewrite Hserial, (Hgiven _ Hs), (Hgiven _ Hu).
  cbn [fst snd flat_map app]. rewrite !app_nil_r.
  split; [reflexivity|]. split; [reflexivity|]. split; [|split].
  - intros s key Hin.
    apply in_app_or in Hin as [Hin|Hin].
    + destruct (str_in model BangOlufsenModelSupport_PROXIMITY_SENSOR).
      * apply in_app_or in Hin as [Hin|[Hin|[]]]; [|discriminate].
        apply in_map_iff in Hin as (b & Hb & _). discriminate.
      * apply in_map_iff in Hin as (b & Hb & _). discriminate.
    + apply in_app_or in Hin as [Hin|Hin];
        apply in_map_iff in Hin as (k & Hk & _); now inversion Hk.
  - intros key Hkey. split; apply in_or_app; right; apply in_or_app.
    + left. apply in_map_iff. exists key. split; [reflexivity|].
      apply in_or_app. now left.
    + right. apply in_map_iff. exists key. split; [reflexivity|].
      apply in_or_app. now left.
  - rewrite !length_app, !length_map, !length_app. lia.
Qed.

End Remotes.

Lemma discovery_to_entry_witness :
  fst (ConfigFlow.async_step_confirm [] (Ok Samples.no_levels)
         (Some ConfigFlow.empty_UserInput)
         (snd (ConfigFlow.async_step_zeroconf [] (Ok Samples.no_levels)
                 Samples.discovery
                 (ConfigFlow.mkFlow ConfigFlow.new_FlowHandler []))))
  = Ok (ConfigFlow.CreateEntry "Beosound Balance-33333333"
          (ConfigFlow.mkUserInput (Some DEFAULT_DEFAULT_VOLUME)
             (Some "192.168.0.2") (Some Demo.jid) (Some DEFAULT_MAX_VOLUME)
             (Some "Beosound Balance") None)).
Proof.
  exact (proj1 (proj2 (proj2
    (discovery_to_entry [] Samples.discovery
       (ConfigFlow.mkFlow ConfigFlow.new_FlowHandler [])
       "1111" "2222222" "33333333" "Living" Samples.no_levels
       ConfigFlow.empty_UserInput eq_refl eq_refl eq_refl eq_refl eq_refl)))).
Defined.

Lemma remote_entities_of_first_remote_witness :
  List.length
    (EventPlatform.added_entities
       (EventPlatform.async_setup_entry ["Play"] ["Blue"] ["Func1"] ["Stop"]
          "Light" "Control" "Beosound Balance" (Some "33333333")
          (Ok [Samples.remote; Samples.remote])))
  = (List.length
       (EventPlatform.added_entities
          (EventPlatform.async_setup_entry ["Play"] ["Blue"] ["Func1"] ["Stop"]
             "Light" "Control" "Beosound Balance" (Some "33333333") (Ok [])))
     + 2 * List.length ["Blue"] + List.length ["Func1"]
     + List.length ["Stop"])%nat.
Proof.
  exact (proj2 (proj2 (proj2 (proj2
    (remote_entities_of_first_remote ["Play"] ["Blue"] ["Func1"] ["Stop"]
       "Light" "Control" "Beosound Balance" (Some "33333333") "33333333"
       Samples.remote [Samples.remote] "50000001"
       eq_refl ltac:(discriminate) eq_refl ltac:(discriminate)))))).
Defined.
